(** * Verification of the RadarLPDP acquisition pipeline (src/cadgetdata.c)

    Shallow embedding of the batch acquisition program for the PCI-9846H:
    channel extraction, the half-buffer drain loop, the per-event cycle of
    [main], the batch buffer [g_data_buffer] with [save_batch_to_file], and
    the live snapshot published through a temporary file and [MoveFileExA].
    The event cycle and the main loop of the older variant
    src/CodeTriggerExtBaru/ori.c are embedded as well, and so is the
    spectral stage of src/CodeTriggerExtBaru/fft_zero.c in IEEE-754
    arithmetic ([SpecFloat]).

    Data: a U16 sample is a [Z] in [0, 65536); bytes are [Z] in [0, 256);
    a memory block or a file is a [list Z] of bytes; the C heap and the file
    system are finite partial maps represented as functions; every file
    system call is recorded in an operation trace, in program order. *)

From Stdlib Require Import List Arith Lia ZArith Bool.
From Stdlib Require Import SpecFloat.
From Stdlib Require Ascii String.
Import String.StringSyntax.
Local Open Scope string_scope.
Import ListNotations.
Open Scope nat_scope.

(* ------------------------------------------------------------------ *)
(** ** Configuration (the macros of the source) *)

(** The compile-time configuration: [BUFFER_SAMPLES] scans per half-buffer,
    [TOTAL_HW_CHANNELS] interleaved hardware channels, [SELECTED_IDX]. *)
Record Config := mkConfig {
  BUFFER_SAMPLES : nat;
  TOTAL_HW_CHANNELS : nat;
  SELECTED_IDX : list nat
}.

Definition SELECTED_COUNT (c : Config) : nat := length (SELECTED_IDX c).

(** The configuration of src/cadgetdata.c. *)
Definition cadget_cfg : Config := mkConfig 8192 4 [1; 3].

Definition MAX_EVENT_BATCH : nat := 1000.

(* ------------------------------------------------------------------ *)
(** ** Bytes *)

(** A U16 stored little-endian (x86): low byte first. *)
Definition bytes_of_u16 (w : Z) : list Z := [Z.modulo w 256; Z.div w 256].

Definition bytes_of_u16s (ws : list Z) : list Z := flat_map bytes_of_u16 ws.

(** ASCII text as bytes. *)
Definition bytes_of_string (s : String.string) : list Z :=
  map (fun a => Z.of_nat (Ascii.nat_of_ascii a)) (String.list_ascii_of_string s).

(* ------------------------------------------------------------------ *)
(** ** Channel selector: [extract_selected_channels] *)

(** The inner loop over [k] for one scan [i]: [dst[out++] = src[base + ch]]
    with [base = i * TOTAL_HW_CHANNELS] and [ch = SELECTED_IDX[k]]. *)
Definition extract_scan (c : Config) (src : list Z) (i : nat) : list Z :=
  map (fun ch => nth (i * TOTAL_HW_CHANNELS c + ch) src 0%Z) (SELECTED_IDX c).

(** The outer loop [for (i = 0; i < N; ++i)]: the values written to
    [dst[0]], [dst[1]], ... in the order of the writes. *)
Definition extract_selected_channels (c : Config) (src : list Z) : list Z :=
  flat_map (extract_scan c src) (seq 0 (BUFFER_SAMPLES c)).

(* ------------------------------------------------------------------ *)
(** ** The C heap: [realloc], [memcpy], [free] *)

Definition upd {A} (f : nat -> option A) (k : nat) (v : option A) : nat -> option A :=
  fun k' => if Nat.eqb k' k then v else f k'.

(** Allocated blocks by address; [hnext] is the next fresh address. *)
Record Heap := mkHeap {
  blocks : nat -> option (list Z);
  hnext : nat
}.

Definition block_contents (h : Heap) (p : nat) : list Z :=
  match blocks h p with Some l => l | None => [] end.

(** Growing a block keeps its contents; the new tail is not yet written
    (it is read as zeros). *)
Definition resize (n : nat) (l : list Z) : list Z :=
  firstn n l ++ repeat 0%Z (n - length l).

(** [realloc(p, n)]; [ok = false] is an allocation failure: NULL is returned
    and the old block stays allocated. [realloc(NULL, n)] allocates. *)
Definition heap_realloc (h : Heap) (p : option nat) (n : nat) (ok : bool)
    : option (Heap * nat) :=
  if negb ok then None else
  match p with
  | None => Some (mkHeap (upd (blocks h) (hnext h) (Some (repeat 0%Z n)))
                         (S (hnext h)), hnext h)
  | Some q => Some (mkHeap (upd (blocks h) q (Some (resize n (block_contents h q))))
                           (hnext h), q)
  end.

Definition overwrite (l : list Z) (off : nat) (d : list Z) : list Z :=
  firstn off l ++ d ++ skipn (off + length d) l.

(** [memcpy] of [d] to offset [off] of block [q]. *)
Definition heap_memcpy (h : Heap) (q off : nat) (d : list Z) : Heap :=
  mkHeap (upd (blocks h) q (Some (overwrite (block_contents h q) off d))) (hnext h).

(** [free(p)]; [free(NULL)] does nothing. *)
Definition heap_free (h : Heap) (p : option nat) : Heap :=
  match p with
  | None => h
  | Some q => mkHeap (upd (blocks h) q None) (hnext h)
  end.

(* ------------------------------------------------------------------ *)
(** ** The file system and its operation trace *)

(** Paths and file contents are byte strings. *)
Definition path := list Z.

Definition path_eqb (a b : path) : bool :=
  if list_eq_dec Z.eq_dec a b then true else false.

Definition FS := path -> option (list Z).

Definition fs_upd (fs : FS) (p : path) (v : option (list Z)) : FS :=
  fun p' => if path_eqb p' p then v else fs p'.

(** The file system calls of the program, as they happen. *)
Inductive FsOp :=
| FOpen (p : path)              (** [fopen(p, "wb")] succeeded: truncate *)
| FOpenFail (p : path)          (** [fopen(p, "wb")] returned NULL *)
| FWrite (p : path) (d : list Z) (** [fwrite] on the stream of [p] *)
| FClose (p : path)
| FRename (src dst : path)      (** [MoveFileExA(src, dst, REPLACE_EXISTING)] *)
| FRenameFail (src dst : path). (** [MoveFileExA] failed *)

Definition fs_apply (fs : FS) (op : FsOp) : FS :=
  match op with
  | FOpen p => fs_upd fs p (Some [])
  | FWrite p d => fs_upd fs p (Some (match fs p with Some c => c | None => [] end ++ d))
  | FRename s d =>
      match fs s with
      | Some c => fs_upd (fs_upd fs d (Some c)) s None
      | None => fs
      end
  | FOpenFail _ | FClose _ | FRenameFail _ _ => fs
  end.

Definition fs_run (fs : FS) (ops : list FsOp) : FS := fold_left fs_apply ops fs.

(* ------------------------------------------------------------------ *)
(** ** [printf]/[snprintf] integer conversions *)

(** Decimal digits of a non-negative [int], most significant first; an
    [int] has at most 10 decimal digits, which bounds the recursion. *)
Fixpoint dec_digits (fuel : nat) (n : Z) : list Z :=
  match fuel with
  | O => []
  | S f => if Z.ltb n 10 then [n] else dec_digits f (Z.div n 10) ++ [Z.modulo n 10]
  end.

Definition INT_DIGITS : nat := 10.

Definition digit_chars (ds : list Z) : list Z := map (fun d => 48 + d)%Z ds.

Definition fmt_sign (n : Z) : list Z := if Z.ltb n 0 then [45%Z] else [].

Definition fmt_abs (n : Z) : list Z := digit_chars (dec_digits INT_DIGITS (Z.abs n)).

(** [%d] *)
Definition fmt_d (n : Z) : list Z := fmt_sign n ++ fmt_abs n.

(** [%0wd]: zero padded to width [w], sign included in the width. *)
Definition fmt_0d (w : nat) (n : Z) : list Z :=
  fmt_sign n ++ repeat 48%Z (w - length (fmt_sign n) - length (fmt_abs n)) ++ fmt_abs n.

Definition nl : list Z := [10%Z].

(** The fields of [struct tm] that the program prints. *)
Record Tm := mkTm {
  tm_year : Z; tm_mon : Z; tm_mday : Z; tm_hour : Z; tm_min : Z; tm_sec : Z
}.

Definition s2b (s : String.string) : list Z := bytes_of_string s.

(** [LOG_FOLDER "\\batch_log_%04d%02d%02d_%02d%02d%02d_%04d_evt.bin"] *)
Definition log_filepath (t : Tm) (count : nat) : path :=
  s2b "log\batch_log_" ++
  fmt_0d 4 (tm_year t + 1900) ++ fmt_0d 2 (tm_mon t + 1) ++ fmt_0d 2 (tm_mday t) ++
  s2b "_" ++ fmt_0d 2 (tm_hour t) ++ fmt_0d 2 (tm_min t) ++ fmt_0d 2 (tm_sec t) ++
  s2b "_" ++ fmt_0d 4 (Z.of_nat count) ++ s2b "_evt.bin".

Definition CODE_VERSION : String.string := "Code trigger V.3".
Definition AUTHOR_NAME : String.string := "Raihan Muhammad".

(** The [TEST_DATE] line of the header, without its newline. *)
Definition date_line (t : Tm) : list Z :=
  s2b "TEST_DATE:" ++ fmt_0d 4 (tm_year t + 1900) ++ s2b "-" ++
  fmt_0d 2 (tm_mon t + 1) ++ s2b "-" ++ fmt_0d 2 (tm_mday t) ++ s2b " " ++
  fmt_0d 2 (tm_hour t) ++ s2b ":" ++ fmt_0d 2 (tm_min t) ++ s2b ":" ++
  fmt_0d 2 (tm_sec t).

(** The text produced by the [snprintf] of the header in
    [save_batch_to_file] of src/cadgetdata.c, before truncation. *)
Definition format_header (t : Tm) (count : nat) : list Z :=
  date_line t ++ nl ++
  s2b "CODE_VERSION:" ++ s2b CODE_VERSION ++ nl ++
  s2b "AUTHOR:" ++ s2b AUTHOR_NAME ++ nl ++
  s2b "BATCH_EVENT_COUNT:" ++ fmt_d (Z.of_nat count) ++ nl ++
  s2b "SAVED_CHANNELS:CH1,CH3" ++ nl ++
  s2b "INTERLEAVE_ORDER:CH1,CH3" ++ nl ++ nl.

(** The same [snprintf] in src/CodeTriggerExtBaru/ori.c. *)
Definition format_header_ori (t : Tm) (count : nat) : list Z :=
  date_line t ++ nl ++
  s2b "CODE_VERSION:" ++ s2b CODE_VERSION ++ nl ++
  s2b "AUTHOR:" ++ s2b AUTHOR_NAME ++ nl ++
  s2b "BATCH_EVENT_COUNT:" ++ fmt_d (Z.of_nat count) ++ nl ++ nl.

(** [snprintf(header, 512, ...)] keeps at most 511 characters, and
    [fwrite(header, 1, strlen(header), f_log)] writes them. *)
Definition HEADER_SIZE : nat := 512.

Definition snprintf_trunc (size : nat) (s : list Z) : list Z := firstn (size - 1) s.

(** The [printf] messages of [save_batch_to_file]. *)
Definition msg_flush_open_fail (p : path) : list Z :=
  s2b "KRITIS: Gagal membuat file batch log: " ++ p ++ nl.

Definition msg_flush_done (count : nat) (p : path) : list Z :=
  s2b "Batch " ++ fmt_d (Z.of_nat count) ++ s2b " event disimpan ke " ++ p ++
  s2b " (header+data)" ++ nl.

Definition msg_flush_done_ori (count : nat) (p : path) : list Z :=
  s2b "Batch " ++ fmt_d (Z.of_nat count) ++ s2b " event berhasil disimpan ke " ++ p ++
  s2b " (header+data)" ++ nl.

(* ------------------------------------------------------------------ *)
(** ** Program state *)

(** [AcquisitionData]: [data] is the address of a heap block or NULL. *)
Record AcquisitionData := mkAD { data : option nat; size : nat }.

Definition empty_slot : AcquisitionData := mkAD None 0.

(** The state the program's global and heap effects act on:
    the heap, the file system with its trace of calls, the console,
    [g_data_buffer] (an array of [MAX_EVENT_BATCH] slots),
    [g_buffered_count], and a flag raised when the program writes
    [g_data_buffer] out of its bounds. *)
Record Mem := mkMem {
  heap : Heap;
  fs : FS;
  ftrace : list FsOp;
  console : list (list Z);
  g_data_buffer : list AcquisitionData;
  g_buffered_count : nat;
  out_of_bounds : bool
}.

Definition set_heap (m : Mem) (h : Heap) : Mem :=
  mkMem h (fs m) (ftrace m) (console m) (g_data_buffer m) (g_buffered_count m)
        (out_of_bounds m).

(** Perform a file system call and record it in the trace. *)
Definition do_fs (m : Mem) (op : FsOp) : Mem :=
  mkMem (heap m) (fs_apply (fs m) op) (ftrace m ++ [op]) (console m)
        (g_data_buffer m) (g_buffered_count m) (out_of_bounds m).

Definition say (m : Mem) (s : list Z) : Mem :=
  mkMem (heap m) (fs m) (ftrace m) (console m ++ [s]) (g_data_buffer m)
        (g_buffered_count m) (out_of_bounds m).

Definition set_count (m : Mem) (n : nat) : Mem :=
  mkMem (heap m) (fs m) (ftrace m) (console m) (g_data_buffer m) n (out_of_bounds m).

Fixpoint list_set {A} (l : list A) (i : nat) (x : A) : list A :=
  match l, i with
  | [], _ => []
  | _ :: t, O => x :: t
  | y :: t, S j => y :: list_set t j x
  end.

(** [g_data_buffer[i] = e]: inside the array an update, outside of it an
    out-of-bounds write, recorded as such. *)
Definition write_slot (m : Mem) (i : nat) (e : AcquisitionData) : Mem :=
  if i <? length (g_data_buffer m) then
    mkMem (heap m) (fs m) (ftrace m) (console m) (list_set (g_data_buffer m) i e)
          (g_buffered_count m) (out_of_bounds m)
  else
    mkMem (heap m) (fs m) (ftrace m) (console m) (g_data_buffer m)
          (g_buffered_count m) true.

Definition read_slot (m : Mem) (i : nat) : AcquisitionData :=
  nth i (g_data_buffer m) empty_slot.

(* ------------------------------------------------------------------ *)
(** ** [save_batch_to_file] *)

(** One iteration of the loop over the batch: write the payload of
    [g_data_buffer[i]] to the log, free it, clear the slot. *)
Definition save_entry (p : path) (m : Mem) (i : nat) : Mem :=
  let e := read_slot m i in
  let payload := match data e with
                 | Some q => firstn (size e) (block_contents (heap m) q)
                 | None => []
                 end in
  let m1 := do_fs m (FWrite p payload) in
  let m2 := set_heap m1 (heap_free (heap m1) (data e)) in
  write_slot m2 i empty_slot.

(** [save_batch_to_file], for a header format and a final message;
    [t] is the result of [localtime(time(NULL))] and [open_ok] whether
    [fopen(log_filepath, "wb")] succeeds. *)
Definition save_batch_gen (hdr : Tm -> nat -> list Z) (done_msg : nat -> path -> list Z)
    (t : Tm) (open_ok : bool) (m : Mem) : Mem :=
  let n := g_buffered_count m in
  if n =? 0 then m else
  let p := log_filepath t n in
  if negb open_ok then say (do_fs m (FOpenFail p)) (msg_flush_open_fail p) else
  let m1 := do_fs (do_fs m (FOpen p)) (FWrite p (snprintf_trunc HEADER_SIZE (hdr t n))) in
  let m2 := fold_left (save_entry p) (seq 0 n) m1 in
  let m3 := do_fs m2 (FClose p) in
  set_count (say m3 (done_msg n p)) 0.

(** [save_batch_to_file] of src/cadgetdata.c. *)
Definition save_batch_to_file : Tm -> bool -> Mem -> Mem :=
  save_batch_gen format_header msg_flush_done.

(** [save_batch_to_file] of src/CodeTriggerExtBaru/ori.c. *)
Definition save_batch_to_file_ori : Tm -> bool -> Mem -> Mem :=
  save_batch_gen format_header_ori msg_flush_done_ori.

(** The end of an event in [main]: if the event buffer is non-NULL and
    non-empty, store it at [g_data_buffer[g_buffered_count]], increment the
    count, and flush when it reaches [MAX_EVENT_BATCH]. *)
Definition finish_event (save : Tm -> bool -> Mem -> Mem) (t : Tm) (open_ok : bool)
    (acq : option nat) (acq_size : nat) (m : Mem) : Mem :=
  match acq with
  | Some q =>
      if 0 <? acq_size then
        let m1 := write_slot m (g_buffered_count m) (mkAD (Some q) acq_size) in
        let m2 := set_count m1 (S (g_buffered_count m1)) in
        if MAX_EVENT_BATCH <=? g_buffered_count m2 then save t open_ok m2 else m2
      else m
  | None => m
  end.

(** The end-of-event code of [main] for a sequence of completed events,
    each given by the address and size of its buffer; every flush happens
    at time [t] and its [fopen] succeeds or not as [open_ok]. *)
Definition finish_events (t : Tm) (open_ok : bool) (evs : list (nat * nat)) (m : Mem) : Mem :=
  fold_left (fun m e => finish_event save_batch_to_file t open_ok (Some (fst e)) (snd e) m)
            evs m.

(* ------------------------------------------------------------------ *)
(** ** The half-buffer drain loop of src/cadgetdata.c *)

(** What one poll of the driver and the keyboard yields:
    [WD_AI_AsyncDblBufferHalfReady] sets [halfReady] and [g_fStop]; the
    contents of the two DMA halves [ai_buf], [ai_buf2] at that moment;
    whether the [realloc] of this iteration succeeds; whether ESC is read. *)
Record Poll := mkPoll {
  halfReady : bool;
  fStop_drv : bool;
  ai_buf : list Z;
  ai_buf2 : list Z;
  realloc_ok : bool;
  esc : bool
}.

(** The local variables of the event cycle ([f_out_live] non-NULL or not). *)
Record Loop := mkLoop {
  current_acq_buffer : option nat;
  current_acq_size : nat;
  current_buffer_idx : nat;
  g_fStop : bool;
  exit_now : bool;
  f_out_live : bool
}.

Definition live_filepath_tmp : path := s2b "live\live_acquisition_ui.tmp".
Definition live_filepath_final : path := s2b "live\live_acquisition_ui.bin".

Definition sel_chunk_bytes (c : Config) : nat := BUFFER_SAMPLES c * SELECTED_COUNT c * 2.

(** The half-buffer branch: extract, grow the event buffer, append, mirror
    to the live file; on [realloc] failure free and stop. Then switch half. *)
Definition drain_half (c : Config) (p : Poll) (m : Mem) (l : Loop) : Mem * Loop :=
  let src := if current_buffer_idx l =? 0 then ai_buf p else ai_buf2 p in
  let sel_work := bytes_of_u16s (extract_selected_channels c src) in
  let n := sel_chunk_bytes c in
  let idx' := 1 - current_buffer_idx l in
  match heap_realloc (heap m) (current_acq_buffer l) (current_acq_size l + n) (realloc_ok p) with
  | None =>
      (set_heap m (heap_free (heap m) (current_acq_buffer l)),
       mkLoop None 0 idx' true (exit_now l) (f_out_live l))
  | Some (h, q) =>
      let chunk := firstn n sel_work in
      let m1 := set_heap m (heap_memcpy h q (current_acq_size l) chunk) in
      (if f_out_live l then do_fs m1 (FWrite live_filepath_tmp chunk) else m1,
       mkLoop (Some q) (current_acq_size l + n) idx' (g_fStop l) (exit_now l) (f_out_live l))
  end.

(** One iteration of [while (!g_fStop)]. *)
Definition drain_iter (c : Config) (p : Poll) (m : Mem) (l : Loop) : Mem * Loop :=
  let l0 := mkLoop (current_acq_buffer l) (current_acq_size l) (current_buffer_idx l)
                   (fStop_drv p) (exit_now l) (f_out_live l) in
  let '(m1, l1) := if halfReady p then drain_half c p m l0 else (m, l0) in
  if esc p then
    (m1, mkLoop (current_acq_buffer l1) (current_acq_size l1) (current_buffer_idx l1)
                true true (f_out_live l1))
  else (m1, l1).

(** The loop, over the successive polls; [None] when the polls run out
    before the loop stops. *)
Fixpoint drain (c : Config) (ps : list Poll) (m : Mem) (l : Loop) : option (Mem * Loop) :=
  if g_fStop l then Some (m, l) else
  match ps with
  | [] => None
  | p :: ps' => let '(m', l') := drain_iter c p m l in drain c ps' m' l'
  end.

(* ------------------------------------------------------------------ *)
(** ** One trigger cycle of [main] in src/cadgetdata.c *)

(** The outside world during one trigger cycle: the driver configuration
    calls succeed ([hw_ok]); ESC is read while waiting for the trigger
    ([esc_armed]); [fopen] of the live temporary file succeeds; the
    [malloc] of [sel_work] succeeds; the polls of the drain loop; whether
    [MoveFileExA] succeeds; the time and [fopen] outcome of a flush. *)
Record EventEnv := mkEnv {
  hw_ok : bool;
  esc_armed : bool;
  live_open_ok : bool;
  sel_work_ok : bool;
  polls : list Poll;
  rename_ok : bool;
  flush_tm : Tm;
  flush_open_ok : bool
}.

(** [Exited]: [print_error_and_cleanup] called [exit(1)]; [Running]: the
    inputs ended while the program still waits; [Cycled m e]: the cycle
    ended with [exit_now = e]; [Finished]: [main] returned. *)
Inductive Outcome :=
| Exited (m : Mem)
| Running (m : Mem)
| Cycled (m : Mem) (exit_now : bool)
| Finished (m : Mem).

(** [fclose(f_out_live)] then [MoveFileExA(tmp, final, ...)]. *)
Definition close_and_publish (ok : bool) (m : Mem) : Mem :=
  let m1 := do_fs m (FClose live_filepath_tmp) in
  do_fs m1 (if ok then FRename live_filepath_tmp live_filepath_final
            else FRenameFail live_filepath_tmp live_filepath_final).

Definition event_cycle (c : Config) (env : EventEnv) (m : Mem) : Outcome :=
  if negb (hw_ok env) then Exited m else
  if esc_armed env then Cycled m true else
  let live := live_open_ok env in
  let m1 := do_fs m (if live then FOpen live_filepath_tmp else FOpenFail live_filepath_tmp) in
  if negb (sel_work_ok env) then Exited m1 else
  match drain c (polls env) m1 (mkLoop None 0 0 false false live) with
  | None => Running m1
  | Some (m2, l) =>
      let m3 := if f_out_live l then close_and_publish (rename_ok env) m2 else m2 in
      Cycled (finish_event save_batch_to_file (flush_tm env) (flush_open_ok env)
                (current_acq_buffer l) (current_acq_size l) m3)
             (exit_now l)
  end.

(** [while (!exit_now) { ... }] over the successive trigger cycles, then
    the final flush of a non-empty batch. *)
Fixpoint main_loop (c : Config) (envs : list EventEnv) (m : Mem) : Outcome :=
  match envs with
  | [] => Running m
  | e :: es =>
      match event_cycle c e m with
      | Cycled m' false => main_loop c es m'
      | o => o
      end
  end.

Definition main_program (c : Config) (envs : list EventEnv) (t : Tm) (open_ok : bool)
    (m : Mem) : Outcome :=
  match main_loop c envs m with
  | Cycled m' _ =>
      Finished (if 0 <? g_buffered_count m' then save_batch_to_file t open_ok m' else m')
  | o => o
  end.

(** The initial state: nothing allocated, [g_data_buffer] zeroed. *)
Definition init_mem (fs0 : FS) : Mem :=
  mkMem (mkHeap (fun _ => None) 0) fs0 [] [] (repeat empty_slot MAX_EVENT_BATCH) 0 false.

(* ------------------------------------------------------------------ *)
(** ** The trigger cycle of src/CodeTriggerExtBaru/ori.c *)

(** ori.c stores the raw half-buffer of [CHANNEL_COUNT] channels:
    [chunk_size = sizeof(U16) * BUFFER_SAMPLES * CHANNEL_COUNT]. *)
Definition ori_cfg : Config := mkConfig 8192 2 [0; 1].

Definition chunk_size (c : Config) : nat := 2 * BUFFER_SAMPLES c * TOTAL_HW_CHANNELS c.

(** One iteration of the drain loop of ori.c; the boolean is [true] when
    the iteration left the loop by [break] (after a [realloc] failure). *)
Definition drain_iter_ori (c : Config) (p : Poll) (m : Mem) (l : Loop)
    : (Mem * Loop) * bool :=
  let fstop := fStop_drv p in
  if halfReady p then
    let src := if current_buffer_idx l =? 0 then ai_buf p else ai_buf2 p in
    let n := chunk_size c in
    match heap_realloc (heap m) (current_acq_buffer l) (current_acq_size l + n) (realloc_ok p) with
    | None =>
        ((set_heap m (heap_free (heap m) (current_acq_buffer l)),
          mkLoop None (current_acq_size l) (current_buffer_idx l) true (exit_now l) (f_out_live l)),
         true)
    | Some (h, q) =>
        let chunk := firstn n (bytes_of_u16s src) in
        let m1 := do_fs (set_heap m (heap_memcpy h q (current_acq_size l) chunk))
                        (FWrite live_filepath_tmp chunk) in
        let l1 := mkLoop (Some q) (current_acq_size l + n) (1 - current_buffer_idx l)
                         fstop (exit_now l) (f_out_live l) in
        if esc p then
          ((m1, mkLoop (current_acq_buffer l1) (current_acq_size l1) (current_buffer_idx l1)
                       true true (f_out_live l1)), false)
        else ((m1, l1), false)
    end
  else
    let l1 := mkLoop (current_acq_buffer l) (current_acq_size l) (current_buffer_idx l)
                     fstop (exit_now l) (f_out_live l) in
    if esc p then
      ((m, mkLoop (current_acq_buffer l1) (current_acq_size l1) (current_buffer_idx l1)
                  true true (f_out_live l1)), false)
    else ((m, l1), false).

Fixpoint drain_ori (c : Config) (ps : list Poll) (m : Mem) (l : Loop) : option (Mem * Loop) :=
  if g_fStop l then Some (m, l) else
  match ps with
  | [] => None
  | p :: ps' =>
      match drain_iter_ori c p m l with
      | (s, true) => Some s
      | ((m', l'), false) => drain_ori c ps' m' l'
      end
  end.

(** ori.c: when [fopen] of the temporary live file fails, [continue]. *)
Definition event_cycle_ori (c : Config) (env : EventEnv) (m : Mem) : Outcome :=
  if negb (hw_ok env) then Exited m else
  if esc_armed env then Cycled m true else
  if negb (live_open_ok env) then Cycled (do_fs m (FOpenFail live_filepath_tmp)) false else
  let m1 := do_fs m (FOpen live_filepath_tmp) in
  match drain_ori c (polls env) m1 (mkLoop None 0 0 false false true) with
  | None => Running m1
  | Some (m2, l) =>
      let m3 := close_and_publish (rename_ok env) m2 in
      Cycled (finish_event save_batch_to_file_ori (flush_tm env) (flush_open_ok env)
                (current_acq_buffer l) (current_acq_size l) m3)
             (exit_now l)
  end.

(** The batch count and [exit_now] at the end of a trigger cycle. *)
Definition cycle_result (o : Outcome) : option (nat * bool) :=
  match o with
  | Cycled m e => Some (g_buffered_count m, e)
  | _ => None
  end.

(** The memory at the end of an outcome. *)
Definition outcome_mem (o : Outcome) : Mem :=
  match o with
  | Exited m | Running m | Cycled m _ | Finished m => m
  end.

(* ------------------------------------------------------------------ *)
(** ** The live snapshot protocol *)

(** A checker of the traces of file system calls, not code of the
    program: the temporary live file is opened, written, closed, and only
    then renamed onto the visible live path, by the very next call. *)
Definition is_live (p : path) : bool :=
  path_eqb p live_filepath_tmp || path_eqb p live_filepath_final.

Inductive LiveState := LiveIdle | LiveOpen | LiveClosed.

Definition live_step (st : LiveState) (o : FsOp) : option LiveState :=
  match st, o with
  | LiveClosed, FRename s d | LiveClosed, FRenameFail s d =>
      if path_eqb s live_filepath_tmp && path_eqb d live_filepath_final
      then Some LiveIdle else None
  | LiveClosed, _ => None
  | _, FOpen p =>
      if path_eqb p live_filepath_tmp then Some LiveOpen
      else if path_eqb p live_filepath_final then None else Some st
  | _, FOpenFail _ => Some st
  | LiveOpen, FWrite p _ => if path_eqb p live_filepath_final then None else Some LiveOpen
  | LiveIdle, FWrite p _ => if is_live p then None else Some LiveIdle
  | LiveOpen, FClose p =>
      if path_eqb p live_filepath_tmp then Some LiveClosed
      else if path_eqb p live_filepath_final then None else Some LiveOpen
  | LiveIdle, FClose p => if is_live p then None else Some LiveIdle
  | _, FRename s d => if is_live s || is_live d then None else Some st
  | _, FRenameFail _ _ => Some st
  end.

Fixpoint live_run (st : LiveState) (ops : list FsOp) : option LiveState :=
  match ops with
  | [] => Some st
  | o :: r => match live_step st o with Some s => live_run s r | None => None end
  end.

(** The calls allowed between the opening and the closing of the
    temporary file: none opens, closes or renames a live path, none
    writes the visible one. *)
Definition seg_ok (o : FsOp) : bool :=
  match o with
  | FOpen p | FClose p => negb (is_live p)
  | FWrite p _ => negb (path_eqb p live_filepath_final)
  | FRename s d => negb (is_live s || is_live d)
  | FOpenFail _ | FRenameFail _ _ => true
  end.

(** The bytes the calls [ops] write to [p]. *)
Definition writes_to (p : path) (ops : list FsOp) : list Z :=
  flat_map (fun o => match o with
                     | FWrite q d => if path_eqb q p then d else []
                     | _ => []
                     end) ops.

(** The calls strictly between positions [j] and [k]. *)
Definition seg (j k : nat) (ops : list FsOp) : list FsOp :=
  firstn (k - S j) (skipn (S j) ops).

(** [v], the content of the visible live path after the first [n] calls of
    [ops], is its initial content, or the bytes written to the temporary
    file between an [fopen] at [j] and the [fclose] at [k], renamed onto
    the visible path by call [k + 1 < n]. *)
Definition published (fs0 : FS) (ops : list FsOp) (n : nat) (v : option (list Z)) : Prop :=
  v = fs0 live_filepath_final \/
  exists j k, j < k /\ S k < n /\
    nth_error ops j = Some (FOpen live_filepath_tmp) /\
    nth_error ops k = Some (FClose live_filepath_tmp) /\
    nth_error ops (S k) = Some (FRename live_filepath_tmp live_filepath_final) /\
    forallb seg_ok (seg j k ops) = true /\
    v = Some (writes_to live_filepath_tmp (seg j k ops)).

(** The state of the checker after the calls [ops], with what it
    guarantees about the two live files. *)
Definition live_inv (fs0 : FS) (ops : list FsOp) (st : LiveState) : Prop :=
  published fs0 ops (length ops) (fs_run fs0 ops live_filepath_final) /\
  match st with
  | LiveIdle => True
  | LiveOpen =>
      exists j, j < length ops /\ nth_error ops j = Some (FOpen live_filepath_tmp) /\
        forallb seg_ok (skipn (S j) ops) = true /\
        fs_run fs0 ops live_filepath_tmp = Some (writes_to live_filepath_tmp (skipn (S j) ops))
  | LiveClosed =>
      exists j, S j < length ops /\ nth_error ops j = Some (FOpen live_filepath_tmp) /\
        nth_error ops (length ops - 1) = Some (FClose live_filepath_tmp) /\
        forallb seg_ok (seg j (length ops - 1) ops) = true /\
        fs_run fs0 ops live_filepath_tmp =
          Some (writes_to live_filepath_tmp (seg j (length ops - 1) ops))
  end.

(** The calls of the program from [m] to [m'] are recorded in the trace,
    account for the change of the files, and take the checker from [st]
    to [st']. *)
Definition live_steps (st : LiveState) (m m' : Mem) (st' : LiveState) : Prop :=
  exists ops, ftrace m' = ftrace m ++ ops /\ fs m' = fs_run (fs m) ops /\
    live_run st ops = Some st'.

(* ------------------------------------------------------------------ *)
(** ** Driver traces *)

(** The half the driver fills for the [idx]-th parity: [ai_buf] for 0,
    [ai_buf2] for 1 (the strict 0,1,0,1 alternation of the double buffer). *)
Definition half_at (idx : nat) (p : Poll) : list Z :=
  if idx =? 0 then ai_buf p else ai_buf2 p.

(** [delivers idx ps Bs]: during the polls [ps] the driver hands over the
    half-buffers [Bs] in order, the first in half [idx]; every [realloc]
    succeeds and ESC is never read; the last poll reports the stop. *)
Inductive delivers : nat -> list Poll -> list (list Z) -> Prop :=
| dl_idle idx p ps Bs :
    halfReady p = false -> fStop_drv p = false -> esc p = false ->
    delivers idx ps Bs -> delivers idx (p :: ps) Bs
| dl_ready idx p ps Bs :
    halfReady p = true -> fStop_drv p = false -> esc p = false -> realloc_ok p = true ->
    delivers (1 - idx) ps Bs -> delivers idx (p :: ps) (half_at idx p :: Bs)
| dl_stop idx p ps :
    halfReady p = false -> fStop_drv p = true -> esc p = false ->
    delivers idx (p :: ps) []
| dl_stop_ready idx p ps :
    halfReady p = true -> fStop_drv p = true -> esc p = false -> realloc_ok p = true ->
    delivers idx (p :: ps) [half_at idx p].

(** The bytes of the event buffer of a loop state. *)
Definition event_bytes (m : Mem) (l : Loop) : list Z :=
  match current_acq_buffer l with
  | Some q => block_contents (heap m) q
  | None => []
  end.

(** The bytes one half-buffer contributes: its extraction, as stored. *)
Definition extract_bytes (c : Config) (B : list Z) : list Z :=
  bytes_of_u16s (extract_selected_channels c B).

(** The event buffer of a loop state holds [acc]. *)
Definition acq_holds (m : Mem) (l : Loop) (acc : list Z) : Prop :=
  current_acq_size l = length acc /\
  match current_acq_buffer l with
  | None => acc = []
  | Some q => blocks (heap m) q = Some acc
  end.

(* ------------------------------------------------------------------ *)
(** ** A reader of batch log files *)

(** A consumer of the log format: newline-terminated [KEY:value] header
    lines ended by an empty line, then the raw payloads back to back. It
    is the reader the round-trip property speaks of, not code of the
    program. *)

(** The bytes up to the first newline, and the bytes after it. *)
Fixpoint take_line (l : list Z) : option (list Z * list Z) :=
  match l with
  | [] => None
  | x :: r =>
      if Z.eqb x 10 then Some ([], r) else
      match take_line r with
      | Some (a, b) => Some (x :: a, b)
      | None => None
      end
  end.

(** Header lines up to the empty line, and the bytes after it. *)
Fixpoint read_header (fuel : nat) (l : list Z) : option (list (list Z) * list Z) :=
  match fuel with
  | O => None
  | S f =>
      match take_line l with
      | None => None
      | Some ([], r) => Some ([], r)
      | Some (line, r) =>
          match read_header f r with
          | Some (ls, r') => Some (line :: ls, r')
          | None => None
          end
      end
  end.

Fixpoint strip_prefix (k l : list Z) : option (list Z) :=
  match k, l with
  | [], _ => Some l
  | x :: k', y :: l' => if Z.eqb x y then strip_prefix k' l' else None
  | _ :: _, [] => None
  end.

(** The value of the first header line starting with [key]. *)
Fixpoint header_field (key : list Z) (lines : list (list Z)) : option (list Z) :=
  match lines with
  | [] => None
  | x :: r =>
      match strip_prefix key x with
      | Some v => Some v
      | None => header_field key r
      end
  end.

Fixpoint parse_digits (acc : Z) (l : list Z) : option Z :=
  match l with
  | [] => Some acc
  | d :: r =>
      if andb (Z.leb 48 d) (Z.leb d 57) then parse_digits (acc * 10 + (d - 48))%Z r
      else None
  end.

Definition parse_uint (l : list Z) : option Z :=
  match l with [] => None | _ => parse_digits 0 l end.

(** Cut the payload area by the known sizes of the events. *)
Fixpoint split_payloads (sizes : list nat) (l : list Z) : list (list Z) :=
  match sizes with
  | [] => []
  | s :: ss => firstn s l :: split_payloads ss (skipn s l)
  end.

(** The declared event count and the payloads of a log file. *)
Definition read_batch_log (sizes : list nat) (file : list Z) : option (Z * list (list Z)) :=
  match read_header (length file) file with
  | Some (lines, rest) =>
      match header_field (s2b "BATCH_EVENT_COUNT:") lines with
      | Some v =>
          match parse_uint v with
          | Some n => Some (n, split_payloads sizes rest)
          | None => None
          end
      | None => None
      end
  | None => None
  end.

(** The value of a list of decimal digits, most significant first. *)
Definition digits_value (ds : list Z) (acc : Z) : Z :=
  fold_left (fun a d => a * 10 + d)%Z ds acc.

(** No newline byte in [l]. *)
Definition has_no_nl (l : list Z) : bool := forallb (fun x => negb (Z.eqb x 10)) l.

(** The lines of the header of src/cadgetdata.c, without newlines. *)
Definition header_lines (t : Tm) (count : nat) : list (list Z) :=
  [date_line t;
   s2b "CODE_VERSION:" ++ s2b CODE_VERSION;
   s2b "AUTHOR:" ++ s2b AUTHOR_NAME;
   s2b "BATCH_EVENT_COUNT:" ++ fmt_d (Z.of_nat count);
   s2b "SAVED_CHANNELS:CH1,CH3";
   s2b "INTERLEAVE_ORDER:CH1,CH3"].

(* ================================================================== *)
(** The main loop of src/CodeTriggerExtBaru/ori.c and its final flush. *)
Fixpoint main_loop_ori (c : Config) (envs : list EventEnv) (m : Mem) : Outcome :=
  match envs with
  | [] => Running m
  | e :: es =>
      match event_cycle_ori c e m with
      | Cycled m' false => main_loop_ori c es m'
      | o => o
      end
  end.

Definition main_program_ori (c : Config) (envs : list EventEnv) (t : Tm) (open_ok : bool)
    (m : Mem) : Outcome :=
  match main_loop_ori c envs m with
  | Cycled m' _ =>
      Finished (if 0 <? g_buffered_count m' then save_batch_to_file_ori t open_ok m' else m')
  | o => o
  end.

(** The ranges of the fields of a [struct tm] filled by [localtime], for
    years up to 9999. *)
Definition tm_in_range (t : Tm) : Prop :=
  (-1900 <= tm_year t <= 8099)%Z /\ (0 <= tm_mon t <= 11)%Z /\ (1 <= tm_mday t <= 31)%Z /\
  (0 <= tm_hour t <= 23)%Z /\ (0 <= tm_min t <= 59)%Z /\ (0 <= tm_sec t <= 60)%Z.

(** The lines of the header of src/CodeTriggerExtBaru/ori.c. *)
Definition header_lines_ori (t : Tm) (count : nat) : list (list Z) :=
  [date_line t;
   s2b "CODE_VERSION:" ++ s2b CODE_VERSION;
   s2b "AUTHOR:" ++ s2b AUTHOR_NAME;
   s2b "BATCH_EVENT_COUNT:" ++ fmt_d (Z.of_nat count)].

(* ------------------------------------------------------------------ *)
(** ** The spectral stage of src/CodeTriggerExtBaru/fft_zero.c *)

(** IEEE-754 arithmetic, rounding to nearest even, as [SpecFloat] gives it:
    [float] is binary32 (24-bit significand, [emax] 128), [double] is
    binary64 (53, 1024). *)
Definition prec32 : Z := 24.
Definition emax32 : Z := 128.
Definition prec64 : Z := 53.
Definition emax64 : Z := 1024.

Definition fadd := SFadd prec32 emax32.
Definition fsub := SFsub prec32 emax32.
Definition fmul := SFmul prec32 emax32.
Definition fsqrt := SFsqrt prec32 emax32.
Definition dadd := SFadd prec64 emax64.
Definition ddiv := SFdiv prec64 emax64.

(** The conversions of C: [(double)] of a [float], [(float)] of a
    [double] (rounded), [(double)] of an [int]. *)
Definition double_of_float (x : spec_float) : spec_float :=
  match x with
  | S754_finite s m e => binary_round prec64 emax64 s m e
  | _ => x
  end.

Definition float_of_double (x : spec_float) : spec_float :=
  match x with
  | S754_finite s m e => binary_round prec32 emax32 s m e
  | _ => x
  end.

Definition double_of_int (n : Z) : spec_float := binary_normalize prec64 emax64 n 0 false.

Definition float_of_int (n : Z) : spec_float := binary_normalize prec32 emax32 n 0 false.

Definition FFT_SIZE : nat := 8192.

Definition fzero : spec_float := S754_zero false.

(** Lines 105-111: [sum += ch[i]] in [double] over [FFT_SIZE] samples,
    then [mean = (float)(sum / FFT_SIZE)]. *)
Definition channel_sum (ch : list spec_float) : spec_float :=
  fold_left (fun s i => dadd s (double_of_float (nth i ch fzero))) (seq 0 FFT_SIZE) fzero.

Definition channel_mean (ch : list spec_float) : spec_float :=
  float_of_double (ddiv (channel_sum ch) (double_of_int (Z.of_nat FFT_SIZE))).

(** Lines 112-115: [ch[i] -= mean] in [float], in place. *)
Definition zero_center (ch : list spec_float) : list spec_float :=
  let mean := channel_mean ch in
  map (fun i => fsub (nth i ch fzero) mean) (seq 0 FFT_SIZE) ++ skipn FFT_SIZE ch.

(** [kiss_fft_cpx]. *)
Record cpx := mkCpx { cr : spec_float; ci : spec_float }.

Definition czero : cpx := mkCpx fzero fzero.

(** [C_MUL] and [C_ADD] of kiss_fft, in [float]. *)
Definition cmul (a b : cpx) : cpx :=
  mkCpx (fsub (fmul (cr a) (cr b)) (fmul (ci a) (ci b)))
        (fadd (fmul (cr a) (ci b)) (fmul (ci a) (cr b))).

Definition cadd (a b : cpx) : cpx := mkCpx (fadd (cr a) (cr b)) (fadd (ci a) (ci b)).

(** Modelled from the spec: [kiss_fft] is not part of src/, and the spec
    treats the transform as a black box from [N] samples to [N] complex
    bins. It is modelled as the discrete Fourier transform computed in
    [float] with [C_MUL]/[C_ADD] from a table [tw] of twiddle factors
    ([tw k] stands for exp(-2 pi i k / N)). *)
Definition kiss_fft (tw : nat -> cpx) (inp : list cpx) : list cpx :=
  map (fun k => fold_left (fun acc j => cadd acc (cmul (nth j inp czero) (tw ((j * k) mod FFT_SIZE))))
                          (seq 0 FFT_SIZE) czero)
      (seq 0 FFT_SIZE).

(** Lines 125-132 (and 135-142): [in[i] = (ch[i], 0)], the transform, and
    [mag[i] = sqrtf(r*r + i*i)]. *)
Definition fft_magnitudes (tw : nat -> cpx) (ch : list spec_float) : list spec_float :=
  map (fun o => fsqrt (fadd (fmul (cr o) (cr o)) (fmul (ci o) (ci o))))
      (kiss_fft tw (map (fun i => mkCpx (nth i ch fzero) (float_of_int 0)) (seq 0 FFT_SIZE))).

(** What [process_fft_and_save_onefile] leaves: the two channels after
    zero-centering, and the floats written to live_fft.bin, interleaved
    [mag0[0], mag1[0], mag0[1], ...] ([None] when its [fopen] fails). *)
Record FftOut := mkFftOut {
  fft_ch0 : list spec_float;
  fft_ch1 : list spec_float;
  fft_file : option (list spec_float)
}.

Definition process_fft_and_save_onefile (tw : nat -> cpx) (open_ok : bool)
    (ch0 ch1 : list spec_float) : FftOut :=
  let ch0' := zero_center ch0 in
  let ch1' := zero_center ch1 in
  let mag0 := fft_magnitudes tw ch0' in
  let mag1 := fft_magnitudes tw ch1' in
  mkFftOut ch0' ch1'
    (if open_ok
     then Some (flat_map (fun i => [nth i mag0 fzero; nth i mag1 fzero]) (seq 0 FFT_SIZE))
     else None).

(** A [float] that is a number (not infinite, not NaN), in canonical form. *)
Definition float_finite (x : spec_float) : bool :=
  match x with
  | S754_zero _ => true
  | S754_finite _ _ _ => valid_binary prec32 emax32 x
  | _ => false
  end.

Definition sf_finite (x : spec_float) : bool :=
  match x with
  | S754_zero _ | S754_finite _ _ _ => true
  | _ => false
  end.

(** [x == 0] in C: +0 or -0. *)
Definition is_zero (x : spec_float) : bool :=
  match x with
  | S754_zero _ => true
  | _ => false
  end.

(** A complex value both of whose parts are zero. *)
Definition cis_zero (c : cpx) : bool := is_zero (cr c) && is_zero (ci c).

(** The exponent and the significand of the [double] holding [K] times the
    [float] [S754_finite s m e]: a 53-bit significand. *)
Definition dexp (m : positive) (e K : Z) : Z := (Z.log2 (K * Zpos m) + 1 + e - 53)%Z.

Definition dmant (m : positive) (e K : Z) : positive :=
  Z.to_pos (K * Zpos m * 2 ^ (e - dexp m e K))%Z.

(** * Properties *)

(* ------------------------------------------------------------------ *)
(** ** Channel selector *)

Lemma flat_map_seq_length {A} (f : nat -> list A) (L n a : nat) :
  (forall j, length (f j) = L) -> length (flat_map f (seq a n)) = n * L.
Proof.
  intros Hf. revert a. induction n as [|n IH]; intros a; [reflexivity|].
  cbn [seq flat_map]. rewrite length_app, Hf, IH. lia.
Qed.

Lemma flat_map_seq_nth {A} (f : nat -> list A) (L n a i k : nat) (d : A) :
  (forall j, length (f j) = L) -> i < n -> k < L ->
  nth (i * L + k) (flat_map f (seq a n)) d = nth k (f (a + i)) d.
Proof.
  intros Hf. revert a i. induction n as [|n IH]; intros a i Hi Hk; [lia|].
  cbn [seq flat_map]. destruct i as [|i].
  - rewrite app_nth1 by (rewrite Hf; lia). now rewrite Nat.add_0_r.
  - rewrite app_nth2 by (rewrite Hf; lia). rewrite Hf.
    replace (S i * L + k - L) with (i * L + k) by lia.
    rewrite IH by lia. f_equal. f_equal. lia.
Qed.

Lemma nth_map_lt {A B} (f : A -> B) (l : list A) (k : nat) (d : B) (a : A) :
  k < length l -> nth k (map f l) d = f (nth k l a).
Proof.
  revert k. induction l as [|x l IH]; intros k Hk; [simpl in Hk; lia|].
  destruct k; [reflexivity|]. simpl in *. apply IH. lia.
Qed.

Lemma extract_scan_length (c : Config) (src : list Z) (i : nat) :
  length (extract_scan c src i) = SELECTED_COUNT c.
Proof. unfold extract_scan, SELECTED_COUNT. now rewrite length_map. Qed.

Lemma extract_length (c : Config) (src : list Z) :
  length (extract_selected_channels c src) = BUFFER_SAMPLES c * SELECTED_COUNT c.
Proof. apply flat_map_seq_length, extract_scan_length. Qed.

(** C1: for a half-buffer of [BUFFER_SAMPLES] scans of [TOTAL_HW_CHANNELS]
    samples and a selection of channels below [TOTAL_HW_CHANNELS], the
    extraction has [BUFFER_SAMPLES * |SELECTED_IDX|] samples, and the slot
    for scan [i] and selection entry [k] holds
    [src[i * TOTAL_HW_CHANNELS + SELECTED_IDX[k]]]; selection [{1,3}] over
    4 channels and 2 scans maps [10,20,30,40,11,21,31,41] to [20,40,21,41]. *)
Theorem extract_selected_channels_correct (c : Config) (src : list Z)
    (Hsrc : length src = BUFFER_SAMPLES c * TOTAL_HW_CHANNELS c)
    (Hsel : Forall (fun ch => ch < TOTAL_HW_CHANNELS c) (SELECTED_IDX c)) :
  length (extract_selected_channels c src) = BUFFER_SAMPLES c * SELECTED_COUNT c /\
  (forall i k, i < BUFFER_SAMPLES c -> k < SELECTED_COUNT c ->
     nth (i * SELECTED_COUNT c + k) (extract_selected_channels c src) 0%Z =
     nth (i * TOTAL_HW_CHANNELS c + nth k (SELECTED_IDX c) 0) src 0%Z) /\
  extract_selected_channels (mkConfig 2 4 [1; 3]) [10; 20; 30; 40; 11; 21; 31; 41]%Z
    = [20; 40; 21; 41]%Z.
Proof.
  split; [apply extract_length|split; [|reflexivity]].
  intros i k Hi Hk. unfold extract_selected_channels.
  rewrite (flat_map_seq_nth _ (SELECTED_COUNT c)) by (auto using extract_scan_length).
  unfold extract_scan. cbn [Nat.add].
  exact (nth_map_lt (fun ch => nth (i * TOTAL_HW_CHANNELS c + ch) src 0%Z) _ k 0%Z 0 Hk).
Qed.

Lemma extract_selected_channels_correct_witness :
  length [10; 20; 30; 40; 11; 21; 31; 41]%Z =
    BUFFER_SAMPLES (mkConfig 2 4 [1; 3]) * TOTAL_HW_CHANNELS (mkConfig 2 4 [1; 3]) /\
  Forall (fun ch => ch < TOTAL_HW_CHANNELS (mkConfig 2 4 [1; 3])) (SELECTED_IDX (mkConfig 2 4 [1; 3])) /\
  length (extract_selected_channels (mkConfig 2 4 [1; 3]) [10; 20; 30; 40; 11; 21; 31; 41]%Z) = 4.
Proof.
  assert (Hl : length [10; 20; 30; 40; 11; 21; 31; 41]%Z =
    BUFFER_SAMPLES (mkConfig 2 4 [1; 3]) * TOTAL_HW_CHANNELS (mkConfig 2 4 [1; 3]))
    by reflexivity.
  assert (Hs : Forall (fun ch => ch < TOTAL_HW_CHANNELS (mkConfig 2 4 [1; 3]))
                 (SELECTED_IDX (mkConfig 2 4 [1; 3]))) by (repeat constructor; simpl; lia).
  split; [exact Hl|split; [exact Hs|]].
  destruct (extract_selected_channels_correct (mkConfig 2 4 [1; 3]) _ Hl Hs) as [H _].
  exact H.
Defined.

(* ------------------------------------------------------------------ *)
(** ** Drain loop *)

Lemma bytes_of_u16s_length (ws : list Z) : length (bytes_of_u16s ws) = 2 * length ws.
Proof.
  induction ws as [|w ws IH]; [reflexivity|].
  unfold bytes_of_u16s in *. cbn [flat_map]. rewrite length_app, IH. simpl. lia.
Qed.

Lemma extract_bytes_length (c : Config) (B : list Z) :
  length (extract_bytes c B) = sel_chunk_bytes c.
Proof.
  unfold extract_bytes, sel_chunk_bytes.
  rewrite bytes_of_u16s_length, extract_length. lia.
Qed.

Lemma upd_same {A} (f : nat -> option A) k v : upd f k v k = v.
Proof. unfold upd. now rewrite Nat.eqb_refl. Qed.

Lemma upd_other {A} (f : nat -> option A) k k' v : k' <> k -> upd f k v k' = f k'.
Proof. intros H. unfold upd. now rewrite (proj2 (Nat.eqb_neq k' k) H). Qed.

Lemma overwrite_end (acc d : list Z) :
  overwrite (acc ++ repeat 0%Z (length d)) (length acc) d = acc ++ d.
Proof.
  unfold overwrite.
  rewrite firstn_app, Nat.sub_diag, firstn_all. cbn [firstn]. rewrite app_nil_r.
  rewrite skipn_all2 by (rewrite length_app, repeat_length; lia).
  now rewrite app_nil_r.
Qed.

Lemma resize_grow (acc : list Z) (n : nat) :
  resize (length acc + n) acc = acc ++ repeat 0%Z n.
Proof.
  unfold resize. rewrite firstn_all2 by lia. f_equal. f_equal. lia.
Qed.

Lemma heap_do_fs m op : heap (do_fs m op) = heap m.
Proof. reflexivity. Qed.

Lemma drain_half_ok (c : Config) (p : Poll) (m : Mem) (l : Loop) (acc : list Z) :
  realloc_ok p = true -> acq_holds m l acc ->
  let '(m', l') := drain_half c p m l in
  acq_holds m' l' (acc ++ extract_bytes c (half_at (current_buffer_idx l) p)) /\
  current_buffer_idx l' = 1 - current_buffer_idx l /\
  g_fStop l' = g_fStop l /\ exit_now l' = exit_now l /\ f_out_live l' = f_out_live l.
Proof.
  intros Hok [Hsz Hq]. unfold drain_half, half_at.
  set (B := if current_buffer_idx l =? 0 then ai_buf p else ai_buf2 p).
  fold (extract_bytes c B).
  pose proof (extract_bytes_length c B) as HL.
  rewrite firstn_all2 by lia.
  unfold heap_realloc. rewrite Hok. cbn [negb].
  assert (Hmc : forall h q off d, blocks (heap_memcpy h q off d) q =
            Some (overwrite (block_contents h q) off d))
    by (intros; unfold heap_memcpy; cbn [blocks]; apply upd_same).
  destruct (current_acq_buffer l) as [q|] eqn:Hb.
  - cbn -[live_filepath_tmp extract_bytes sel_chunk_bytes resize upd block_contents overwrite].
    split; [|repeat split; reflexivity].
    split; [cbn [current_acq_size]; rewrite length_app; lia|].
    cbn [current_acq_buffer].
    destruct (f_out_live l); cbn [do_fs set_heap heap]; rewrite Hmc;
      unfold block_contents; cbn [blocks]; rewrite upd_same, Hq, Hsz, <- HL, resize_grow, overwrite_end; reflexivity.
  - subst acc. cbn -[live_filepath_tmp extract_bytes sel_chunk_bytes resize upd block_contents overwrite].
    split; [|repeat split; reflexivity].
    split; [cbn [current_acq_size]; rewrite Hsz, HL; reflexivity|].
    cbn [current_acq_buffer].
    destruct (f_out_live l); cbn [do_fs set_heap heap]; rewrite Hmc;
      unfold block_contents; cbn [blocks hnext]; rewrite upd_same, Hsz; cbn [length Nat.add];
      rewrite <- HL;
      exact (f_equal Some (overwrite_end [] (extract_bytes c B))).
Qed.

Lemma drain_delivers (c : Config) (idx : nat) (ps : list Poll) (Bs : list (list Z)) :
  delivers idx ps Bs ->
  forall m l acc, g_fStop l = false -> exit_now l = false ->
  current_buffer_idx l = idx -> acq_holds m l acc ->
  exists m' l', drain c ps m l = Some (m', l') /\
    acq_holds m' l' (acc ++ concat (map (extract_bytes c) Bs)) /\
    exit_now l' = false.
Proof.
  induction 1 as [idx p ps Bs Hr Hs He Hd IH|idx p ps Bs Hr Hs He Ho Hd IH
                 |idx p ps Hr Hs He|idx p ps Hr Hs He Ho];
    intros m l acc Hf Hx Hi Hh; cbn [drain]; rewrite Hf; unfold drain_iter;
    rewrite Hr.
  - rewrite He. cbn [map concat]. 
    apply IH; [exact Hs|exact Hx|exact Hi|exact Hh].
  - set (l0 := mkLoop (current_acq_buffer l) (current_acq_size l) (current_buffer_idx l)
                 (fStop_drv p) (exit_now l) (f_out_live l)).
    pose proof (drain_half_ok c p m l0 acc Ho Hh) as Hdh.
    destruct (drain_half c p m l0) as [m1 l1].
    destruct Hdh as (Hh1 & Hi1 & Hf1 & Hx1 & _).
    rewrite He.
    destruct (IH m1 l1 (acc ++ extract_bytes c (half_at idx p)))
      as (m' & l' & Hd' & Hh' & Hx').
    + rewrite Hf1. exact Hs.
    + rewrite Hx1. exact Hx.
    + rewrite Hi1. cbn [current_buffer_idx l0]. now rewrite Hi.
    + cbn [current_buffer_idx l0] in Hh1. rewrite Hi in Hh1. exact Hh1.
    + exists m', l'. split; [exact Hd'|split; [|exact Hx']].
      cbn [map concat]. rewrite app_assoc. exact Hh'.
  - rewrite He.
    exists m, (mkLoop (current_acq_buffer l) (current_acq_size l) (current_buffer_idx l)
                 (fStop_drv p) (exit_now l) (f_out_live l)).
    split; [destruct ps; cbn [drain g_fStop]; rewrite Hs; reflexivity|].
    cbn [map concat]. rewrite app_nil_r. split; [exact Hh|exact Hx].
  - set (l0 := mkLoop (current_acq_buffer l) (current_acq_size l) (current_buffer_idx l)
                 (fStop_drv p) (exit_now l) (f_out_live l)).
    pose proof (drain_half_ok c p m l0 acc Ho Hh) as Hdh.
    destruct (drain_half c p m l0) as [m1 l1].
    destruct Hdh as (Hh1 & Hi1 & Hf1 & Hx1 & _).
    rewrite He. exists m1, l1.
    split; [destruct ps; cbn [drain]; rewrite Hf1; cbn [g_fStop l0]; rewrite Hs; reflexivity|].
    cbn [map concat]. rewrite app_nil_r.
    cbn [current_buffer_idx l0] in Hh1. rewrite Hi in Hh1.
    split; [exact Hh1|rewrite Hx1; exact Hx].
Qed.

(** C2: when the driver hands over the half-buffers [B0, B1, ...] in order
    during one event, with no allocation failure and no cancellation, the
    drain loop ends and the event buffer holds exactly
    [extract(B0) ++ extract(B1) ++ ...] as bytes, in arrival order. *)
Theorem drain_event_buffer_is_concat (c : Config) (ps : list Poll)
    (Bs : list (list Z)) (m : Mem) (live : bool)
    (Htrace : delivers 0 ps Bs) :
  exists m' l, drain c ps m (mkLoop None 0 0 false false live) = Some (m', l) /\
    event_bytes m' l = concat (map (extract_bytes c) Bs) /\
    current_acq_size l = length (concat (map (extract_bytes c) Bs)).
Proof.
  destruct (drain_delivers c 0 ps Bs Htrace m (mkLoop None 0 0 false false live) []
              eq_refl eq_refl eq_refl (conj eq_refl eq_refl))
    as (m' & l & Hd & [Hsz Hq] & _).
  exists m', l. split; [exact Hd|split; [|exact Hsz]].
  unfold event_bytes. destruct (current_acq_buffer l) as [q|].
  - unfold block_contents. now rewrite Hq.
  - symmetry. exact Hq.
Qed.

Lemma drain_event_buffer_is_concat_witness :
  delivers 0 [mkPoll true false [1; 2; 3; 4]%Z [] true false;
              mkPoll true true [] [5; 6; 7; 8]%Z true false]
             [[1; 2; 3; 4]%Z; [5; 6; 7; 8]%Z] /\
  exists m' l,
    drain cadget_cfg [mkPoll true false [1; 2; 3; 4]%Z [] true false;
                      mkPoll true true [] [5; 6; 7; 8]%Z true false]
          (init_mem (fun _ => None)) (mkLoop None 0 0 false false true) = Some (m', l) /\
    event_bytes m' l =
      concat (map (extract_bytes cadget_cfg) [[1; 2; 3; 4]%Z; [5; 6; 7; 8]%Z]).
Proof.
  assert (H : delivers 0 [mkPoll true false [1; 2; 3; 4]%Z [] true false;
                          mkPoll true true [] [5; 6; 7; 8]%Z true false]
                         [[1; 2; 3; 4]%Z; [5; 6; 7; 8]%Z]).
  { apply (dl_ready 0 (mkPoll true false [1; 2; 3; 4]%Z [] true false) _ [[5; 6; 7; 8]%Z]);
      try reflexivity.
    apply (dl_stop_ready 1 (mkPoll true true [] [5; 6; 7; 8]%Z true false) []);
      reflexivity. }
  split; [exact H|].
  destruct (drain_event_buffer_is_concat cadget_cfg _ _ (init_mem (fun _ => None)) true H)
    as (m' & l & Hd & Hb & _).
  exists m', l. split; [exact Hd|exact Hb].
Defined.

(* ------------------------------------------------------------------ *)
(** ** Batch flush *)

(** C4: when [fopen] of the log file fails, [save_batch_to_file] makes a
    single open attempt, prints the diagnostic and returns: the heap (no
    event buffer freed), [g_data_buffer], [g_buffered_count] and the files
    are unchanged; in [main] the event cycle still ends with the drain
    loop's own [exit_now], so acquisition goes on. *)
Theorem flush_open_failure_keeps_batch (t : Tm) (m : Mem)
    (Hn : 0 < g_buffered_count m) :
  let p := log_filepath t (g_buffered_count m) in
  let m' := save_batch_to_file t false m in
  heap m' = heap m /\
  g_data_buffer m' = g_data_buffer m /\
  g_buffered_count m' = g_buffered_count m /\
  out_of_bounds m' = out_of_bounds m /\
  fs m' = fs m /\
  ftrace m' = ftrace m ++ [FOpenFail p] /\
  console m' = console m ++ [msg_flush_open_fail p] /\
  (forall c env m0 m2 l,
     hw_ok env = true -> esc_armed env = false -> sel_work_ok env = true ->
     flush_open_ok env = false ->
     drain c (polls env) (do_fs m0 (if live_open_ok env then FOpen live_filepath_tmp
                                    else FOpenFail live_filepath_tmp))
           (mkLoop None 0 0 false false (live_open_ok env)) = Some (m2, l) ->
     exists m3, event_cycle c env m0 = Cycled m3 (exit_now l)).
Proof.
  cbn zeta. unfold save_batch_to_file, save_batch_gen.
  destruct (g_buffered_count m =? 0) eqn:E; [apply Nat.eqb_eq in E; lia|].
  cbn [negb]. repeat split; try reflexivity.
  intros c env m0 m2 l Hhw Hesc Hsel Hfl Hd.
  unfold event_cycle. rewrite Hhw, Hesc, Hsel. cbn [negb].
  rewrite Hd. eexists. reflexivity.
Qed.

Lemma flush_open_failure_keeps_batch_witness :
  0 < g_buffered_count (set_count (init_mem (fun _ => None)) 1) /\
  g_buffered_count (save_batch_to_file (mkTm 126 9 18 12 0 0) false
                      (set_count (init_mem (fun _ => None)) 1)) = 1.
Proof.
  assert (H : 0 < g_buffered_count (set_count (init_mem (fun _ => None)) 1))
    by (cbn; lia).
  split; [exact H|].
  destruct (flush_open_failure_keeps_batch (mkTm 126 9 18 12 0 0) _ H)
    as (_ & _ & Hc & _).
  exact Hc.
Defined.

(** *** Decimal conversions *)

Lemma dec_digits_range (fuel : nat) (n : Z) :
  (0 <= n)%Z -> Forall (fun d => 0 <= d < 10)%Z (dec_digits fuel n).
Proof.
  revert n. induction fuel as [|f IH]; intros n Hn; cbn [dec_digits]; [constructor|].
  destruct (Z.ltb_spec n 10).
  - repeat constructor; lia.
  - apply Forall_app. split.
    + apply IH. apply Z.div_pos; lia.
    + repeat constructor; [apply Z.mod_pos_bound; lia|apply Z.mod_pos_bound; lia].
Qed.

Lemma dec_digits_length (fuel : nat) (n : Z) : length (dec_digits fuel n) <= fuel.
Proof.
  revert n. induction fuel as [|f IH]; intros n; cbn [dec_digits]; [cbn; lia|].
  destruct (Z.ltb n 10); [cbn; lia|]. rewrite length_app. cbn [length].
  specialize (IH (n / 10)%Z). lia.
Qed.

Lemma dec_digits_nonempty (f : nat) (n : Z) : dec_digits (S f) n <> [].
Proof.
  cbn [dec_digits]. destruct (Z.ltb n 10); [discriminate|].
  intros H. apply app_eq_nil in H. destruct H as [_ H]. discriminate.
Qed.

Lemma dec_digits_value (fuel : nat) (n : Z) :
  (0 <= n < 10 ^ Z.of_nat fuel)%Z -> digits_value (dec_digits fuel n) 0 = n.
Proof.
  revert n. induction fuel as [|f IH]; intros n Hn.
  - cbn in Hn. cbn. lia.
  - cbn [dec_digits]. destruct (Z.ltb_spec n 10); [reflexivity|].
    unfold digits_value in *. rewrite fold_left_app. cbn [fold_left].
    rewrite IH.
    + pose proof (Z.div_mod n 10). lia.
    + split; [apply Z.div_pos; lia|].
      apply Z.div_lt_upper_bound; [lia|].
      rewrite Nat2Z.inj_succ, Z.pow_succ_r in Hn by lia. lia.
Qed.

Lemma parse_digits_chars (acc : Z) (ds : list Z) :
  Forall (fun d => 0 <= d < 10)%Z ds ->
  parse_digits acc (digit_chars ds) = Some (digits_value ds acc).
Proof.
  revert acc. induction ds as [|d ds IH]; intros acc H; [reflexivity|].
  inversion H as [|? ? Hd Hds]; subst.
  cbn [digit_chars map parse_digits].
  replace (andb (Z.leb 48 (48 + d)) (Z.leb (48 + d) 57)) with true
    by (symmetry; apply andb_true_intro; split; apply Z.leb_le; lia).
  replace (48 + d - 48)%Z with d by lia.
  apply IH. exact Hds.
Qed.

Lemma parse_uint_fmt_d (n : Z) :
  (0 <= n < 2147483648)%Z -> parse_uint (fmt_d n) = Some n.
Proof.
  intros Hn. unfold fmt_d, fmt_sign, fmt_abs.
  destruct (Z.ltb_spec n 0); [lia|]. cbn [app].
  rewrite Z.abs_eq by lia.
  pose proof (dec_digits_nonempty 9 n) as Hne.
  unfold parse_uint, INT_DIGITS.
  pose proof (dec_digits_range 10 n ltac:(lia)) as Hr.
  pose proof (dec_digits_value 10 n ltac:(cbn; lia)) as Hv.
  destruct (dec_digits 10 n) as [|d ds] eqn:Ed; [contradiction|].
  pose proof (parse_digits_chars 0 (d :: ds) Hr) as Hp.
  cbn [digit_chars map] in Hp |- *. rewrite Hp, Hv. reflexivity.
Qed.

(** *** Header layout *)

Lemma has_no_nl_app (a b : list Z) :
  has_no_nl (a ++ b) = has_no_nl a && has_no_nl b.
Proof. apply forallb_app. Qed.

Lemma digit_chars_no_nl (ds : list Z) :
  Forall (fun d => 0 <= d < 10)%Z ds -> has_no_nl (digit_chars ds) = true.
Proof.
  induction 1 as [|d ds Hd _ IH]; [reflexivity|].
  cbn [digit_chars map has_no_nl forallb]. fold (digit_chars ds).
  unfold has_no_nl in IH. rewrite IH, andb_true_r.
  apply negb_true_iff, Z.eqb_neq. lia.
Qed.

Lemma fmt_abs_no_nl (n : Z) : has_no_nl (fmt_abs n) = true.
Proof. apply digit_chars_no_nl, dec_digits_range, Z.abs_nonneg. Qed.

Lemma fmt_sign_no_nl (n : Z) : has_no_nl (fmt_sign n) = true.
Proof. unfold fmt_sign. destruct (Z.ltb n 0); reflexivity. Qed.

Lemma repeat_no_nl (k : nat) : has_no_nl (repeat 48%Z k) = true.
Proof. induction k as [|k IH]; [reflexivity|]. exact IH. Qed.

Lemma fmt_0d_no_nl (w : nat) (n : Z) : has_no_nl (fmt_0d w n) = true.
Proof.
  unfold fmt_0d. rewrite !has_no_nl_app, fmt_sign_no_nl, repeat_no_nl, fmt_abs_no_nl.
  reflexivity.
Qed.

Lemma fmt_d_no_nl (n : Z) : has_no_nl (fmt_d n) = true.
Proof. unfold fmt_d. now rewrite has_no_nl_app, fmt_sign_no_nl, fmt_abs_no_nl. Qed.

Lemma fmt_abs_length (n : Z) : length (fmt_abs n) <= 10.
Proof. unfold fmt_abs, digit_chars. rewrite length_map. apply dec_digits_length. Qed.

Lemma fmt_sign_length (n : Z) : length (fmt_sign n) <= 1.
Proof. unfold fmt_sign. destruct (Z.ltb n 0); cbn; lia. Qed.

Lemma fmt_0d_length (w : nat) (n : Z) : length (fmt_0d w n) <= w + 11.
Proof.
  unfold fmt_0d. rewrite !length_app, repeat_length.
  pose proof (fmt_abs_length n). pose proof (fmt_sign_length n). lia.
Qed.

Lemma fmt_d_length (n : Z) : length (fmt_d n) <= 11.
Proof.
  unfold fmt_d. rewrite length_app.
  pose proof (fmt_abs_length n). pose proof (fmt_sign_length n). lia.
Qed.

Lemma format_header_lines (t : Tm) (n : nat) :
  format_header t n = concat (map (fun x => x ++ nl) (header_lines t n)) ++ nl.
Proof.
  unfold format_header, header_lines. cbn [map concat].
  rewrite app_nil_r. repeat rewrite <- app_assoc. reflexivity.
Qed.

Lemma take_line_app (x r : list Z) :
  has_no_nl x = true -> take_line (x ++ nl ++ r) = Some (x, r).
Proof.
  induction x as [|a x IH]; intros H; [reflexivity|].
  cbn [has_no_nl forallb] in H. apply andb_prop in H. destruct H as [Ha Hx].
  apply negb_true_iff in Ha.
  cbn [app take_line]. rewrite Ha. rewrite (IH Hx). reflexivity.
Qed.

Lemma read_header_lines (lines : list (list Z)) (rest : list Z) (fuel : nat) :
  Forall (fun x => x <> [] /\ has_no_nl x = true) lines -> length lines < fuel ->
  read_header fuel (concat (map (fun x => x ++ nl) lines) ++ nl ++ rest) = Some (lines, rest).
Proof.
  revert fuel. induction lines as [|x lines IH]; intros fuel Hl Hf;
    (destruct fuel as [|f]; [cbn in Hf; lia|]).
  - reflexivity.
  - inversion Hl as [|? ? [Hne Hnl] Hls]; subst.
    cbn [map concat read_header]. rewrite <- !app_assoc, take_line_app by exact Hnl.
    destruct x as [|a x]; [contradiction|].
    rewrite IH by (auto; cbn in Hf; lia). reflexivity.
Qed.

Lemma concat_lines_length (lines : list (list Z)) :
  length lines <= length (concat (map (fun x => x ++ nl) lines)).
Proof.
  induction lines as [|x lines IH]; [cbn; lia|].
  cbn [map concat]. rewrite !length_app. cbn [length nl]. lia.
Qed.

Lemma strip_prefix_app (k r : list Z) : strip_prefix k (k ++ r) = Some r.
Proof.
  induction k as [|x k IH]; [reflexivity|].
  cbn [app strip_prefix]. now rewrite Z.eqb_refl.
Qed.

Lemma split_payloads_concat (ps : list (list Z)) :
  split_payloads (map (@length Z) ps) (concat ps) = ps.
Proof.
  induction ps as [|p ps IH]; [reflexivity|].
  cbn [map concat split_payloads].
  rewrite firstn_app, Nat.sub_diag, firstn_all. cbn [firstn]. rewrite app_nil_r.
  rewrite skipn_app, Nat.sub_diag, skipn_all. cbn [skipn app]. now rewrite IH.
Qed.

Lemma format_header_length (t : Tm) (n : nat) : length (format_header t n) <= 511.
Proof.
  unfold format_header, date_line.
  repeat rewrite length_app.
  pose proof (fmt_0d_length 4 (tm_year t + 1900)).
  pose proof (fmt_0d_length 2 (tm_mon t + 1)).
  pose proof (fmt_0d_length 2 (tm_mday t)).
  pose proof (fmt_0d_length 2 (tm_hour t)).
  pose proof (fmt_0d_length 2 (tm_min t)).
  pose proof (fmt_0d_length 2 (tm_sec t)).
  pose proof (fmt_d_length (Z.of_nat n)).
  cbn -[fmt_0d fmt_d]. lia.
Qed.

(** Reading back the file the flush writes. *)
Lemma read_batch_log_header (t : Tm) (n : nat) (ps : list (list Z)) :
  (Z.of_nat n < 2147483648)%Z ->
  read_batch_log (map (@length Z) ps) (format_header t n ++ concat ps) =
    Some (Z.of_nat n, ps).
Proof.
  intros Hn. unfold read_batch_log.
  rewrite format_header_lines, <- app_assoc, read_header_lines.
  - assert (H1 : forall r, strip_prefix (s2b "BATCH_EVENT_COUNT:") (s2b "TEST_DATE:" ++ r)
                          = None) by (intros r; reflexivity).
    assert (H2 : strip_prefix (s2b "BATCH_EVENT_COUNT:") (s2b "CODE_VERSION:" ++ s2b CODE_VERSION)
                 = None) by reflexivity.
    assert (H3 : strip_prefix (s2b "BATCH_EVENT_COUNT:") (s2b "AUTHOR:" ++ s2b AUTHOR_NAME)
                 = None) by reflexivity.
    unfold header_lines. cbn [header_field]. unfold date_line.
    rewrite H1, H2, H3, strip_prefix_app, parse_uint_fmt_d by lia.
    now rewrite split_payloads_concat.
  - unfold header_lines.
    repeat constructor; try discriminate;
      repeat rewrite has_no_nl_app; try rewrite fmt_d_no_nl;
      unfold date_line; repeat rewrite has_no_nl_app; repeat rewrite fmt_0d_no_nl;
      reflexivity.
  - rewrite length_app.
    pose proof (concat_lines_length (header_lines t n)). cbn [length nl app] in *. lia.
Qed.

(** *** The flush loop *)

Lemma path_eqb_true (a b : path) : path_eqb a b = true <-> a = b.
Proof. unfold path_eqb. destruct (list_eq_dec Z.eq_dec a b); split; congruence. Qed.

Lemma path_eqb_refl (a : path) : path_eqb a a = true.
Proof. now apply path_eqb_true. Qed.

Lemma fs_upd_same (f : FS) (p : path) v : fs_upd f p v p = v.
Proof. unfold fs_upd. now rewrite path_eqb_refl. Qed.

Lemma fs_upd_other (f : FS) (p q : path) v : path_eqb q p = false -> fs_upd f p v q = f q.
Proof. unfold fs_upd. intros H. now rewrite H. Qed.

Lemma list_set_length {A} (l : list A) (k : nat) (x : A) : length (list_set l k x) = length l.
Proof.
  revert k. induction l as [|y l IH]; intros [|k]; cbn; auto.
Qed.

Lemma nth_list_set {A} (l : list A) (k i : nat) (x d : A) :
  k < length l -> nth i (list_set l k x) d = if Nat.eqb i k then x else nth i l d.
Proof.
  revert k i. induction l as [|y l IH]; intros k i Hk; [cbn in Hk; lia|].
  destruct k as [|k], i as [|i]; cbn; try reflexivity.
  apply IH. cbn in Hk. lia.
Qed.

Lemma firstn_S_nth {A} (l : list A) (k : nat) (d : A) :
  k < length l -> firstn (S k) l = firstn k l ++ [nth k l d].
Proof.
  revert k. induction l as [|y l IH]; intros k Hk; [cbn in Hk; lia|].
  destruct k as [|k]; [reflexivity|].
  change (firstn (S (S k)) (y :: l)) with (y :: firstn (S k) l).
  change (firstn (S k) (y :: l)) with (y :: firstn k l). cbn [nth].
  rewrite (IH k) by (cbn in Hk; lia). reflexivity.
Qed.

Lemma save_loop_inv (p : path) (m1 : Mem) (N : nat) (ptrs : list nat)
    (payloads : list (list Z)) (H : list Z) :
  fs m1 p = Some H -> N <= length (g_data_buffer m1) ->
  length ptrs = N -> length payloads = N -> NoDup ptrs ->
  (forall i, i < N -> read_slot m1 i = mkAD (Some (nth i ptrs 0)) (length (nth i payloads []))) ->
  (forall i, i < N -> blocks (heap m1) (nth i ptrs 0) = Some (nth i payloads [])) ->
  forall k, k <= N ->
  let mk := fold_left (save_entry p) (seq 0 k) m1 in
  fs mk p = Some (H ++ concat (firstn k payloads)) /\
  (forall q, path_eqb q p = false -> fs mk q = fs m1 q) /\
  (forall i, i < N -> blocks (heap mk) (nth i ptrs 0) =
                      if i <? k then None else Some (nth i payloads [])) /\
  (forall i, i < N -> read_slot mk i = if i <? k then empty_slot else read_slot m1 i) /\
  length (g_data_buffer mk) = length (g_data_buffer m1) /\
  g_buffered_count mk = g_buffered_count m1.
Proof.
  intros Hf HN Hlp Hlq Hnd Hs Hh k. induction k as [|k IH]; intros Hk mk.
  - subst mk. cbn [seq fold_left firstn concat]. rewrite app_nil_r.
    split; [exact Hf|]. split; [reflexivity|].
    split; [intros i Hi; destruct (Nat.ltb_spec i 0); [lia|]; now apply Hh|].
    split; [intros i Hi; destruct (Nat.ltb_spec i 0); [lia|reflexivity]|].
    split; reflexivity.
  - destruct IH as (Ifs & Ifo & Ihp & Isl & Iln & Icn); [lia|].
    subst mk. rewrite seq_S, fold_left_app. cbn [fold_left Nat.add].
    set (mk := fold_left (save_entry p) (seq 0 k) m1) in *.
    unfold save_entry. rewrite (Isl k) by lia.
    destruct (Nat.ltb_spec k k); [lia|]. rewrite (Hs k) by lia.
    cbn [data size]. unfold block_contents at 1. rewrite (Ihp k) by lia.
    destruct (Nat.ltb_spec k k); [lia|].
    rewrite firstn_all.
    unfold write_slot. cbn [g_data_buffer heap set_heap do_fs].
    rewrite Iln. destruct (Nat.ltb_spec k (length (g_data_buffer m1))); [|lia].
    unfold set_heap, do_fs. cbn [fs heap g_data_buffer g_buffered_count blocks heap_free].
    repeat split.
    + cbn [fs_apply]. rewrite fs_upd_same, Ifs, (firstn_S_nth _ _ []) by lia.
      rewrite concat_app, <- app_assoc. cbn [concat]. rewrite app_nil_r. reflexivity.
    + intros q Hq. cbn [fs_apply]. rewrite fs_upd_other by exact Hq. now apply Ifo.
    + intros i Hi. destruct (Nat.eq_dec i k) as [->|Hne].
      * rewrite upd_same. destruct (Nat.ltb_spec k (S k)); [reflexivity|lia].
      * rewrite upd_other.
        -- rewrite (Ihp i Hi).
           destruct (Nat.ltb_spec i k), (Nat.ltb_spec i (S k)); try reflexivity; lia.
        -- intros Heq. apply Hne.
           apply (proj1 (NoDup_nth ptrs 0) Hnd); [lia|lia|exact Heq].
    + intros i Hi. unfold read_slot. cbn [g_data_buffer].
      rewrite nth_list_set by lia.
      destruct (Nat.eqb_spec i k) as [->|Hne].
      * destruct (Nat.ltb_spec k (S k)); [reflexivity|lia].
      * fold (read_slot mk i). rewrite (Isl i Hi).
        destruct (Nat.ltb_spec i k), (Nat.ltb_spec i (S k)); try reflexivity; lia.
    + now rewrite list_set_length.
    + exact Icn.
Qed.

Lemma snprintf_header (t : Tm) (n : nat) :
  snprintf_trunc HEADER_SIZE (format_header t n) = format_header t n.
Proof.
  unfold snprintf_trunc, HEADER_SIZE. apply firstn_all2.
  pose proof (format_header_length t n). lia.
Qed.

(** C5: a successful flush of a batch of [N > 0] events, whose slots
    [i < N] hold distinct heap blocks with the payloads [payloads], leaves
    at [log_filepath] exactly the header followed by the payloads back to
    back in slot order; reading that file back gives the count [N] and,
    split by the known sizes, the payloads; no other file changes; every
    event buffer is freed, every slot emptied and the count reset to 0. *)
Theorem flush_log_roundtrip (t : Tm) (m : Mem) (ptrs : list nat)
    (payloads : list (list Z))
    (Hpos : 0 < g_buffered_count m)
    (Hint : (Z.of_nat (g_buffered_count m) < 2147483648)%Z)
    (Hcap : g_buffered_count m <= length (g_data_buffer m))
    (Hlp : length ptrs = g_buffered_count m)
    (Hlq : length payloads = g_buffered_count m)
    (Hnd : NoDup ptrs)
    (Hs : forall i, i < g_buffered_count m ->
          read_slot m i = mkAD (Some (nth i ptrs 0)) (length (nth i payloads [])))
    (Hh : forall i, i < g_buffered_count m ->
          blocks (heap m) (nth i ptrs 0) = Some (nth i payloads [])) :
  let N := g_buffered_count m in
  let p := log_filepath t N in
  let m' := save_batch_to_file t true m in
  fs m' p = Some (format_header t N ++ concat payloads) /\
  read_batch_log (map (@length Z) payloads) (format_header t N ++ concat payloads)
    = Some (Z.of_nat N, payloads) /\
  (forall q, path_eqb q p = false -> fs m' q = fs m q) /\
  (forall i, i < N -> blocks (heap m') (nth i ptrs 0) = None /\ read_slot m' i = empty_slot) /\
  g_buffered_count m' = 0.
Proof.
  cbn zeta. unfold save_batch_to_file, save_batch_gen.
  destruct (Nat.eqb_spec (g_buffered_count m) 0) as [E|_]; [lia|]. cbn [negb].
  rewrite snprintf_header.
  set (N := g_buffered_count m) in *.
  set (p := log_filepath t N).
  set (m1 := do_fs (do_fs m (FOpen p)) (FWrite p (format_header t N))).
  assert (Hf1 : fs m1 p = Some (format_header t N)).
  { subst m1. unfold do_fs. cbn [fs fs_apply]. rewrite !fs_upd_same. reflexivity. }
  assert (Ho1 : forall q, path_eqb q p = false -> fs m1 q = fs m q).
  { intros q Hq. subst m1. unfold do_fs. cbn [fs fs_apply].
    rewrite !fs_upd_other by exact Hq. reflexivity. }
  destruct (save_loop_inv p m1 N ptrs payloads (format_header t N) Hf1 Hcap Hlp Hlq Hnd
              Hs Hh N (le_n N)) as (Ifs & Ifo & Ihp & Isl & _).
  set (m2 := fold_left (save_entry p) (seq 0 N) m1) in *.
  unfold set_count, say, do_fs. cbn [fs heap g_data_buffer g_buffered_count fs_apply].
  split; [|split; [|split; [|split]]].
  - rewrite Ifs, firstn_all2 by lia. reflexivity.
  - apply read_batch_log_header. exact Hint.
  - intros q Hq. rewrite (Ifo q Hq). apply Ho1, Hq.
  - intros i Hi. split.
    + rewrite (Ihp i Hi). destruct (Nat.ltb_spec i N); [reflexivity|lia].
    + unfold read_slot. cbn [g_data_buffer]. fold (read_slot m2 i).
      rewrite (Isl i Hi). destruct (Nat.ltb_spec i N); [reflexivity|lia].
  - reflexivity.
Qed.

(** The witness fixture: one event of two bytes in block 0. *)
Lemma flush_log_roundtrip_witness :
  let t := mkTm 126 9 18 12 0 0 in
  let m := set_heap (write_slot (write_slot (write_slot (set_count (init_mem (fun _ => None)) 3)
                       0 (mkAD (Some 0) 2)) 1 (mkAD (Some 1) 4)) 2 (mkAD (Some 2) 1))
                    (mkHeap (upd (upd (upd (fun _ => None) 0 (Some [7%Z; 9%Z]))
                                      1 (Some [1%Z; 2%Z; 3%Z; 4%Z])) 2 (Some [5%Z])) 3) in
  fs (save_batch_to_file t true m) (log_filepath t 3)
    = Some (format_header t 3 ++ [7%Z; 9%Z] ++ [1%Z; 2%Z; 3%Z; 4%Z] ++ [5%Z]) /\
  read_batch_log [2; 4; 1] (format_header t 3 ++ [7%Z; 9%Z] ++ [1%Z; 2%Z; 3%Z; 4%Z] ++ [5%Z])
    = Some (3%Z, [[7%Z; 9%Z]; [1%Z; 2%Z; 3%Z; 4%Z]; [5%Z]]) /\
  g_buffered_count (save_batch_to_file t true m) = 0.
Proof.
  intros t m.
  destruct (flush_log_roundtrip t m [0; 1; 2] [[7%Z; 9%Z]; [1%Z; 2%Z; 3%Z; 4%Z]; [5%Z]])
    as (Hf & Hr & _ & _ & Hc).
  - vm_compute. lia.
  - vm_compute. reflexivity.
  - apply Nat.leb_le. vm_compute. reflexivity.
  - reflexivity.
  - reflexivity.
  - repeat constructor; cbn; intuition discriminate.
  - intros i Hi. destruct i as [|[|[|i]]]; [reflexivity|reflexivity|reflexivity|vm_compute in Hi; lia].
  - intros i Hi. destruct i as [|[|[|i]]]; [reflexivity|reflexivity|reflexivity|vm_compute in Hi; lia].
  - split; [exact Hf|split; [exact Hr|exact Hc]].
Defined.

(** *** Allocation failure in the drain loop *)

Lemma drain_stopped (c : Config) (ps : list Poll) (m : Mem) (l : Loop) :
  g_fStop l = true -> drain c ps m l = Some (m, l).
Proof. intros H. destruct ps; cbn [drain]; rewrite H; reflexivity. Qed.

Lemma drain_half_heap (c : Config) (p : Poll) (m : Mem) (l : Loop) :
  realloc_ok p = true ->
  let '(m', l') := drain_half c p m l in
  exists q, current_acq_buffer l' = Some q /\
    (current_acq_buffer l = Some q \/ (current_acq_buffer l = None /\ q = hnext (heap m))) /\
    (forall a, a <> q -> blocks (heap m') a = blocks (heap m) a) /\
    g_fStop l' = g_fStop l /\ exit_now l' = exit_now l /\
    g_buffered_count m' = g_buffered_count m /\ g_data_buffer m' = g_data_buffer m /\
    out_of_bounds m' = out_of_bounds m.
Proof.
  intros Hok. unfold drain_half, heap_realloc. rewrite Hok. cbn [negb].
  destruct (current_acq_buffer l) as [q0|] eqn:Hb.
  - exists q0. cbn [current_acq_buffer g_fStop exit_now].
    split; [reflexivity|split; [left; reflexivity|split]].
    + intros a Ha. destruct (f_out_live l); cbn [do_fs set_heap heap heap_memcpy blocks];
        rewrite !upd_other by exact Ha; reflexivity.
    + destruct (f_out_live l); repeat split.
  - exists (hnext (heap m)). cbn [current_acq_buffer g_fStop exit_now].
    split; [reflexivity|split; [right; split; reflexivity|split]].
    + intros a Ha. destruct (f_out_live l); cbn [do_fs set_heap heap heap_memcpy blocks];
        rewrite !upd_other by exact Ha; reflexivity.
    + destruct (f_out_live l); repeat split.
Qed.

Lemma drain_pre (c : Config) (h0 : Heap) (rest : list Poll) (pre : list Poll) :
  Forall (fun p => fStop_drv p = false /\ esc p = false /\ realloc_ok p = true) pre ->
  blocks h0 (hnext h0) = None ->
  forall m l, g_fStop l = false -> exit_now l = false ->
  (match current_acq_buffer l with
   | None => (forall a, blocks (heap m) a = blocks h0 a) /\ hnext (heap m) = hnext h0
   | Some q => blocks h0 q = None /\ (forall a, a <> q -> blocks (heap m) a = blocks h0 a)
   end) ->
  exists m' l', drain c (pre ++ rest) m l = drain c rest m' l' /\
    g_fStop l' = false /\ exit_now l' = false /\
    g_buffered_count m' = g_buffered_count m /\ g_data_buffer m' = g_data_buffer m /\
    out_of_bounds m' = out_of_bounds m /\
    (match current_acq_buffer l' with
     | None => (forall a, blocks (heap m') a = blocks h0 a) /\ hnext (heap m') = hnext h0
     | Some q => blocks h0 q = None /\ (forall a, a <> q -> blocks (heap m') a = blocks h0 a)
     end).
Proof.
  intros Hpre Hfresh. induction Hpre as [|p pre [Hs [He Ho]] _ IH];
    intros m l Hf Hx Hinv.
  - exists m, l. cbn [app]. auto 7.
  - cbn [app drain]. rewrite Hf. unfold drain_iter. rewrite He.
    set (l0 := mkLoop (current_acq_buffer l) (current_acq_size l) (current_buffer_idx l)
                 (fStop_drv p) (exit_now l) (f_out_live l)).
    destruct (halfReady p).
    + pose proof (drain_half_heap c p m l0 Ho) as Hdh.
      destruct (drain_half c p m l0) as [m1 l1].
      destruct Hdh as (q & Hq & Hor & Hbl & Hf1 & Hx1 & Hc1 & Hs1 & Ho1).
      cbn [current_acq_buffer g_fStop exit_now l0] in Hor, Hf1, Hx1.
      destruct (IH m1 l1) as (m' & l' & Hd & Hf' & Hx' & Hc' & Hs' & Ho' & Hi').
      * rewrite Hf1. exact Hs.
      * rewrite Hx1. exact Hx.
      * rewrite Hq. destruct Hor as [Hold|[Hold Hnq]]; rewrite Hold in Hinv.
        -- destruct Hinv as [H0 Hoth]. split; [exact H0|].
           intros a Ha. rewrite (Hbl a Ha). exact (Hoth a Ha).
        -- destruct Hinv as [Hall Hnx]. split; [rewrite Hnq, Hnx; exact Hfresh|].
           intros a Ha. rewrite (Hbl a Ha). exact (Hall a).
      * exists m', l'. rewrite <- Hc1, <- Hs1, <- Ho1. auto 8.
    + apply IH; [exact Hs|exact Hx|exact Hinv].
Qed.

Lemma drain_fail (c : Config) (pf : Poll) (post : list Poll) (h0 : Heap) (m : Mem) (l : Loop) :
  halfReady pf = true -> realloc_ok pf = false -> esc pf = false ->
  g_fStop l = false ->
  (match current_acq_buffer l with
   | None => (forall a, blocks (heap m) a = blocks h0 a) /\ hnext (heap m) = hnext h0
   | Some q => blocks h0 q = None /\ (forall a, a <> q -> blocks (heap m) a = blocks h0 a)
   end) ->
  exists m' l', drain c (pf :: post) m l = Some (m', l') /\
    current_acq_buffer l' = None /\ exit_now l' = exit_now l /\
    (forall a, blocks (heap m') a = blocks h0 a) /\
    g_buffered_count m' = g_buffered_count m /\ g_data_buffer m' = g_data_buffer m /\
    out_of_bounds m' = out_of_bounds m.
Proof.
  intros Hr Hok He Hf Hinv. cbn [drain]. rewrite Hf. unfold drain_iter. rewrite Hr, He.
  unfold drain_half, heap_realloc. rewrite Hok. cbn [negb current_acq_buffer].
  rewrite drain_stopped by reflexivity.
  eexists; eexists; split; [reflexivity|].
  cbn [current_acq_buffer exit_now set_heap heap g_buffered_count g_data_buffer out_of_bounds].
  split; [reflexivity|split; [reflexivity|split; [|repeat split]]].
  intros a. destruct (current_acq_buffer l) as [q|].
  - destruct Hinv as [H0 Hoth]. cbn [heap_free blocks]. unfold upd.
    destruct (Nat.eqb_spec a q) as [->|Ha]; [symmetry; exact H0|exact (Hoth a Ha)].
  - destruct Hinv as [Hall _]. exact (Hall a).
Qed.

(** C6: in an event whose drain loop grows the event buffer successfully
    for a number of half-buffers and then fails to [realloc] on the next
    one, the partial buffer is freed (the heap is back to what it was
    before the event), the event is not stored (count and slots
    unchanged), the cycle ends with [exit_now = 0] and [main] goes on with
    the next trigger cycle. *)
Theorem realloc_failure_discards_event (c : Config) (env : EventEnv) (m : Mem)
    (pre : list Poll) (pf : Poll) (post : list Poll)
    (Hhw : hw_ok env = true) (Harm : esc_armed env = false)
    (Hsel : sel_work_ok env = true) (Hpolls : polls env = pre ++ pf :: post)
    (Hpre : Forall (fun p => fStop_drv p = false /\ esc p = false /\ realloc_ok p = true) pre)
    (Hready : halfReady pf = true) (Hfail : realloc_ok pf = false) (Hesc : esc pf = false)
    (Hfresh : blocks (heap m) (hnext (heap m)) = None) :
  exists m', event_cycle c env m = Cycled m' false /\
    g_buffered_count m' = g_buffered_count m /\
    g_data_buffer m' = g_data_buffer m /\
    out_of_bounds m' = out_of_bounds m /\
    (forall a, blocks (heap m') a = blocks (heap m) a) /\
    (forall es, main_loop c (env :: es) m = main_loop c es m').
Proof.
  set (m1 := do_fs m (if live_open_ok env then FOpen live_filepath_tmp
                      else FOpenFail live_filepath_tmp)).
  destruct (drain_pre c (heap m) (pf :: post) pre Hpre Hfresh m1
              (mkLoop None 0 0 false false (live_open_ok env)) eq_refl eq_refl
              (conj (fun a => eq_refl) eq_refl))
    as (m2 & l2 & Hd2 & Hf2 & Hx2 & Hc2 & Hs2 & Ho2 & Hinv2).
  destruct (drain_fail c pf post (heap m) m2 l2 Hready Hfail Hesc Hf2 Hinv2)
    as (m3 & l3 & Hd3 & Hb3 & Hx3 & Hbl3 & Hc3 & Hs3 & Ho3).
  set (m4 := if f_out_live l3 then close_and_publish (rename_ok env) m3 else m3).
  assert (Hcyc : event_cycle c env m = Cycled m4 false).
  { unfold event_cycle. rewrite Hhw, Harm, Hsel. cbn [negb]. fold m1.
    rewrite Hpolls, Hd2, Hd3. unfold finish_event. rewrite Hb3, Hx3, Hx2. reflexivity. }
  exists m4. split; [exact Hcyc|].
  assert (Hm4 : heap m4 = heap m3 /\ g_buffered_count m4 = g_buffered_count m3 /\
                g_data_buffer m4 = g_data_buffer m3 /\ out_of_bounds m4 = out_of_bounds m3)
    by (subst m4; destruct (f_out_live l3); repeat split).
  destruct Hm4 as (Hh4 & Hc4 & Hs4 & Ho4).
  rewrite Hc4, Hs4, Ho4, Hh4, Hc3, Hs3, Ho3, Hc2, Hs2, Ho2.
  split; [reflexivity|split; [reflexivity|split; [reflexivity|split]]].
  - exact Hbl3.
  - intros es. cbn [main_loop]. rewrite Hcyc. reflexivity.
Qed.

Lemma realloc_failure_discards_event_witness :
  let env := mkEnv true false true true
               [mkPoll true false [] [] true false; mkPoll true false [] [] false false]
               true (mkTm 126 9 18 12 0 0) true in
  exists m', event_cycle cadget_cfg env (init_mem (fun _ => None)) = Cycled m' false /\
    g_buffered_count m' = 0.
Proof.
  intros env.
  destruct (realloc_failure_discards_event cadget_cfg env (init_mem (fun _ => None))
              [mkPoll true false [] [] true false] (mkPoll true false [] [] false false) []
              eq_refl eq_refl eq_refl eq_refl)
    as (m' & Hc & Hn & _).
  - constructor; [split; [reflexivity|split; reflexivity]|constructor].
  - reflexivity.
  - reflexivity.
  - reflexivity.
  - reflexivity.
  - exists m'. split; [exact Hc|exact Hn].
Defined.

(** *** Failure to open the live temporary file *)

Lemma drain_half_keeps_batch (c : Config) (p : Poll) (m : Mem) (l : Loop) :
  let m' := fst (drain_half c p m l) in
  g_buffered_count m' = g_buffered_count m /\ g_data_buffer m' = g_data_buffer m /\
  out_of_bounds m' = out_of_bounds m.
Proof.
  unfold drain_half. destruct (heap_realloc _ _ _ _) as [[h q]|];
    [destruct (f_out_live l)|]; repeat split.
Qed.

Lemma drain_keeps_batch (c : Config) (ps : list Poll) :
  forall m l m' l', drain c ps m l = Some (m', l') ->
  g_buffered_count m' = g_buffered_count m /\ g_data_buffer m' = g_data_buffer m /\
  out_of_bounds m' = out_of_bounds m.
Proof.
  induction ps as [|p ps IH]; intros m l m' l' Hd; cbn [drain] in Hd;
    destruct (g_fStop l); try (injection Hd as <- <-; repeat split); try discriminate.
  unfold drain_iter in Hd.
  set (l0 := mkLoop (current_acq_buffer l) (current_acq_size l) (current_buffer_idx l)
               (fStop_drv p) (exit_now l) (f_out_live l)) in Hd.
  destruct (halfReady p).
  - pose proof (drain_half_keeps_batch c p m l0) as (Hc & Hs & Ho).
    destruct (drain_half c p m l0) as [m1 l1]. cbn [fst] in Hc, Hs, Ho.
    rewrite <- Hc, <- Hs, <- Ho.
    destruct (esc p); exact (IH _ _ _ _ Hd).
  - destruct (esc p); exact (IH _ _ _ _ Hd).
Qed.

(** C7: in src/CodeTriggerExtBaru/ori.c, when [fopen] of the live
    temporary file fails the cycle ends at once ([continue]): no drain
    loop runs and no event is stored, whatever the driver delivers. In
    src/cadgetdata.c the same failure leaves the drain loop running: the
    half-buffers delivered are extracted and, when they make a non-empty
    event, stored in the next slot of the batch. *)
Theorem live_open_failure_skips_event_ori (env : EventEnv) (m : Mem)
    (Hhw : hw_ok env = true) (Harm : esc_armed env = false)
    (Hlive : live_open_ok env = false) :
  event_cycle_ori ori_cfg env m = Cycled (do_fs m (FOpenFail live_filepath_tmp)) false /\
  g_buffered_count (do_fs m (FOpenFail live_filepath_tmp)) = g_buffered_count m /\
  g_data_buffer (do_fs m (FOpenFail live_filepath_tmp)) = g_data_buffer m /\
  heap (do_fs m (FOpenFail live_filepath_tmp)) = heap m /\
  (forall Bs, delivers 0 (polls env) Bs ->
     sel_work_ok env = true ->
     concat (map (extract_bytes cadget_cfg) Bs) <> [] ->
     S (g_buffered_count m) < MAX_EVENT_BATCH ->
     g_buffered_count m < length (g_data_buffer m) ->
     exists m' q, event_cycle cadget_cfg env m = Cycled m' false /\
       g_buffered_count m' = S (g_buffered_count m) /\
       read_slot m' (g_buffered_count m) =
         mkAD (Some q) (length (concat (map (extract_bytes cadget_cfg) Bs))) /\
       blocks (heap m') q = Some (concat (map (extract_bytes cadget_cfg) Bs))).
Proof.
  split; [unfold event_cycle_ori; rewrite Hhw, Harm, Hlive; reflexivity|].
  split; [reflexivity|split; [reflexivity|split; [reflexivity|]]].
  intros Bs Hdl Hsel Hne Hroom Hlen.
  set (acc := concat (map (extract_bytes cadget_cfg) Bs)) in *.
  set (m1 := do_fs m (FOpenFail live_filepath_tmp)).
  destruct (drain_delivers cadget_cfg 0 (polls env) Bs Hdl m1
              (mkLoop None 0 0 false false false) [] eq_refl eq_refl eq_refl
              (conj eq_refl eq_refl))
    as (m2 & l & Hd & [Hsz Hq] & Hx).
  cbn [app] in Hsz, Hq. fold acc in Hsz, Hq.
  destruct (drain_keeps_batch cadget_cfg (polls env) m1 _ m2 l Hd) as (Hc2 & Hs2 & _).
  destruct (current_acq_buffer l) as [q|] eqn:Hb; [|congruence].
  set (m3 := if f_out_live l then close_and_publish (rename_ok env) m2 else m2).
  assert (Hm3 : heap m3 = heap m2 /\ g_buffered_count m3 = g_buffered_count m2 /\
                g_data_buffer m3 = g_data_buffer m2)
    by (subst m3; destruct (f_out_live l); repeat split).
  destruct Hm3 as (Hh3 & Hc3 & Hs3).
  assert (Hsize : 0 < current_acq_size l).
  { rewrite Hsz. destruct acc; [congruence|cbn; lia]. }
  assert (Hcyc : event_cycle cadget_cfg env m =
    Cycled (finish_event save_batch_to_file (flush_tm env) (flush_open_ok env)
              (Some q) (current_acq_size l) m3) false).
  { unfold event_cycle. rewrite Hhw, Harm, Hsel, Hlive. cbn [negb].
    fold m1. rewrite Hd, Hx, Hb. reflexivity. }
  unfold finish_event in Hcyc.
  rewrite (proj2 (Nat.ltb_lt 0 _) Hsize) in Hcyc.
  unfold write_slot in Hcyc.
  rewrite Hc3, Hs3, Hc2, Hs2 in Hcyc.
  change (g_buffered_count m1) with (g_buffered_count m) in Hcyc.
  change (g_data_buffer m1) with (g_data_buffer m) in Hcyc.
  rewrite (proj2 (Nat.ltb_lt _ _) Hlen) in Hcyc.
  cbn [set_count g_buffered_count] in Hcyc.
  rewrite (proj2 (Nat.leb_gt MAX_EVENT_BATCH _) Hroom) in Hcyc.
  eexists; exists q. split; [exact Hcyc|].
  split; [reflexivity|split].
  - unfold read_slot, set_count. cbn [g_data_buffer].
    rewrite nth_list_set by lia. rewrite Nat.eqb_refl, Hsz. reflexivity.
  - unfold set_count. cbn [heap]. rewrite Hh3. exact Hq.
Qed.

Lemma live_open_failure_skips_event_ori_witness :
  let env := mkEnv true false false true [mkPoll true true [] [] true false]
                   true (mkTm 126 9 18 12 0 0) true in
  event_cycle_ori ori_cfg env (init_mem (fun _ => None)) =
    Cycled (do_fs (init_mem (fun _ => None)) (FOpenFail live_filepath_tmp)) false /\
  g_buffered_count (do_fs (init_mem (fun _ => None)) (FOpenFail live_filepath_tmp)) = 0.
Proof.
  intros env.
  destruct (live_open_failure_skips_event_ori env (init_mem (fun _ => None))
              eq_refl eq_refl eq_refl) as (Hc & Hn & _).
  split; [exact Hc|exact Hn].
Defined.

(** *** A flush that cannot open its file at full capacity *)

(** C3: the capacity is exceeded. From the initial state, 1000 completed
    events whose flush at the 1000th cannot open the log file, then one
    more completed event, leave [g_buffered_count] at 1001, more than
    [MAX_EVENT_BATCH], and the write of the 1001st event falls outside
    [g_data_buffer]. *)
Theorem batch_exceeds_capacity_after_failed_flush :
  let t := mkTm 126 9 18 12 0 0 in
  let evs := map (fun i => (i, 2)) (seq 0 (S MAX_EVENT_BATCH)) in
  let m := finish_events t false evs (init_mem (fun _ => None)) in
  g_buffered_count m = S MAX_EVENT_BATCH /\ MAX_EVENT_BATCH < g_buffered_count m /\
  out_of_bounds m = true.
Proof.
  vm_compute. split; [reflexivity|split; [apply Nat.leb_le; reflexivity|reflexivity]].
Qed.

(** C10: the append index is not always below the capacity. In a state
    where a flush at full capacity could not open its file (count 1000,
    the 1000 slots in use), completing one more event writes
    [g_data_buffer[g_buffered_count]] at index 1000, outside the array,
    and the count becomes 1001; the initial state reaches such a state. *)
Theorem append_index_reaches_capacity (t : Tm) (m : Mem) (q sz : nat)
    (Hc : g_buffered_count m = MAX_EVENT_BATCH)
    (Hl : length (g_data_buffer m) = MAX_EVENT_BATCH) (Hsz : 0 < sz) :
  let m' := finish_event save_batch_to_file t false (Some q) sz m in
  ~ (g_buffered_count m < length (g_data_buffer m)) /\
  out_of_bounds m' = true /\ g_buffered_count m' = S MAX_EVENT_BATCH /\
  g_data_buffer m' = g_data_buffer m /\
  (let m0 := finish_events t false (map (fun i => (i, 2)) (seq 0 MAX_EVENT_BATCH))
               (init_mem (fun _ => None)) in
   g_buffered_count m0 = MAX_EVENT_BATCH /\ length (g_data_buffer m0) = MAX_EVENT_BATCH).
Proof.
  cbn zeta. split; [rewrite Hc, Hl; apply Nat.lt_irrefl|].
  unfold finish_event. rewrite (proj2 (Nat.ltb_lt 0 sz) Hsz).
  unfold write_slot. rewrite Hc, Hl, Nat.ltb_irrefl.
  cbn [set_count g_buffered_count out_of_bounds g_data_buffer].
  rewrite (proj2 (Nat.leb_le MAX_EVENT_BATCH (S MAX_EVENT_BATCH)) (Nat.le_succ_diag_r _)).
  unfold save_batch_to_file, save_batch_gen. cbn [g_buffered_count Nat.eqb negb].
  cbn [say do_fs g_buffered_count out_of_bounds g_data_buffer].
  split; [reflexivity|split; [reflexivity|split; [reflexivity|]]].
  vm_compute. split; reflexivity.
Qed.

Lemma append_index_reaches_capacity_witness :
  let m0 := finish_events (mkTm 126 9 18 12 0 0) false
              (map (fun i => (i, 2)) (seq 0 MAX_EVENT_BATCH)) (init_mem (fun _ => None)) in
  out_of_bounds (finish_event save_batch_to_file (mkTm 126 9 18 12 0 0) false
                   (Some MAX_EVENT_BATCH) 2 m0) = true.
Proof.
  intros m0.
  destruct (append_index_reaches_capacity (mkTm 126 9 18 12 0 0) m0 MAX_EVENT_BATCH 2)
    as (_ & Ho & _).
  - vm_compute. reflexivity.
  - vm_compute. reflexivity.
  - lia.
  - exact Ho.
Defined.

(** *** The live snapshot protocol *)

Lemma path_eqb_sym (a b : path) : path_eqb a b = path_eqb b a.
Proof.
  destruct (path_eqb a b) eqn:E1, (path_eqb b a) eqn:E2; try reflexivity.
  - apply path_eqb_true in E1. subst. rewrite path_eqb_refl in E2. discriminate.
  - apply path_eqb_true in E2. subst. rewrite path_eqb_refl in E1. discriminate.
Qed.

Lemma tmp_final_neq : path_eqb live_filepath_tmp live_filepath_final = false.
Proof. vm_compute. reflexivity. Qed.

Lemma final_tmp_neq : path_eqb live_filepath_final live_filepath_tmp = false.
Proof. vm_compute. reflexivity. Qed.

Lemma fs_run_snoc (f : FS) (ops : list FsOp) (o : FsOp) :
  fs_run f (ops ++ [o]) = fs_apply (fs_run f ops) o.
Proof. unfold fs_run. now rewrite fold_left_app. Qed.

Lemma fs_run_app (f : FS) (a b : list FsOp) : fs_run f (a ++ b) = fs_run (fs_run f a) b.
Proof. unfold fs_run. now rewrite fold_left_app. Qed.

Lemma live_run_app (st : LiveState) (a b : list FsOp) :
  live_run st (a ++ b) = match live_run st a with Some s => live_run s b | None => None end.
Proof.
  revert st. induction a as [|o a IH]; intros st; [reflexivity|].
  cbn [app live_run]. destruct (live_step st o); [apply IH|reflexivity].
Qed.

Lemma nth_error_snoc_lt {A} (l : list A) (x : A) (i : nat) :
  i < length l -> nth_error (l ++ [x]) i = nth_error l i.
Proof. intros H. now apply nth_error_app1. Qed.

Lemma nth_error_snoc_last {A} (l : list A) (x : A) : nth_error (l ++ [x]) (length l) = Some x.
Proof. rewrite nth_error_app2, Nat.sub_diag by lia. reflexivity. Qed.

Lemma seg_snoc (j k : nat) (ops : list FsOp) (o : FsOp) :
  k <= length ops -> seg j k (ops ++ [o]) = seg j k ops.
Proof.
  intros H. unfold seg. rewrite skipn_app.
  rewrite firstn_app, length_skipn.
  replace (k - S j - (length ops - S j)) with 0 by lia. rewrite firstn_O, app_nil_r.
  reflexivity.
Qed.

Lemma seg_ok_final (f : FS) (o : FsOp) :
  seg_ok o = true -> fs_apply f o live_filepath_final = f live_filepath_final.
Proof.
  destruct o as [p|p|p d|p|s d|s d]; cbn [seg_ok fs_apply]; intros H; try reflexivity.
  - unfold is_live in H. apply negb_true_iff, orb_false_iff in H. destruct H as [_ H].
    apply fs_upd_other. now rewrite path_eqb_sym.
  - apply negb_true_iff in H. apply fs_upd_other. now rewrite path_eqb_sym.
  - unfold is_live in H. apply negb_true_iff, orb_false_iff in H.
    destruct H as [H1 H2]. apply orb_false_iff in H1, H2.
    destruct (f s); [|reflexivity].
    rewrite fs_upd_other by (rewrite path_eqb_sym; apply H1).
    apply fs_upd_other. rewrite path_eqb_sym; apply H2.
Qed.

Lemma seg_ok_tmp (f : FS) (o : FsOp) (c : list Z) :
  seg_ok o = true -> f live_filepath_tmp = Some c ->
  fs_apply f o live_filepath_tmp = Some (c ++ writes_to live_filepath_tmp [o]).
Proof.
  destruct o as [p|p|p d|p|s d|s d]; cbn [seg_ok fs_apply writes_to flat_map];
    intros H Hc; rewrite ?app_nil_r; try exact Hc.
  - unfold is_live in H. apply negb_true_iff, orb_false_iff in H. destruct H as [H _].
    rewrite fs_upd_other by (rewrite path_eqb_sym; apply H). exact Hc.
  - destruct (path_eqb p live_filepath_tmp) eqn:E.
    + apply path_eqb_true in E. subst p. rewrite fs_upd_same, Hc. reflexivity.
    + rewrite fs_upd_other by (rewrite path_eqb_sym; exact E). rewrite app_nil_r. exact Hc.
  - unfold is_live in H. apply negb_true_iff, orb_false_iff in H.
    destruct H as [H1 H2]. apply orb_false_iff in H1, H2.
    destruct (f s); [|exact Hc].
    rewrite fs_upd_other by (rewrite path_eqb_sym; apply H1).
    rewrite fs_upd_other by (rewrite path_eqb_sym; apply H2). exact Hc.
Qed.

Lemma published_snoc (fs0 : FS) (ops : list FsOp) (o : FsOp) (n n' : nat) v :
  n <= length ops -> n <= n' -> published fs0 ops n v -> published fs0 (ops ++ [o]) n' v.
Proof.
  intros Hn Hn' [H|(j & k & Hjk & Hk & Hj & Hkc & Hkr & Hseg & Hv)]; [left; exact H|right].
  exists j, k. rewrite !nth_error_snoc_lt by lia. rewrite seg_snoc by lia.
  repeat split; try assumption; lia.
Qed.

(** When a call leaves the checker in the same state, and it is not a
    checked call of the live files, it keeps both live files as they are
    up to the bytes it writes to the temporary one. *)
Lemma live_step_same (st st' : LiveState) (o : FsOp) :
  live_step st o = Some st' -> st <> LiveClosed ->
  (forall p, o <> FOpen p \/ path_eqb p live_filepath_tmp = false) ->
  (st = LiveOpen -> forall p, o <> FClose p \/ path_eqb p live_filepath_tmp = false) ->
  st' = st /\ seg_ok o = true.
Proof.
  intros Hs Hnc Hop Hcl.
  destruct st; [ | | congruence];
    destruct o as [p|p|p d|p|s d|s d]; cbn [live_step seg_ok] in *; unfold is_live in *;
    repeat (match type of Hs with
            | context [path_eqb ?a ?b] => destruct (path_eqb a b) eqn:?
            end; cbn [orb andb negb] in *);
    repeat (match goal with
            | |- context [path_eqb ?a ?b] => destruct (path_eqb a b) eqn:?
            end; cbn [orb andb negb] in *);
    try discriminate;
    try (injection Hs as <-; split; reflexivity);
    try (destruct (Hop p) as [H|H]; congruence);
    try (destruct (Hcl eq_refl p) as [H|H]; congruence).
Qed.

Lemma live_step_cases (st : LiveState) (o : FsOp) :
  (exists p, o = FOpen p /\ path_eqb p live_filepath_tmp = true) \/
  (st = LiveOpen /\ exists p, o = FClose p /\ path_eqb p live_filepath_tmp = true) \/
  ((forall p, o <> FOpen p \/ path_eqb p live_filepath_tmp = false) /\
   (st = LiveOpen -> forall p, o <> FClose p \/ path_eqb p live_filepath_tmp = false)).
Proof.
  destruct o as [p|p|p d|p|s d|s d].
  - destruct (path_eqb p live_filepath_tmp) eqn:E; [left; exists p; split; [reflexivity|exact E]|].
    right; right. split.
    + intros p'. destruct (path_eqb p' live_filepath_tmp) eqn:E'; [left|right; reflexivity].
      intros H. injection H as <-. congruence.
    + intros _ p'. left. discriminate.
  - right; right. split; intros; left; discriminate.
  - right; right. split; intros; left; discriminate.
  - destruct st; [| |right; right; split; [intros; left; discriminate|discriminate]].
    + right; right. split; [intros; left; discriminate|discriminate].
    + destruct (path_eqb p live_filepath_tmp) eqn:E.
      * right; left. split; [reflexivity|exists p; split; [reflexivity|exact E]].
      * right; right. split; [intros; left; discriminate|].
        intros _ p'. destruct (path_eqb p' live_filepath_tmp) eqn:E'; [left|right; reflexivity].
        intros H. injection H as <-. congruence.
  - right; right. split; intros; left; discriminate.
  - right; right. split; intros; left; discriminate.
Qed.

Lemma live_inv_step (fs0 : FS) (ops : list FsOp) (st st' : LiveState) (o : FsOp) :
  live_inv fs0 ops st -> live_step st o = Some st' -> live_inv fs0 (ops ++ [o]) st'.
Proof.
  intros [Hpub Hst] Hs. unfold live_inv.
  rewrite length_app, fs_run_snoc. cbn [length]. rewrite Nat.add_1_r.
  destruct st.
  1,2: lazymatch goal with
       | Hs : live_step ?s ?o = _ |- _ =>
           destruct (live_step_cases s o) as [(p & -> & Hp)|[(Ho & p & -> & Hp)|(Hop & Hcl)]];
           [apply path_eqb_true in Hp; subst p|apply path_eqb_true in Hp; subst p|]
       end.
  (* [fopen] of the temporary file *)
  1,4: cbn [live_step] in Hs; rewrite path_eqb_refl in Hs; injection Hs as <-;
    cbn [fs_apply]; rewrite fs_upd_other by exact final_tmp_neq;
    split; [apply (published_snoc _ _ _ (length ops)); [lia|lia|exact Hpub]|];
    exists (length ops); split; [lia|split; [apply nth_error_snoc_last|]];
    rewrite skipn_all2 by (rewrite length_app; cbn; lia);
    split; [reflexivity|rewrite fs_upd_same; reflexivity].
  1: discriminate Ho.
  (* [fclose] of the temporary file *)
  2: cbn [live_step] in Hs; rewrite path_eqb_refl in Hs; injection Hs as <-;
    cbn [fs_apply];
    split; [apply (published_snoc _ _ _ (length ops)); [lia|lia|exact Hpub]|];
    destruct Hst as (j & Hj & Hjo & Hseg & Htmp);
    exists j; rewrite Nat.sub_1_r; cbn [Nat.pred];
    split; [lia|split; [rewrite nth_error_snoc_lt by lia; exact Hjo|]];
    split; [apply nth_error_snoc_last|];
    rewrite seg_snoc by lia; unfold seg;
    rewrite firstn_all2 by (rewrite length_skipn; lia);
    split; [exact Hseg|exact Htmp].
  (* the other calls in the idle and open states *)
  1,2: destruct (live_step_same _ _ _ Hs ltac:(discriminate) Hop Hcl) as [-> Hok];
    rewrite seg_ok_final by exact Hok;
    split; [apply (published_snoc _ _ _ (length ops)); [lia|lia|exact Hpub]|].
  1: exact I.
  1: destruct Hst as (j & Hj & Hjo & Hseg & Htmp);
    exists j; split; [lia|split; [rewrite nth_error_snoc_lt by lia; exact Hjo|]];
    rewrite skipn_app; replace (S j - length ops) with 0 by lia; rewrite skipn_O;
    rewrite forallb_app, Hseg; cbn [forallb]; rewrite Hok;
    split; [reflexivity|];
    rewrite (seg_ok_tmp _ _ _ Hok Htmp); unfold writes_to; rewrite flat_map_app; reflexivity.
  (* the closed state: only the rename may follow *)
  destruct Hst as (j & Hj & Hjo & Hkc & Hseg & Htmp).
  destruct o as [p|p|p d|p|s d|s d]; cbn [live_step] in Hs; try discriminate;
    destruct (path_eqb s live_filepath_tmp) eqn:Es, (path_eqb d live_filepath_final) eqn:Ed;
    cbn [andb] in Hs; try discriminate; injection Hs as <-;
    apply path_eqb_true in Es, Ed; subst s d; (split; [|exact I]).
  - cbn [fs_apply]. rewrite Htmp.
    rewrite fs_upd_other by exact final_tmp_neq. rewrite fs_upd_same.
    right. exists j, (length ops - 1).
    split; [lia|split; [lia|]].
    rewrite !nth_error_snoc_lt by lia. split; [exact Hjo|split; [exact Hkc|]].
    replace (S (length ops - 1)) with (length ops) by lia.
    split; [apply nth_error_snoc_last|].
    rewrite seg_snoc by lia. split; [exact Hseg|reflexivity].
  - cbn [fs_apply]. apply (published_snoc _ _ _ (length ops)); [lia|lia|exact Hpub].
Qed.

Lemma live_run_inv (fs0 : FS) (ops : list FsOp) (st : LiveState) :
  live_run LiveIdle ops = Some st -> live_inv fs0 ops st.
Proof.
  revert st. induction ops as [|o ops IH] using rev_ind; intros st H.
  - injection H as <-. split; [left; reflexivity|exact I].
  - rewrite live_run_app in H. destruct (live_run LiveIdle ops) as [s|] eqn:E; [|discriminate].
    cbn [live_run] in H. destruct (live_step s o) as [s'|] eqn:E'; [|discriminate].
    injection H as <-. exact (live_inv_step fs0 ops s s' o (IH s eq_refl) E').
Qed.

Lemma live_run_prefix (ops : list FsOp) (n : nat) (st : LiveState) :
  live_run st ops <> None -> live_run st (firstn n ops) <> None.
Proof.
  intros H. rewrite <- (firstn_skipn n ops), live_run_app in H.
  destruct (live_run st (firstn n ops)); [discriminate|exact H].
Qed.

Lemma published_firstn (fs0 : FS) (ops : list FsOp) (n : nat) v :
  n <= length ops -> published fs0 (firstn n ops) n v -> published fs0 ops n v.
Proof.
  intros Hn [H|(j & k & Hjk & Hk & Hj & Hkc & Hkr & Hseg & Hv)]; [left; exact H|right].
  assert (Hnth : forall i, i < n -> nth_error (firstn n ops) i = nth_error ops i)
    by (intros i Hi; rewrite nth_error_firstn; destruct (Nat.ltb_spec i n); [reflexivity|lia]).
  assert (Hsg : seg j k (firstn n ops) = seg j k ops).
  { unfold seg. rewrite skipn_firstn_comm, firstn_firstn. f_equal. lia. }
  exists j, k. rewrite Hnth in Hj, Hkc, Hkr by lia. rewrite Hsg in Hseg, Hv.
  repeat split; assumption.
Qed.

(** Every prefix of a trace the checker accepts leaves the visible live
    path with a published content. *)
Lemma live_run_published (fs0 : FS) (ops : list FsOp) (st : LiveState) :
  live_run LiveIdle ops = Some st ->
  forall n, n <= length ops ->
  published fs0 ops n (fs_run fs0 (firstn n ops) live_filepath_final).
Proof.
  intros H n Hn.
  assert (Hp : live_run LiveIdle (firstn n ops) <> None)
    by (apply live_run_prefix; rewrite H; discriminate).
  destruct (live_run LiveIdle (firstn n ops)) as [s|] eqn:E; [|congruence].
  destruct (live_run_inv fs0 _ _ E) as [Hpub _].
  rewrite length_firstn, Nat.min_l in Hpub by exact Hn.
  exact (published_firstn fs0 ops n _ Hn Hpub).
Qed.

(** *** The program's calls follow the live snapshot protocol *)

Lemma live_steps_refl (st : LiveState) (m m' : Mem) :
  ftrace m' = ftrace m -> fs m' = fs m -> live_steps st m m' st.
Proof. intros Ht Hf. exists []. rewrite app_nil_r. split; [exact Ht|split; [exact Hf|reflexivity]]. Qed.

Lemma live_steps_trans (s1 s2 s3 : LiveState) (m1 m2 m3 : Mem) :
  live_steps s1 m1 m2 s2 -> live_steps s2 m2 m3 s3 -> live_steps s1 m1 m3 s3.
Proof.
  intros (o1 & Ht1 & Hf1 & Hr1) (o2 & Ht2 & Hf2 & Hr2). exists (o1 ++ o2).
  split; [rewrite Ht2, Ht1, app_assoc; reflexivity|].
  split; [rewrite Hf2, Hf1, fs_run_app; reflexivity|].
  rewrite live_run_app, Hr1. exact Hr2.
Qed.

Lemma live_steps_do_fs (st st' : LiveState) (m : Mem) (o : FsOp) :
  live_step st o = Some st' -> live_steps st m (do_fs m o) st'.
Proof.
  intros H. exists [o]. split; [reflexivity|split; [reflexivity|]].
  cbn [live_run]. rewrite H. reflexivity.
Qed.

Lemma live_steps_one (st st' : LiveState) (m m' : Mem) (o : FsOp) :
  live_step st o = Some st' -> ftrace m' = ftrace m ++ [o] -> fs m' = fs_apply (fs m) o ->
  live_steps st m m' st'.
Proof.
  intros H Ht Hf. exists [o]. split; [exact Ht|split; [exact Hf|]].
  cbn [live_run]. rewrite H. reflexivity.
Qed.

Lemma log_filepath_not_live (t : Tm) (n : nat) : is_live (log_filepath t n) = false.
Proof.
  assert (H1 : nth 1 (log_filepath t n) 0%Z = 111%Z) by reflexivity.
  assert (H2 : nth 1 live_filepath_tmp 0%Z = 105%Z) by reflexivity.
  assert (H3 : nth 1 live_filepath_final 0%Z = 105%Z) by reflexivity.
  unfold is_live.
  destruct (path_eqb (log_filepath t n) live_filepath_tmp) eqn:E1;
    [apply path_eqb_true in E1; rewrite E1 in H1; congruence|].
  destruct (path_eqb (log_filepath t n) live_filepath_final) eqn:E2;
    [apply path_eqb_true in E2; rewrite E2 in H1; congruence|].
  reflexivity.
Qed.

(** A call on a path that is not a live one leaves the idle checker idle. *)
Lemma live_step_idle_other (o : FsOp) (p : path) :
  is_live p = false ->
  o = FOpen p \/ o = FOpenFail p \/ (exists d, o = FWrite p d) \/ o = FClose p ->
  live_step LiveIdle o = Some LiveIdle.
Proof.
  intros Hp Ho. pose proof Hp as Hp'. unfold is_live in Hp'.
  apply orb_false_iff in Hp'. destruct Hp' as [Ht Hf].
  destruct Ho as [-> | [-> | [(d & ->) | ->]]]; cbn [live_step];
    rewrite ?Ht, ?Hf, ?Hp; reflexivity.
Qed.

Lemma save_entry_live (p : path) (m : Mem) (i : nat) :
  is_live p = false -> live_steps LiveIdle m (save_entry p m i) LiveIdle.
Proof.
  intros Hp. unfold save_entry.
  set (payload := match data (read_slot m i) with
                  | Some q => firstn (size (read_slot m i)) (block_contents (heap m) q)
                  | None => [] end).
  apply (live_steps_trans _ LiveIdle _ _ (do_fs m (FWrite p payload))).
  - apply live_steps_do_fs, (live_step_idle_other _ p Hp). right; right; left; eexists; reflexivity.
  - apply live_steps_refl; unfold write_slot;
      destruct (_ <? _); reflexivity.
Qed.

Lemma save_batch_live (hdr : Tm -> nat -> list Z) (msg : nat -> path -> list Z)
    (t : Tm) (ok : bool) (m : Mem) :
  live_steps LiveIdle m (save_batch_gen hdr msg t ok m) LiveIdle.
Proof.
  unfold save_batch_gen.
  destruct (g_buffered_count m =? 0); [apply live_steps_refl; reflexivity|].
  set (p := log_filepath t (g_buffered_count m)).
  assert (Hp : is_live p = false) by apply log_filepath_not_live.
  destruct ok; cbn [negb].
  - apply (live_steps_trans _ LiveIdle _ _
             (do_fs (do_fs m (FOpen p)) (FWrite p (snprintf_trunc HEADER_SIZE (hdr t (g_buffered_count m)))))).
    { apply (live_steps_trans _ LiveIdle _ _ (do_fs m (FOpen p)));
        apply live_steps_do_fs, (live_step_idle_other _ p Hp); auto.
      right; right; left; eexists; reflexivity. }
    set (m1 := do_fs (do_fs m (FOpen p)) _).
    apply (live_steps_trans _ LiveIdle _ _ (fold_left (save_entry p) (seq 0 (g_buffered_count m)) m1)).
    { generalize m1. induction (seq 0 (g_buffered_count m)) as [|i r IH]; intros m0.
      - apply live_steps_refl; reflexivity.
      - cbn [fold_left]. apply (live_steps_trans _ LiveIdle _ _ (save_entry p m0 i)).
        + apply save_entry_live, Hp.
        + apply IH. }
    apply (live_steps_trans _ LiveIdle _ _
             (do_fs (fold_left (save_entry p) (seq 0 (g_buffered_count m)) m1) (FClose p))).
    + apply live_steps_do_fs, (live_step_idle_other _ p Hp); auto.
    + apply live_steps_refl; reflexivity.
  - apply (live_steps_trans _ LiveIdle _ _ (do_fs m (FOpenFail p))).
    + apply live_steps_do_fs, (live_step_idle_other _ p Hp); auto.
    + apply live_steps_refl; reflexivity.
Qed.

Lemma finish_event_live (save : Tm -> bool -> Mem -> Mem) (t : Tm) (ok : bool)
    (acq : option nat) (n : nat) (m : Mem) :
  (forall m0, live_steps LiveIdle m0 (save t ok m0) LiveIdle) ->
  live_steps LiveIdle m (finish_event save t ok acq n m) LiveIdle.
Proof.
  intros Hsave. unfold finish_event.
  destruct acq as [q|]; [|apply live_steps_refl; reflexivity].
  destruct (0 <? n); [|apply live_steps_refl; reflexivity].
  set (m2 := set_count (write_slot m (g_buffered_count m) (mkAD (Some q) n))
                       (S (g_buffered_count (write_slot m (g_buffered_count m) (mkAD (Some q) n))))).
  assert (H2 : live_steps LiveIdle m m2 LiveIdle).
  { apply live_steps_refl; subst m2; unfold set_count, write_slot;
      destruct (_ <? _); reflexivity. }
  destruct (MAX_EVENT_BATCH <=? g_buffered_count m2); [|exact H2].
  exact (live_steps_trans _ _ _ _ _ _ H2 (Hsave m2)).
Qed.

(** The drain loop writes the temporary file only when it is open. *)
Lemma drain_live (c : Config) (ps : list Poll) :
  forall m l m' l', drain c ps m l = Some (m', l') ->
  f_out_live l' = f_out_live l /\
  (if f_out_live l then live_steps LiveOpen m m' LiveOpen
   else ftrace m' = ftrace m /\ fs m' = fs m).
Proof.
  induction ps as [|p ps IH]; intros m l m' l' Hd; cbn [drain] in Hd.
  - destruct (g_fStop l); [|discriminate]. injection Hd as <- <-.
    split; [reflexivity|]. destruct (f_out_live l); [apply live_steps_refl|split]; reflexivity.
  - destruct (g_fStop l).
    { injection Hd as <- <-. split; [reflexivity|].
      destruct (f_out_live l); [apply live_steps_refl|split]; reflexivity. }
    unfold drain_iter in Hd.
    set (l0 := mkLoop (current_acq_buffer l) (current_acq_size l) (current_buffer_idx l)
                 (fStop_drv p) (exit_now l) (f_out_live l)) in Hd.
    assert (Hh : forall m1 l1, (m1, l1) = (if halfReady p then drain_half c p m l0 else (m, l0)) ->
              f_out_live l1 = f_out_live l /\
              (if f_out_live l then live_steps LiveOpen m m1 LiveOpen
               else ftrace m1 = ftrace m /\ fs m1 = fs m)).
    { intros m1 l1 E. destruct (halfReady p).
      - unfold drain_half in E.
        destruct (heap_realloc _ _ _ _) as [[h q]|]; injection E as -> ->;
          cbn [f_out_live l0]; (split; [reflexivity|]).
        + destruct (f_out_live l).
          * apply (live_steps_one _ _ _ _ (FWrite live_filepath_tmp (firstn (sel_chunk_bytes c)
              (bytes_of_u16s (extract_selected_channels c
                 (if current_buffer_idx l0 =? 0 then ai_buf p else ai_buf2 p))))));
              [cbn [live_step]; rewrite tmp_final_neq| |]; reflexivity.
          * split; reflexivity.
        + destruct (f_out_live l); [apply live_steps_refl|split]; reflexivity.
      - injection E as -> ->. split; [reflexivity|].
        destruct (f_out_live l); [apply live_steps_refl|split]; reflexivity. }
    destruct (if halfReady p then drain_half c p m l0 else (m, l0)) as [m1 l1] eqn:E.
    destruct (Hh m1 l1 eq_refl) as [Hl1 H1].
    set (l2 := if esc p then mkLoop (current_acq_buffer l1) (current_acq_size l1)
                 (current_buffer_idx l1) true true (f_out_live l1) else l1).
    assert (Hl2 : f_out_live l2 = f_out_live l) by (subst l2; destruct (esc p); exact Hl1).
    assert (Hd2 : drain c ps m1 l2 = Some (m', l')) by (subst l2; destruct (esc p); exact Hd).
    destruct (IH m1 l2 m' l' Hd2) as [Hl' H'].
    split; [rewrite Hl', Hl2; reflexivity|].
    rewrite Hl2 in H'. destruct (f_out_live l).
    + exact (live_steps_trans _ _ _ _ _ _ H1 H').
    + destruct H1 as [T1 F1], H' as [T' F']. split; congruence.
Qed.

Lemma event_cycle_live (c : Config) (env : EventEnv) (m : Mem) :
  exists st, live_steps LiveIdle m (outcome_mem (event_cycle c env m)) st /\
    (forall m' e, event_cycle c env m = Cycled m' e -> st = LiveIdle).
Proof.
  unfold event_cycle.
  destruct (hw_ok env); cbn [negb];
    [|exists LiveIdle; split; [apply live_steps_refl; reflexivity|discriminate]].
  destruct (esc_armed env);
    [exists LiveIdle; split; [apply live_steps_refl; reflexivity|reflexivity]|].
  set (live := live_open_ok env).
  set (m1 := do_fs m (if live then FOpen live_filepath_tmp else FOpenFail live_filepath_tmp)).
  set (st1 := if live then LiveOpen else LiveIdle).
  assert (H1 : live_steps LiveIdle m m1 st1).
  { subst m1 st1. apply live_steps_do_fs. destruct live; cbn [live_step];
      rewrite ?path_eqb_refl; reflexivity. }
  destruct (sel_work_ok env); cbn [negb];
    [|exists st1; split; [exact H1|discriminate]].
  destruct (drain c (polls env) m1 (mkLoop None 0 0 false false live)) as [[m2 l]|] eqn:Hd;
    [|exists st1; split; [exact H1|discriminate]].
  exists LiveIdle. split; [|reflexivity].
  destruct (drain_live c _ _ _ _ _ Hd) as [Hl H2]. cbn [f_out_live] in Hl, H2.
  set (m3 := if f_out_live l then close_and_publish (rename_ok env) m2 else m2).
  assert (H3 : live_steps LiveIdle m m3 LiveIdle).
  { subst m3. rewrite Hl. subst st1. destruct live.
    - apply (live_steps_trans _ _ _ _ _ _ H1).
      apply (live_steps_trans _ _ _ _ _ _ H2).
      unfold close_and_publish.
      apply (live_steps_trans _ LiveClosed _ _ (do_fs m2 (FClose live_filepath_tmp))).
      + apply live_steps_do_fs. cbn [live_step]. rewrite path_eqb_refl. reflexivity.
      + apply live_steps_do_fs. destruct (rename_ok env); cbn [live_step];
          rewrite !path_eqb_refl; reflexivity.
    - apply (live_steps_trans _ _ _ _ _ _ H1).
      destruct H2 as [T2 F2]. apply live_steps_refl; assumption. }
  cbn [outcome_mem].
  apply (live_steps_trans _ _ _ _ _ _ H3), finish_event_live.
  intros m0. apply save_batch_live.
Qed.

Lemma main_loop_live (c : Config) (envs : list EventEnv) :
  forall m, exists st, live_steps LiveIdle m (outcome_mem (main_loop c envs m)) st /\
    (forall m' e, main_loop c envs m = Cycled m' e -> st = LiveIdle).
Proof.
  induction envs as [|env es IH]; intros m.
  - exists LiveIdle. split; [apply live_steps_refl; reflexivity|discriminate].
  - cbn [main_loop].
    destruct (event_cycle_live c env m) as (st & Hs & Hc).
    destruct (event_cycle c env m) as [m'|m'|m' [|]|m'] eqn:E;
      try (exists st; split; [exact Hs|intros m0 e0 H0; first [discriminate | exact (Hc _ _ eq_refl)]]).
    rewrite (Hc m' false eq_refl) in Hs. cbn [outcome_mem] in Hs.
    destruct (IH m') as (st' & Hs' & Hc').
    exists st'. split; [exact (live_steps_trans _ _ _ _ _ _ Hs Hs')|exact Hc'].
Qed.

Lemma main_program_live (c : Config) (envs : list EventEnv) (t : Tm) (ok : bool) (m : Mem) :
  exists st, live_steps LiveIdle m (outcome_mem (main_program c envs t ok m)) st.
Proof.
  unfold main_program.
  destruct (main_loop_live c envs m) as (st & Hs & Hc).
  destruct (main_loop c envs m) as [m'|m'|m' e|m'] eqn:E; try (exists st; exact Hs).
  exists LiveIdle. rewrite (Hc m' e eq_refl) in Hs. cbn [outcome_mem] in *.
  destruct (0 <? g_buffered_count m'); [|exact Hs].
  exact (live_steps_trans _ _ _ _ _ _ Hs (save_batch_live _ _ t ok m')).
Qed.

Lemma drain_ori_live (c : Config) (ps : list Poll) :
  forall m l m' l', drain_ori c ps m l = Some (m', l') -> live_steps LiveOpen m m' LiveOpen.
Proof.
  induction ps as [|p ps IH]; intros m l m' l' Hd; cbn [drain_ori] in Hd.
  - destruct (g_fStop l); [|discriminate]. injection Hd as <- <-.
    apply live_steps_refl; reflexivity.
  - destruct (g_fStop l).
    { injection Hd as <- <-. apply live_steps_refl; reflexivity. }
    unfold drain_iter_ori in Hd.
    destruct (halfReady p).
    + destruct (heap_realloc _ _ _ _) as [[h q]|].
      * set (chunk := firstn (chunk_size c) (bytes_of_u16s
                        (if current_buffer_idx l =? 0 then ai_buf p else ai_buf2 p))) in Hd.
        set (m1 := do_fs (set_heap m (heap_memcpy h q (current_acq_size l) chunk))
                         (FWrite live_filepath_tmp chunk)) in Hd.
        assert (H1 : live_steps LiveOpen m m1 LiveOpen).
        { apply (live_steps_one _ _ _ _ (FWrite live_filepath_tmp chunk));
            [cbn [live_step]; rewrite tmp_final_neq| |]; reflexivity. }
        destruct (esc p); exact (live_steps_trans _ _ _ _ _ _ H1 (IH _ _ _ _ Hd)).
      * injection Hd as <- <-. apply live_steps_refl; reflexivity.
    + destruct (esc p); exact (IH _ _ _ _ Hd).
Qed.

Lemma event_cycle_ori_live (c : Config) (env : EventEnv) (m : Mem) :
  exists st, live_steps LiveIdle m (outcome_mem (event_cycle_ori c env m)) st.
Proof.
  unfold event_cycle_ori.
  destruct (hw_ok env); cbn [negb];
    [|exists LiveIdle; apply live_steps_refl; reflexivity].
  destruct (esc_armed env); [exists LiveIdle; apply live_steps_refl; reflexivity|].
  destruct (live_open_ok env); cbn [negb].
  2: exists LiveIdle; apply live_steps_do_fs; reflexivity.
  assert (H1 : live_steps LiveIdle m (do_fs m (FOpen live_filepath_tmp)) LiveOpen)
    by (apply live_steps_do_fs; cbn [live_step]; rewrite path_eqb_refl; reflexivity).
  destruct (drain_ori c (polls env) (do_fs m (FOpen live_filepath_tmp))
              (mkLoop None 0 0 false false true)) as [[m2 l]|] eqn:Hd;
    [|exists LiveOpen; exact H1].
  exists LiveIdle. cbn [outcome_mem].
  apply (live_steps_trans _ _ _ _ _ _ H1).
  apply (live_steps_trans _ _ _ _ _ _ (drain_ori_live c _ _ _ _ _ Hd)).
  apply (live_steps_trans _ LiveIdle _ _ (close_and_publish (rename_ok env) m2)).
  - unfold close_and_publish.
    apply (live_steps_trans _ LiveClosed _ _ (do_fs m2 (FClose live_filepath_tmp))).
    + apply live_steps_do_fs. cbn [live_step]. rewrite path_eqb_refl. reflexivity.
    + apply live_steps_do_fs. destruct (rename_ok env); cbn [live_step];
        rewrite !path_eqb_refl; reflexivity.
  - apply finish_event_live. intros m0. apply save_batch_live.
Qed.

Lemma live_steps_published (m0 m' : Mem) (st : LiveState) :
  ftrace m0 = [] -> live_steps LiveIdle m0 m' st ->
  fs m' = fs_run (fs m0) (ftrace m') /\
  forall n, n <= length (ftrace m') ->
    published (fs m0) (ftrace m') n
      (fs_run (fs m0) (firstn n (ftrace m')) live_filepath_final).
Proof.
  intros H0 (ops & Ht & Hf & Hr). rewrite H0 in Ht. cbn [app] in Ht. rewrite Ht.
  split; [exact Hf|]. exact (live_run_published (fs m0) ops st Hr).
Qed.

(** C8: from a state whose trace of file system calls is empty, the calls
    of [main] of src/cadgetdata.c account for the files, and after every
    prefix of them (every point in time) the visible live path holds its
    initial content or one complete snapshot: the bytes written to the
    temporary file between its [fopen] and its [fclose], renamed onto the
    visible path by the call right after the [fclose]. The same holds for
    a trigger cycle of src/CodeTriggerExtBaru/ori.c. *)
Theorem live_snapshot_atomic (c : Config) (envs : list EventEnv) (t : Tm) (ok : bool)
    (m0 : Mem) (Hf : ftrace m0 = []) :
  (let m' := outcome_mem (main_program c envs t ok m0) in
   fs m' = fs_run (fs m0) (ftrace m') /\
   forall n, n <= length (ftrace m') ->
     published (fs m0) (ftrace m') n
       (fs_run (fs m0) (firstn n (ftrace m')) live_filepath_final)) /\
  (forall env,
   let m' := outcome_mem (event_cycle_ori c env m0) in
   fs m' = fs_run (fs m0) (ftrace m') /\
   forall n, n <= length (ftrace m') ->
     published (fs m0) (ftrace m') n
       (fs_run (fs m0) (firstn n (ftrace m')) live_filepath_final)).
Proof.
  split.
  - destruct (main_program_live c envs t ok m0) as (st & Hs).
    exact (live_steps_published _ _ st Hf Hs).
  - intros env. destruct (event_cycle_ori_live c env m0) as (st & Hs).
    exact (live_steps_published _ _ st Hf Hs).
Qed.

Lemma live_snapshot_atomic_witness :
  let env := mkEnv true false true true [mkPoll true true [1; 2; 3; 4]%Z [] true false]
                   true (mkTm 126 9 18 12 0 0) true in
  ftrace (init_mem (fun _ => None)) = [] /\
  fs (outcome_mem (main_program cadget_cfg [env] (mkTm 126 9 18 12 0 0) true
                     (init_mem (fun _ => None)))) =
  fs_run (fun _ => None) (ftrace (outcome_mem (main_program cadget_cfg [env]
                     (mkTm 126 9 18 12 0 0) true (init_mem (fun _ => None))))).
Proof.
  intros env. split; [reflexivity|].
  destruct (live_snapshot_atomic cadget_cfg [env] (mkTm 126 9 18 12 0 0) true
              (init_mem (fun _ => None)) eq_refl) as [[Hfs _] _].
  exact Hfs.
Defined.

(* ------------------------------------------------------------------ *)
(** ** Further properties of the code *)

Lemma extract_scan_agree (c : Config) (src src' : list Z) (i : nat) :
  (forall ch, In ch (SELECTED_IDX c) ->
     nth (i * TOTAL_HW_CHANNELS c + ch) src 0%Z = nth (i * TOTAL_HW_CHANNELS c + ch) src' 0%Z) ->
  extract_scan c src i = extract_scan c src' i.
Proof. intros H. unfold extract_scan. apply map_ext_in. exact H. Qed.

(** X1: [extract_selected_channels] reads only the samples of the selected
    channels of the first [BUFFER_SAMPLES] scans: two half-buffers that agree
    there give the same extraction. *)
Theorem extract_selected_channels_reads_selected_only (c : Config) (src src' : list Z)
    (Hagree : forall i ch, i < BUFFER_SAMPLES c -> In ch (SELECTED_IDX c) ->
       nth (i * TOTAL_HW_CHANNELS c + ch) src 0%Z =
       nth (i * TOTAL_HW_CHANNELS c + ch) src' 0%Z) :
  extract_selected_channels c src = extract_selected_channels c src'.
Proof.
  unfold extract_selected_channels. rewrite !flat_map_concat_map. f_equal.
  apply map_ext_in. intros i Hi. apply in_seq in Hi.
  apply extract_scan_agree. intros ch Hch. apply Hagree; [lia|exact Hch].
Qed.

(** X2: when the half-buffer has [BUFFER_SAMPLES * TOTAL_HW_CHANNELS] samples
    and every selected index is below [TOTAL_HW_CHANNELS], samples after the
    half-buffer never reach the extraction. *)
Theorem extract_selected_channels_within_half (c : Config) (src junk : list Z)
    (Hsrc : length src = BUFFER_SAMPLES c * TOTAL_HW_CHANNELS c)
    (Hsel : Forall (fun ch => ch < TOTAL_HW_CHANNELS c) (SELECTED_IDX c)) :
  extract_selected_channels c (src ++ junk) = extract_selected_channels c src.
Proof.
  unfold extract_selected_channels. rewrite !flat_map_concat_map. f_equal.
  apply map_ext_in. intros i Hi. apply in_seq in Hi.
  apply extract_scan_agree. intros ch Hch.
  rewrite Forall_forall in Hsel. specialize (Hsel ch Hch).
  apply app_nth1. rewrite Hsrc. nia.
Qed.

Lemma format_header_ori_length (t : Tm) (n : nat) : length (format_header_ori t n) <= 511.
Proof.
  unfold format_header_ori, date_line.
  repeat rewrite length_app.
  pose proof (fmt_0d_length 4 (tm_year t + 1900)).
  pose proof (fmt_0d_length 2 (tm_mon t + 1)).
  pose proof (fmt_0d_length 2 (tm_mday t)).
  pose proof (fmt_0d_length 2 (tm_hour t)).
  pose proof (fmt_0d_length 2 (tm_min t)).
  pose proof (fmt_0d_length 2 (tm_sec t)).
  pose proof (fmt_d_length (Z.of_nat n)).
  cbn -[fmt_0d fmt_d]. lia.
Qed.

(** X3: the headers of both programs fit in [HEADER_SIZE], so their
    [snprintf] never truncates them, whatever the date and the count. *)
Theorem log_header_never_truncated (t : Tm) (n : nat) :
  snprintf_trunc HEADER_SIZE (format_header t n) = format_header t n /\
  snprintf_trunc HEADER_SIZE (format_header_ori t n) = format_header_ori t n.
Proof.
  unfold snprintf_trunc, HEADER_SIZE. split; apply firstn_all2.
  - pose proof (format_header_length t n). lia.
  - pose proof (format_header_ori_length t n). lia.
Qed.

Lemma dec_digits_length_bound (fuel k : nat) (n : Z) :
  (0 <= n < 10 ^ Z.of_nat (S k))%Z -> length (dec_digits fuel n) <= S k.
Proof.
  revert k n. induction fuel as [|f IH]; intros k n Hn; cbn [dec_digits]; [cbn; lia|].
  destruct (Z.ltb_spec n 10); [cbn; lia|].
  rewrite length_app. cbn [length].
  destruct k as [|k]; [cbn in Hn; lia|].
  assert (Hq : (0 <= n / 10 < 10 ^ Z.of_nat (S k))%Z).
  { rewrite Nat2Z.inj_succ, Z.pow_succ_r in Hn by lia. split.
    - apply Z.div_pos; lia.
    - apply Z.div_lt_upper_bound; lia. }
  specialize (IH k _ Hq). lia.
Qed.

Lemma parse_digits_zeros (k : nat) (l : list Z) :
  parse_digits 0 (repeat 48%Z k ++ l) = parse_digits 0 l.
Proof. induction k as [|k IH]; [reflexivity|exact IH]. Qed.

Lemma fmt_0d_fixed (w : nat) (n : Z) :
  1 <= w <= 10 -> (0 <= n < 10 ^ Z.of_nat w)%Z ->
  length (fmt_0d w n) = w /\ parse_digits 0 (fmt_0d w n) = Some n.
Proof.
  intros Hw Hn. unfold fmt_0d, fmt_sign.
  destruct (Z.ltb_spec n 0); [lia|]. cbn [app length].
  unfold fmt_abs. rewrite Z.abs_eq by lia.
  assert (Hlen : length (digit_chars (dec_digits INT_DIGITS n)) <= w).
  { unfold digit_chars. rewrite length_map. destruct w as [|w']; [lia|].
    apply dec_digits_length_bound. exact Hn. }
  split.
  - rewrite length_app, repeat_length. lia.
  - rewrite parse_digits_zeros, parse_digits_chars by (apply dec_digits_range; lia).
    f_equal. apply dec_digits_value. split; [lia|].
    apply (Z.lt_le_trans _ _ _ (proj2 Hn)). unfold INT_DIGITS. apply Z.pow_le_mono_r; lia.
Qed.

Lemma fmt_0d_inj (w : nat) (a b : Z) :
  1 <= w <= 10 -> (0 <= a < 10 ^ Z.of_nat w)%Z -> (0 <= b < 10 ^ Z.of_nat w)%Z ->
  fmt_0d w a = fmt_0d w b -> a = b.
Proof.
  intros Hw Ha Hb E.
  destruct (fmt_0d_fixed w a Hw Ha) as [_ Pa], (fmt_0d_fixed w b Hw Hb) as [_ Pb].
  rewrite E in Pa. congruence.
Qed.

Lemma app_inj_length {A} (a a' b b' : list A) :
  length a = length a' -> a ++ b = a' ++ b' -> a = a' /\ b = b'.
Proof.
  revert a'. induction a as [|x a IH]; intros [|x' a'] Hl E; cbn in Hl; try lia.
  - split; [reflexivity|exact E].
  - injection E as -> E. destruct (IH a') as [-> ->]; [lia|exact E|]. split; reflexivity.
Qed.

(** Peel one fixed-width field off two equal byte strings. *)
Lemma fmt_0d_peel (w : nat) (a b : Z) (r r' : list Z) :
  1 <= w <= 10 -> (0 <= a < 10 ^ Z.of_nat w)%Z -> (0 <= b < 10 ^ Z.of_nat w)%Z ->
  fmt_0d w a ++ r = fmt_0d w b ++ r' -> a = b /\ r = r'.
Proof.
  intros Hw Ha Hb E.
  destruct (app_inj_length _ _ _ _
              (eq_trans (proj1 (fmt_0d_fixed w a Hw Ha)) (eq_sym (proj1 (fmt_0d_fixed w b Hw Hb))))
              E) as [E1 E2].
  split; [exact (fmt_0d_inj w a b Hw Ha Hb E1)|exact E2].
Qed.

(** X4: for dates in the range of [localtime] and counts below 10000, the
    name of a batch log file determines the date and the count: two flushes
    with a different second or count never write the same file. *)
Theorem log_filepath_distinct (t1 t2 : Tm) (n1 n2 : nat)
    (Ht1 : tm_in_range t1) (Ht2 : tm_in_range t2) (Hn1 : (Z.of_nat n1 < 10000)%Z) (Hn2 : (Z.of_nat n2 < 10000)%Z)
    (E : log_filepath t1 n1 = log_filepath t2 n2) :
  t1 = t2 /\ n1 = n2.
Proof.
  destruct Ht1 as (Y1 & M1 & D1 & H1 & I1 & S1), Ht2 as (Y2 & M2 & D2 & H2 & I2 & S2).
  unfold log_filepath in E. apply app_inv_head in E.
  assert (W4 : 1 <= 4 <= 10) by lia. assert (W2 : 1 <= 2 <= 10) by lia.
  change (10 ^ Z.of_nat 4)%Z with 10000%Z in *. change (10 ^ Z.of_nat 2)%Z with 100%Z in *.
  apply fmt_0d_peel in E as [Ey E]; [|lia|cbn; lia|cbn; lia].
  apply fmt_0d_peel in E as [Em E]; [|lia|cbn; lia|cbn; lia].
  apply fmt_0d_peel in E as [Ed E]; [|lia|cbn; lia|cbn; lia].
  apply app_inv_head in E.
  apply fmt_0d_peel in E as [Eh E]; [|lia|cbn; lia|cbn; lia].
  apply fmt_0d_peel in E as [Ei E]; [|lia|cbn; lia|cbn; lia].
  apply fmt_0d_peel in E as [Es E]; [|lia|cbn; lia|cbn; lia].
  apply app_inv_head in E.
  apply fmt_0d_peel in E as [En _]; [|lia|cbn; lia|cbn; lia].
  split; [|lia].
  destruct t1, t2; cbn in *.
  f_equal; lia.
Qed.

Lemma format_header_ori_lines (t : Tm) (n : nat) :
  format_header_ori t n = concat (map (fun x => x ++ nl) (header_lines_ori t n)) ++ nl.
Proof.
  unfold format_header_ori, header_lines_ori. cbn [map concat].
  rewrite app_nil_r. repeat rewrite <- app_assoc. reflexivity.
Qed.

Lemma read_batch_log_header_ori (t : Tm) (n : nat) (ps : list (list Z)) :
  (Z.of_nat n < 2147483648)%Z ->
  read_batch_log (map (@length Z) ps) (format_header_ori t n ++ concat ps) =
    Some (Z.of_nat n, ps).
Proof.
  intros Hn. unfold read_batch_log.
  rewrite format_header_ori_lines, <- app_assoc, read_header_lines.
  - assert (H1 : forall r, strip_prefix (s2b "BATCH_EVENT_COUNT:") (s2b "TEST_DATE:" ++ r)
                          = None) by (intros r; reflexivity).
    assert (H2 : strip_prefix (s2b "BATCH_EVENT_COUNT:") (s2b "CODE_VERSION:" ++ s2b CODE_VERSION)
                 = None) by reflexivity.
    assert (H3 : strip_prefix (s2b "BATCH_EVENT_COUNT:") (s2b "AUTHOR:" ++ s2b AUTHOR_NAME)
                 = None) by reflexivity.
    unfold header_lines_ori. cbn [header_field]. unfold date_line.
    rewrite H1, H2, H3, strip_prefix_app, parse_uint_fmt_d by lia.
    now rewrite split_payloads_concat.
  - unfold header_lines_ori.
    repeat constructor; try discriminate;
      repeat rewrite has_no_nl_app; try rewrite fmt_d_no_nl;
      unfold date_line; repeat rewrite has_no_nl_app; repeat rewrite fmt_0d_no_nl;
      reflexivity.
  - rewrite length_app.
    pose proof (concat_lines_length (header_lines_ori t n)). cbn [length nl app] in *. lia.
Qed.

(** X5: the flush of src/CodeTriggerExtBaru/ori.c writes its four-line header
    followed by the payloads of the batch, which a reader recovers; it frees
    every buffer, clears the slots, resets the count, touches no other
    file and prints its final message. *)
Theorem flush_log_roundtrip_ori (t : Tm) (m : Mem) (ptrs : list nat)
    (payloads : list (list Z))
    (Hpos : 0 < g_buffered_count m)
    (Hint : (Z.of_nat (g_buffered_count m) < 2147483648)%Z)
    (Hcap : g_buffered_count m <= length (g_data_buffer m))
    (Hlp : length ptrs = g_buffered_count m)
    (Hlq : length payloads = g_buffered_count m)
    (Hnd : NoDup ptrs)
    (Hs : forall i, i < g_buffered_count m ->
          read_slot m i = mkAD (Some (nth i ptrs 0)) (length (nth i payloads [])))
    (Hh : forall i, i < g_buffered_count m ->
          blocks (heap m) (nth i ptrs 0) = Some (nth i payloads [])) :
  let N := g_buffered_count m in
  let p := log_filepath t N in
  let m' := save_batch_to_file_ori t true m in
  fs m' p = Some (format_header_ori t N ++ concat payloads) /\
  read_batch_log (map (@length Z) payloads) (format_header_ori t N ++ concat payloads)
    = Some (Z.of_nat N, payloads) /\
  (forall q, path_eqb q p = false -> fs m' q = fs m q) /\
  (forall i, i < N -> blocks (heap m') (nth i ptrs 0) = None /\ read_slot m' i = empty_slot) /\
  g_buffered_count m' = 0 /\
  console m' = console m ++ [msg_flush_done_ori N p].
Proof.
  cbn zeta. unfold save_batch_to_file_ori, save_batch_gen.
  destruct (Nat.eqb_spec (g_buffered_count m) 0) as [E|_]; [lia|]. cbn [negb].
  assert (Htr : snprintf_trunc HEADER_SIZE (format_header_ori t (g_buffered_count m)) =
                format_header_ori t (g_buffered_count m)).
  { unfold snprintf_trunc, HEADER_SIZE. apply firstn_all2.
    pose proof (format_header_ori_length t (g_buffered_count m)). lia. }
  rewrite Htr.
  set (N := g_buffered_count m) in *.
  set (p := log_filepath t N).
  set (m1 := do_fs (do_fs m (FOpen p)) (FWrite p (format_header_ori t N))).
  assert (Hf1 : fs m1 p = Some (format_header_ori t N)).
  { subst m1. unfold do_fs. cbn [fs fs_apply]. rewrite !fs_upd_same. reflexivity. }
  assert (Ho1 : forall q, path_eqb q p = false -> fs m1 q = fs m q).
  { intros q Hq. subst m1. unfold do_fs. cbn [fs fs_apply].
    rewrite !fs_upd_other by exact Hq. reflexivity. }
  destruct (save_loop_inv p m1 N ptrs payloads (format_header_ori t N) Hf1 Hcap Hlp Hlq Hnd
              Hs Hh N (le_n N)) as (Ifs & Ifo & Ihp & Isl & _).
  assert (Hcons : console (fold_left (save_entry p) (seq 0 N) m1) = console m).
  { assert (G : forall k m0, console (fold_left (save_entry p) (seq 0 k) m0) = console m0).
    { induction k as [|k IH]; intros m0; [reflexivity|].
      rewrite seq_S, fold_left_app. cbn [fold_left Nat.add].
      unfold save_entry, write_slot. destruct (_ <? _); cbn [console]; apply IH. }
    rewrite G. reflexivity. }
  set (m2 := fold_left (save_entry p) (seq 0 N) m1) in *.
  unfold set_count, say, do_fs. cbn [fs heap g_data_buffer g_buffered_count fs_apply console].
  split; [|split; [|split; [|split; [|split]]]].
  - rewrite Ifs, firstn_all2 by lia. reflexivity.
  - apply read_batch_log_header_ori. exact Hint.
  - intros q Hq. rewrite (Ifo q Hq). apply Ho1, Hq.
  - intros i Hi. split.
    + rewrite (Ihp i Hi). destruct (Nat.ltb_spec i N); [reflexivity|lia].
    + unfold read_slot. cbn [g_data_buffer]. fold (read_slot m2 i).
      rewrite (Isl i Hi). destruct (Nat.ltb_spec i N); [reflexivity|lia].
  - reflexivity.
  - rewrite Hcons. reflexivity.
Qed.

(** *** The batch buffer when every flush succeeds *)

Lemma save_entry_shape (p : path) (m : Mem) (i : nat) :
  i < length (g_data_buffer m) ->
  length (g_data_buffer (save_entry p m i)) = length (g_data_buffer m) /\
  out_of_bounds (save_entry p m i) = out_of_bounds m /\
  g_buffered_count (save_entry p m i) = g_buffered_count m.
Proof.
  intros Hi. unfold save_entry, write_slot. cbn [g_data_buffer set_heap do_fs].
  rewrite (proj2 (Nat.ltb_lt _ _) Hi). cbn [g_data_buffer out_of_bounds g_buffered_count].
  rewrite list_set_length. repeat split.
Qed.

Lemma save_fold_shape (p : path) (k : nat) (m : Mem) :
  k <= length (g_data_buffer m) ->
  let m' := fold_left (save_entry p) (seq 0 k) m in
  length (g_data_buffer m') = length (g_data_buffer m) /\
  out_of_bounds m' = out_of_bounds m /\ g_buffered_count m' = g_buffered_count m.
Proof.
  induction k as [|k IH]; intros Hk; [repeat split|].
  cbn zeta. rewrite seq_S, fold_left_app. cbn [fold_left Nat.add].
  destruct IH as (H1 & H2 & H3); [lia|].
  destruct (save_entry_shape p (fold_left (save_entry p) (seq 0 k) m) k) as (E1 & E2 & E3);
    [lia|].
  rewrite E1, E2, E3. auto.
Qed.

Lemma save_batch_gen_success (hdr : Tm -> nat -> list Z) (msg : nat -> path -> list Z)
    (t : Tm) (m : Mem) :
  g_buffered_count m <= length (g_data_buffer m) ->
  let m' := save_batch_gen hdr msg t true m in
  g_buffered_count m' = 0 /\ length (g_data_buffer m') = length (g_data_buffer m) /\
  out_of_bounds m' = out_of_bounds m.
Proof.
  intros Hn. unfold save_batch_gen.
  destruct (Nat.eqb_spec (g_buffered_count m) 0) as [E|_]; [rewrite E; auto|].
  cbn [negb].
  set (p := log_filepath t (g_buffered_count m)).
  set (m1 := do_fs (do_fs m (FOpen p))
                   (FWrite p (snprintf_trunc HEADER_SIZE (hdr t (g_buffered_count m))))).
  destruct (save_fold_shape p (g_buffered_count m) m1) as (E1 & E2 & _); [exact Hn|].
  cbn [set_count say do_fs g_buffered_count g_data_buffer out_of_bounds].
  rewrite E1, E2. auto.
Qed.

Lemma finish_event_within_capacity (hdr : Tm -> nat -> list Z) (msg : nat -> path -> list Z)
    (t : Tm) (acq : option nat) (n : nat) (m : Mem) :
  g_buffered_count m < MAX_EVENT_BATCH -> length (g_data_buffer m) = MAX_EVENT_BATCH ->
  out_of_bounds m = false ->
  let m' := finish_event (save_batch_gen hdr msg) t true acq n m in
  g_buffered_count m' < MAX_EVENT_BATCH /\ length (g_data_buffer m') = MAX_EVENT_BATCH /\
  out_of_bounds m' = false.
Proof.
  intros Hc Hl Hb. unfold finish_event.
  destruct acq as [q|]; [|auto]. destruct (0 <? n); [|auto].
  set (m2 := set_count (write_slot m (g_buffered_count m) (mkAD (Some q) n))
               (S (g_buffered_count (write_slot m (g_buffered_count m) (mkAD (Some q) n))))).
  assert (Hm2 : g_buffered_count m2 = S (g_buffered_count m) /\
                length (g_data_buffer m2) = MAX_EVENT_BATCH /\ out_of_bounds m2 = false).
  { subst m2. unfold write_slot. rewrite Hl, (proj2 (Nat.ltb_lt _ _) Hc).
    cbn [set_count g_buffered_count g_data_buffer out_of_bounds].
    rewrite list_set_length. auto. }
  clearbody m2. destruct Hm2 as (F1 & F2 & F3).
  destruct (Nat.leb_spec MAX_EVENT_BATCH (g_buffered_count m2)).
  - destruct (save_batch_gen_success hdr msg t m2) as (E1 & E2 & E3); [lia|].
    rewrite E1, E2, E3. split; [unfold MAX_EVENT_BATCH; lia|auto].
  - rewrite F1 in *. auto.
Qed.

Lemma close_and_publish_batch (ok : bool) (m : Mem) :
  g_buffered_count (close_and_publish ok m) = g_buffered_count m /\
  g_data_buffer (close_and_publish ok m) = g_data_buffer m /\
  out_of_bounds (close_and_publish ok m) = out_of_bounds m.
Proof. repeat split. Qed.

Lemma event_cycle_within_capacity (c : Config) (env : EventEnv) (m : Mem) :
  flush_open_ok env = true ->
  g_buffered_count m < MAX_EVENT_BATCH -> length (g_data_buffer m) = MAX_EVENT_BATCH ->
  out_of_bounds m = false ->
  let m' := outcome_mem (event_cycle c env m) in
  g_buffered_count m' < MAX_EVENT_BATCH /\ length (g_data_buffer m') = MAX_EVENT_BATCH /\
  out_of_bounds m' = false.
Proof.
  intros Hok Hc Hl Hb. unfold event_cycle.
  destruct (hw_ok env); cbn [negb]; [|auto].
  destruct (esc_armed env); [auto|].
  set (m1 := do_fs m _).
  destruct (sel_work_ok env); cbn [negb]; [|auto].
  destruct (drain c (polls env) m1 _) as [[m2 l]|] eqn:Hd; [|auto].
  destruct (drain_keeps_batch c _ _ _ _ _ Hd) as (E1 & E2 & E3).
  cbn [outcome_mem]. rewrite Hok. unfold save_batch_to_file.
  set (m3 := if f_out_live l then close_and_publish (rename_ok env) m2 else m2).
  assert (H3 : g_buffered_count m3 = g_buffered_count m /\
               g_data_buffer m3 = g_data_buffer m /\ out_of_bounds m3 = out_of_bounds m).
  { subst m3. destruct (f_out_live l);
      cbn [close_and_publish do_fs g_buffered_count g_data_buffer out_of_bounds];
      rewrite E1, E2, E3; subst m1; repeat split. }
  destruct H3 as (F1 & F2 & F3).
  apply finish_event_within_capacity; [rewrite F1|rewrite F2|rewrite F3]; assumption.
Qed.

Lemma main_loop_within_capacity (c : Config) (envs : list EventEnv) :
  Forall (fun e => flush_open_ok e = true) envs ->
  forall m, g_buffered_count m < MAX_EVENT_BATCH -> length (g_data_buffer m) = MAX_EVENT_BATCH ->
  out_of_bounds m = false ->
  let m' := outcome_mem (main_loop c envs m) in
  g_buffered_count m' < MAX_EVENT_BATCH /\ length (g_data_buffer m') = MAX_EVENT_BATCH /\
  out_of_bounds m' = false.
Proof.
  intros Hall. induction Hall as [|e es He _ IH]; intros m Hc Hl Hb; [auto|].
  cbn [main_loop].
  pose proof (event_cycle_within_capacity c e m He Hc Hl Hb) as Hcyc.
  destruct (event_cycle c e m) as [m'|m'|m' [|]|m']; try exact Hcyc.
  destruct Hcyc as (H1 & H2 & H3). exact (IH m' H1 H2 H3).
Qed.

Lemma event_cycle_not_finished (c : Config) (env : EventEnv) (m mf : Mem) :
  event_cycle c env m <> Finished mf.
Proof.
  unfold event_cycle.
  destruct (hw_ok env), (esc_armed env), (sel_work_ok env); cbn [negb]; try discriminate.
  destruct (drain _ _ _ _) as [[m2 l]|]; discriminate.
Qed.

Lemma main_loop_not_finished (c : Config) (envs : list EventEnv) (m mf : Mem) :
  main_loop c envs m <> Finished mf.
Proof.
  revert m. induction envs as [|e es IH]; intros m; cbn [main_loop]; [discriminate|].
  pose proof (event_cycle_not_finished c e m mf).
  destruct (event_cycle c e m) as [m'|m'|m' [|]|m']; try discriminate; auto.
Qed.

(** X6: in [main] of src/cadgetdata.c, when every flush opens its log file,
    the batch count stays below [MAX_EVENT_BATCH], no slot is written out of
    bounds, and the final flush leaves the count at 0. *)
Theorem batch_within_capacity_when_flushes_succeed (c : Config) (envs : list EventEnv)
    (t : Tm) (m : Mem)
    (Hok : Forall (fun e => flush_open_ok e = true) envs)
    (Hc : g_buffered_count m < MAX_EVENT_BATCH)
    (Hl : length (g_data_buffer m) = MAX_EVENT_BATCH)
    (Hb : out_of_bounds m = false) :
  let m' := outcome_mem (main_program c envs t true m) in
  g_buffered_count m' < MAX_EVENT_BATCH /\ length (g_data_buffer m') = MAX_EVENT_BATCH /\
  out_of_bounds m' = false /\
  (forall mf, main_program c envs t true m = Finished mf -> g_buffered_count mf = 0).
Proof.
  pose proof (main_loop_within_capacity c envs Hok m Hc Hl Hb) as Hloop.
  pose proof (main_loop_not_finished c envs m) as Hnf.
  unfold main_program.
  destruct (main_loop c envs m) as [m'|m'|m' e|m']; cbn [outcome_mem] in *;
    [| |idtac|exfalso; exact (Hnf m' eq_refl)];
    try (split; [apply Hloop|split; [apply Hloop|split; [apply Hloop|discriminate]]]).
  destruct Hloop as (H1 & H2 & H3).
  destruct (Nat.ltb_spec 0 (g_buffered_count m')).
  - unfold save_batch_to_file.
    destruct (save_batch_gen_success format_header msg_flush_done t m') as (E1 & E2 & E3);
      [lia|].
    rewrite E1, E2, E3. split; [unfold MAX_EVENT_BATCH; lia|split; [exact H2|split; [exact H3|]]].
    intros mf Hf. injection Hf as <-. exact E1.
  - split; [exact H1|split; [exact H2|split; [exact H3|]]].
    intros mf Hf. injection Hf as <-. lia.
Qed.

Lemma drain_ori_keeps_batch (c : Config) (ps : list Poll) :
  forall m l m' l', drain_ori c ps m l = Some (m', l') ->
  g_buffered_count m' = g_buffered_count m /\ g_data_buffer m' = g_data_buffer m /\
  out_of_bounds m' = out_of_bounds m.
Proof.
  induction ps as [|p ps IH]; intros m l m' l' Hd; cbn [drain_ori] in Hd;
    destruct (g_fStop l); try (injection Hd as <- <-; repeat split); try discriminate.
  unfold drain_iter_ori in Hd.
  destruct (halfReady p).
  - destruct (heap_realloc _ _ _ _) as [[h q]|].
    + destruct (esc p); apply IH in Hd; exact Hd.
    + injection Hd as <- <-. repeat split.
  - destruct (esc p); exact (IH _ _ _ _ Hd).
Qed.

Lemma event_cycle_ori_not_finished (c : Config) (env : EventEnv) (m mf : Mem) :
  event_cycle_ori c env m <> Finished mf.
Proof.
  unfold event_cycle_ori.
  destruct (hw_ok env), (esc_armed env), (live_open_ok env); cbn [negb]; try discriminate.
  destruct (drain_ori _ _ _ _) as [[m2 l]|]; discriminate.
Qed.

Lemma main_loop_ori_not_finished (c : Config) (envs : list EventEnv) (m mf : Mem) :
  main_loop_ori c envs m <> Finished mf.
Proof.
  revert m. induction envs as [|e es IH]; intros m; cbn [main_loop_ori]; [discriminate|].
  pose proof (event_cycle_ori_not_finished c e m mf).
  destruct (event_cycle_ori c e m) as [m'|m'|m' [|]|m']; try discriminate; auto.
Qed.

Lemma event_cycle_ori_within_capacity (c : Config) (env : EventEnv) (m : Mem) :
  flush_open_ok env = true ->
  g_buffered_count m < MAX_EVENT_BATCH -> length (g_data_buffer m) = MAX_EVENT_BATCH ->
  out_of_bounds m = false ->
  let m' := outcome_mem (event_cycle_ori c env m) in
  g_buffered_count m' < MAX_EVENT_BATCH /\ length (g_data_buffer m') = MAX_EVENT_BATCH /\
  out_of_bounds m' = false.
Proof.
  intros Hok Hc Hl Hb. unfold event_cycle_ori.
  destruct (hw_ok env); cbn [negb]; [|auto].
  destruct (esc_armed env); [auto|].
  destruct (live_open_ok env); cbn [negb]; [|auto].
  destruct (drain_ori c (polls env) _ _) as [[m2 l]|] eqn:Hd; [|auto].
  destruct (drain_ori_keeps_batch c _ _ _ _ _ Hd) as (E1 & E2 & E3).
  cbn [outcome_mem]. rewrite Hok. unfold save_batch_to_file_ori.
  apply finish_event_within_capacity;
    cbn [close_and_publish do_fs g_buffered_count g_data_buffer out_of_bounds];
    rewrite ?E1, ?E2, ?E3; assumption.
Qed.

Lemma main_loop_ori_within_capacity (c : Config) (envs : list EventEnv) :
  Forall (fun e => flush_open_ok e = true) envs ->
  forall m, g_buffered_count m < MAX_EVENT_BATCH -> length (g_data_buffer m) = MAX_EVENT_BATCH ->
  out_of_bounds m = false ->
  let m' := outcome_mem (main_loop_ori c envs m) in
  g_buffered_count m' < MAX_EVENT_BATCH /\ length (g_data_buffer m') = MAX_EVENT_BATCH /\
  out_of_bounds m' = false.
Proof.
  intros Hall. induction Hall as [|e es He _ IH]; intros m Hc Hl Hb; [auto|].
  cbn [main_loop_ori].
  pose proof (event_cycle_ori_within_capacity c e m He Hc Hl Hb) as Hcyc.
  destruct (event_cycle_ori c e m) as [m'|m'|m' [|]|m']; try exact Hcyc.
  destruct Hcyc as (H1 & H2 & H3). exact (IH m' H1 H2 H3).
Qed.

(** X7: the same capacity invariant for [main] of
    src/CodeTriggerExtBaru/ori.c. *)
Theorem batch_within_capacity_when_flushes_succeed_ori (c : Config) (envs : list EventEnv)
    (t : Tm) (m : Mem)
    (Hok : Forall (fun e => flush_open_ok e = true) envs)
    (Hc : g_buffered_count m < MAX_EVENT_BATCH)
    (Hl : length (g_data_buffer m) = MAX_EVENT_BATCH)
    (Hb : out_of_bounds m = false) :
  let m' := outcome_mem (main_program_ori c envs t true m) in
  g_buffered_count m' < MAX_EVENT_BATCH /\ length (g_data_buffer m') = MAX_EVENT_BATCH /\
  out_of_bounds m' = false /\
  (forall mf, main_program_ori c envs t true m = Finished mf -> g_buffered_count mf = 0).
Proof.
  pose proof (main_loop_ori_within_capacity c envs Hok m Hc Hl Hb) as Hloop.
  pose proof (main_loop_ori_not_finished c envs m) as Hnf.
  unfold main_program_ori.
  destruct (main_loop_ori c envs m) as [m'|m'|m' e|m']; cbn [outcome_mem] in *;
    [| |idtac|exfalso; exact (Hnf m' eq_refl)];
    try (split; [apply Hloop|split; [apply Hloop|split; [apply Hloop|discriminate]]]).
  destruct Hloop as (H1 & H2 & H3).
  destruct (Nat.ltb_spec 0 (g_buffered_count m')).
  - unfold save_batch_to_file_ori.
    destruct (save_batch_gen_success format_header_ori msg_flush_done_ori t m')
      as (E1 & E2 & E3); [lia|].
    rewrite E1, E2, E3. split; [unfold MAX_EVENT_BATCH; lia|split; [exact H2|split; [exact H3|]]].
    intros mf Hf. injection Hf as <-. exact E1.
  - split; [exact H1|split; [exact H2|split; [exact H3|]]].
    intros mf Hf. injection Hf as <-. lia.
Qed.

Lemma drain_ori_pre (c : Config) (h0 : Heap) (rest : list Poll) (pre : list Poll) :
  Forall (fun p => fStop_drv p = false /\ esc p = false /\ realloc_ok p = true) pre ->
  blocks h0 (hnext h0) = None ->
  forall m l, g_fStop l = false -> exit_now l = false ->
  (match current_acq_buffer l with
   | None => (forall a, blocks (heap m) a = blocks h0 a) /\ hnext (heap m) = hnext h0
   | Some q => blocks h0 q = None /\ (forall a, a <> q -> blocks (heap m) a = blocks h0 a)
   end) ->
  exists m' l', drain_ori c (pre ++ rest) m l = drain_ori c rest m' l' /\
    g_fStop l' = false /\ exit_now l' = false /\
    g_buffered_count m' = g_buffered_count m /\ g_data_buffer m' = g_data_buffer m /\
    out_of_bounds m' = out_of_bounds m /\
    (match current_acq_buffer l' with
     | None => (forall a, blocks (heap m') a = blocks h0 a) /\ hnext (heap m') = hnext h0
     | Some q => blocks h0 q = None /\ (forall a, a <> q -> blocks (heap m') a = blocks h0 a)
     end).
Proof.
  intros Hpre Hfresh. induction Hpre as [|p pre [Hs [He Ho]] _ IH];
    intros m l Hf Hx Hinv.
  - exists m, l. cbn [app]. auto 7.
  - cbn [app drain_ori]. rewrite Hf. unfold drain_iter_ori. rewrite He, Hs.
    destruct (halfReady p).
    + unfold heap_realloc at 1. rewrite Ho. cbn [negb].
      set (n := current_acq_size l + chunk_size c).
      set (q := match current_acq_buffer l with Some q => q | None => hnext (heap m) end).
      set (h := match current_acq_buffer l with
                | Some q0 => mkHeap (upd (blocks (heap m)) q0
                                       (Some (resize n (block_contents (heap m) q0))))
                                    (hnext (heap m))
                | None => mkHeap (upd (blocks (heap m)) (hnext (heap m))
                                    (Some (repeat 0%Z n))) (S (hnext (heap m)))
                end).
      assert (Hr : match current_acq_buffer l with
                   | None => Some (mkHeap (upd (blocks (heap m)) (hnext (heap m))
                                             (Some (repeat 0%Z n))) (S (hnext (heap m))),
                                   hnext (heap m))
                   | Some q0 => Some (mkHeap (upd (blocks (heap m)) q0
                                               (Some (resize n (block_contents (heap m) q0))))
                                             (hnext (heap m)), q0)
                   end = Some (h, q)) by (subst h q; destruct (current_acq_buffer l); reflexivity).
      rewrite Hr.
      set (chunk := firstn (chunk_size c) (bytes_of_u16s
                       (if current_buffer_idx l =? 0 then ai_buf p else ai_buf2 p))).
      set (m1 := do_fs (set_heap m (heap_memcpy h q (current_acq_size l) chunk))
                       (FWrite live_filepath_tmp chunk)).
      set (l1 := mkLoop (Some q) n (1 - current_buffer_idx l) false (exit_now l) (f_out_live l)).
      assert (Hbl : forall a, a <> q -> blocks (heap m1) a = blocks (heap m) a).
      { intros a Ha. subst m1 h q. cbn [do_fs set_heap heap heap_memcpy blocks].
        rewrite upd_other by exact Ha.
        destruct (current_acq_buffer l); cbn [blocks]; rewrite upd_other by exact Ha;
          reflexivity. }
      destruct (IH m1 l1) as (m' & l' & Hd & Hf' & Hx' & Hc' & Hs' & Ho' & Hi');
        [reflexivity|exact Hx| |].
      * cbn [current_acq_buffer l1]. subst q.
        destruct (current_acq_buffer l) as [q0|].
        -- destruct Hinv as [H0 Hoth]. split; [exact H0|].
           intros a Ha. rewrite (Hbl a Ha). exact (Hoth a Ha).
        -- destruct Hinv as [Hall Hnx]. split; [rewrite Hnx; exact Hfresh|].
           intros a Ha. rewrite (Hbl a Ha). exact (Hall a).
      * exists m', l'. split; [exact Hd|]. rewrite Hc', Hs', Ho'. auto 8.
    + apply IH; [reflexivity|exact Hx|exact Hinv].
Qed.

(** X8: in src/CodeTriggerExtBaru/ori.c a failed [realloc] frees the event
    buffer and breaks out of the drain loop without reading ESC; the cycle
    continues the main loop and the batch and the heap are as before. *)
Theorem realloc_failure_discards_event_ori (c : Config) (env : EventEnv) (m : Mem)
    (pre : list Poll) (pf : Poll) (post : list Poll)
    (Hhw : hw_ok env = true) (Harm : esc_armed env = false)
    (Hpolls : polls env = pre ++ pf :: post)
    (Hpre : Forall (fun p => fStop_drv p = false /\ esc p = false /\ realloc_ok p = true) pre)
    (Hready : halfReady pf = true) (Hfail : realloc_ok pf = false)
    (Hfresh : blocks (heap m) (hnext (heap m)) = None) :
  exists m', event_cycle_ori c env m = Cycled m' false /\
    g_buffered_count m' = g_buffered_count m /\
    g_data_buffer m' = g_data_buffer m /\
    out_of_bounds m' = out_of_bounds m /\
    (forall a, blocks (heap m') a = blocks (heap m) a).
Proof.
  unfold event_cycle_ori. rewrite Hhw, Harm. cbn [negb].
  destruct (live_open_ok env); cbn [negb];
    [|eexists; split; [reflexivity|repeat split]].
  set (m1 := do_fs m (FOpen live_filepath_tmp)).
  destruct (drain_ori_pre c (heap m) (pf :: post) pre Hpre Hfresh m1
              (mkLoop None 0 0 false false true) eq_refl eq_refl
              (conj (fun a => eq_refl) eq_refl))
    as (m2 & l2 & Hd2 & Hf2 & Hx2 & Hc2 & Hs2 & Ho2 & Hinv2).
  rewrite Hpolls, Hd2. cbn [drain_ori]. rewrite Hf2. unfold drain_iter_ori.
  rewrite Hready. unfold heap_realloc at 1. rewrite Hfail. cbn [negb exit_now].
  rewrite Hx2. eexists. split; [reflexivity|].
  unfold finish_event. cbn [current_acq_buffer].
  cbn [close_and_publish do_fs set_heap heap g_buffered_count g_data_buffer out_of_bounds].
  rewrite Hc2, Hs2, Ho2. split; [reflexivity|split; [reflexivity|split; [reflexivity|]]].
  intros a. destruct (current_acq_buffer l2) as [q|].
  - destruct Hinv2 as [H0 Hoth]. cbn [heap_free blocks]. unfold upd.
    destruct (Nat.eqb_spec a q) as [->|Ha]; [symmetry; exact H0|exact (Hoth a Ha)].
  - destruct Hinv2 as [Hall _]. exact (Hall a).
Qed.

(** *** Files a flush touches *)

Lemma save_entry_other_files (p : path) (m : Mem) (i : nat) (q : path) :
  path_eqb q p = false -> fs (save_entry p m i) q = fs m q.
Proof.
  intros Hq. unfold save_entry, write_slot.
  destruct (_ <? _); cbn [fs set_heap do_fs fs_apply]; apply fs_upd_other, Hq.
Qed.

Lemma save_batch_gen_other_files (hdr : Tm -> nat -> list Z) (msg : nat -> path -> list Z)
    (t : Tm) (ok : bool) (m : Mem) (q : path) :
  path_eqb q (log_filepath t (g_buffered_count m)) = false ->
  fs (save_batch_gen hdr msg t ok m) q = fs m q.
Proof.
  intros Hq. unfold save_batch_gen.
  destruct (g_buffered_count m =? 0); [reflexivity|].
  destruct ok; cbn [negb]; [|reflexivity].
  cbn [set_count say do_fs fs fs_apply].
  set (m1 := do_fs (do_fs m _) _).
  assert (G : forall k m0, fs (fold_left (save_entry (log_filepath t (g_buffered_count m)))
                                         (seq 0 k) m0) q = fs m0 q).
  { induction k as [|k IH]; intros m0; [reflexivity|].
    rewrite seq_S, fold_left_app. cbn [fold_left Nat.add].
    rewrite save_entry_other_files by exact Hq. apply IH. }
  rewrite G. subst m1. cbn [do_fs fs fs_apply]. rewrite !fs_upd_other by exact Hq.
  reflexivity.
Qed.

Lemma live_not_log (q : path) (t : Tm) (n : nat) :
  is_live q = true -> path_eqb q (log_filepath t n) = false.
Proof.
  intros Hq. pose proof (log_filepath_not_live t n) as Hl. unfold is_live in *.
  apply orb_false_iff in Hl. destruct Hl as [Ht Hf].
  apply orb_true_iff in Hq. destruct (path_eqb q (log_filepath t n)) eqn:E; [|reflexivity].
  apply path_eqb_true in E. subst q. rewrite Ht, Hf in Hq. destruct Hq; discriminate.
Qed.

(** X9: a flush of either program changes no file but its own batch log
    file; in particular the two live files are untouched. *)
Theorem flush_touches_only_its_log_file (t : Tm) (ok : bool) (m : Mem) (q : path)
    (Hq : path_eqb q (log_filepath t (g_buffered_count m)) = false) :
  fs (save_batch_to_file t ok m) q = fs m q /\
  fs (save_batch_to_file_ori t ok m) q = fs m q /\
  fs (save_batch_to_file t ok m) live_filepath_final = fs m live_filepath_final /\
  fs (save_batch_to_file t ok m) live_filepath_tmp = fs m live_filepath_tmp /\
  fs (save_batch_to_file_ori t ok m) live_filepath_final = fs m live_filepath_final /\
  fs (save_batch_to_file_ori t ok m) live_filepath_tmp = fs m live_filepath_tmp.
Proof.
  unfold save_batch_to_file, save_batch_to_file_ori.
  assert (Hfin : is_live live_filepath_final = true)
    by (unfold is_live; rewrite path_eqb_refl, orb_true_r; reflexivity).
  assert (Htmp : is_live live_filepath_tmp = true)
    by (unfold is_live; rewrite path_eqb_refl; reflexivity).
  repeat split; apply save_batch_gen_other_files; auto; apply live_not_log; assumption.
Qed.

(** *** The live snapshot of an event *)

Lemma drain_half_fs (c : Config) (p : Poll) (m : Mem) (l : Loop) :
  realloc_ok p = true ->
  fs (fst (drain_half c p m l)) =
    if f_out_live l
    then fs_apply (fs m) (FWrite live_filepath_tmp
                            (extract_bytes c (half_at (current_buffer_idx l) p)))
    else fs m.
Proof.
  intros Hok. unfold drain_half, half_at, heap_realloc. rewrite Hok. cbn [negb].
  set (B := if current_buffer_idx l =? 0 then ai_buf p else ai_buf2 p).
  fold (extract_bytes c B).
  pose proof (extract_bytes_length c B) as HL.
  rewrite firstn_all2 by lia.
  destruct (current_acq_buffer l); destruct (f_out_live l); reflexivity.
Qed.

Lemma drain_delivers_live (c : Config) (idx : nat) (ps : list Poll) (Bs : list (list Z)) :
  delivers idx ps Bs ->
  forall m l acc w, g_fStop l = false -> exit_now l = false ->
  current_buffer_idx l = idx -> acq_holds m l acc -> f_out_live l = true ->
  fs m live_filepath_tmp = Some w ->
  exists m' l', drain c ps m l = Some (m', l') /\
    fs m' live_filepath_tmp = Some (w ++ concat (map (extract_bytes c) Bs)) /\
    fs m' live_filepath_final = fs m live_filepath_final /\
    exit_now l' = false /\ f_out_live l' = true.
Proof.
  induction 1 as [idx p ps Bs Hr Hs He Hd IH|idx p ps Bs Hr Hs He Ho Hd IH
                 |idx p ps Hr Hs He|idx p ps Hr Hs He Ho];
    intros m l acc w Hf Hx Hi Hh Hlv Hw; cbn [drain]; rewrite Hf; unfold drain_iter;
    rewrite Hr.
  - rewrite He. cbn [map concat].
    apply (IH m _ acc w); [exact Hs|exact Hx|exact Hi|exact Hh|exact Hlv|exact Hw].
  - set (l0 := mkLoop (current_acq_buffer l) (current_acq_size l) (current_buffer_idx l)
                 (fStop_drv p) (exit_now l) (f_out_live l)).
    pose proof (drain_half_ok c p m l0 acc Ho Hh) as Hdh.
    pose proof (drain_half_fs c p m l0 Ho) as Hfs.
    destruct (drain_half c p m l0) as [m1 l1]. cbn [fst f_out_live current_buffer_idx l0] in Hfs.
    rewrite Hlv, Hi in Hfs.
    destruct Hdh as (Hh1 & Hi1 & Hf1 & Hx1 & Hl1).
    rewrite He.
    destruct (IH m1 l1 (acc ++ extract_bytes c (half_at idx p))
                 (w ++ extract_bytes c (half_at idx p)))
      as (m' & l' & Hd' & Hw' & Hfin' & Hx' & Hl').
    + rewrite Hf1. exact Hs.
    + rewrite Hx1. exact Hx.
    + rewrite Hi1. cbn [current_buffer_idx l0]. now rewrite Hi.
    + cbn [current_buffer_idx l0] in Hh1. rewrite Hi in Hh1. exact Hh1.
    + rewrite Hl1. exact Hlv.
    + rewrite Hfs. cbn [fs_apply]. rewrite fs_upd_same, Hw. reflexivity.
    + exists m', l'. split; [exact Hd'|].
      cbn [map concat]. rewrite Hw', <- app_assoc, Hfin', Hfs. cbn [fs_apply].
      rewrite fs_upd_other by apply final_tmp_neq. auto.
  - rewrite He.
    exists m, (mkLoop (current_acq_buffer l) (current_acq_size l) (current_buffer_idx l)
                 (fStop_drv p) (exit_now l) (f_out_live l)).
    split; [destruct ps; cbn [drain g_fStop]; rewrite Hs; reflexivity|].
    cbn [map concat exit_now f_out_live]. rewrite app_nil_r. auto.
  - set (l0 := mkLoop (current_acq_buffer l) (current_acq_size l) (current_buffer_idx l)
                 (fStop_drv p) (exit_now l) (f_out_live l)).
    pose proof (drain_half_ok c p m l0 acc Ho Hh) as Hdh.
    pose proof (drain_half_fs c p m l0 Ho) as Hfs.
    destruct (drain_half c p m l0) as [m1 l1]. cbn [fst f_out_live current_buffer_idx l0] in Hfs.
    rewrite Hlv, Hi in Hfs.
    destruct Hdh as (Hh1 & Hi1 & Hf1 & Hx1 & Hl1).
    rewrite He. exists m1, l1.
    split; [destruct ps; cbn [drain]; rewrite Hf1; cbn [g_fStop l0]; rewrite Hs; reflexivity|].
    cbn [map concat]. rewrite app_nil_r, Hfs. cbn [fs_apply].
    rewrite fs_upd_same, Hw, fs_upd_other by apply final_tmp_neq.
    split; [reflexivity|split; [reflexivity|split; [rewrite Hx1; exact Hx|rewrite Hl1; exact Hlv]]].
Qed.

(** X10: after an event of src/cadgetdata.c whose live file opens and is
    renamed, the visible live file holds exactly the extracted bytes of the
    half-buffers delivered during the event, and the temporary file is gone. *)
Theorem live_snapshot_is_event_data (c : Config) (env : EventEnv) (m : Mem)
    (Bs : list (list Z))
    (Hhw : hw_ok env = true) (Harm : esc_armed env = false)
    (Hlive : live_open_ok env = true) (Hsel : sel_work_ok env = true)
    (Hren : rename_ok env = true)
    (Htrace : delivers 0 (polls env) Bs) :
  exists m', event_cycle c env m = Cycled m' false /\
    fs m' live_filepath_final = Some (concat (map (extract_bytes c) Bs)) /\
    fs m' live_filepath_tmp = None.
Proof.
  set (m1 := do_fs m (FOpen live_filepath_tmp)).
  assert (Hw1 : fs m1 live_filepath_tmp = Some []).
  { subst m1. cbn [do_fs fs fs_apply]. apply fs_upd_same. }
  destruct (drain_delivers_live c 0 (polls env) Bs Htrace m1 (mkLoop None 0 0 false false true)
              [] [] eq_refl eq_refl eq_refl (conj eq_refl eq_refl) eq_refl Hw1)
    as (m2 & l & Hd & Hw2 & _ & Hx & Hl).
  unfold event_cycle. rewrite Hhw, Harm, Hlive, Hsel. cbn [negb]. fold m1.
  rewrite Hd, Hl, Hx, Hren. eexists. split; [reflexivity|].
  set (m3 := close_and_publish true m2).
  assert (H3 : fs m3 live_filepath_final = Some (concat (map (extract_bytes c) Bs)) /\
               fs m3 live_filepath_tmp = None).
  { subst m3. unfold close_and_publish. cbn [do_fs fs fs_apply].
    rewrite Hw2. cbn [app]. rewrite fs_upd_same, fs_upd_other by apply final_tmp_neq.
    rewrite fs_upd_same. split; reflexivity. }
  assert (Hfe : forall q, is_live q = true ->
            fs (finish_event save_batch_to_file (flush_tm env) (flush_open_ok env)
                  (current_acq_buffer l) (current_acq_size l) m3) q = fs m3 q).
  { intros q Hq. unfold finish_event.
    destruct (current_acq_buffer l); [|reflexivity]. destruct (0 <? current_acq_size l); [|reflexivity].
    destruct (MAX_EVENT_BATCH <=? _);
      [unfold save_batch_to_file;
       rewrite save_batch_gen_other_files by (apply live_not_log; exact Hq)|];
      unfold write_slot; destruct (_ <? _); reflexivity. }
  rewrite !Hfe; [exact H3| |];
    unfold is_live; rewrite path_eqb_refl; [apply orb_true_l|apply orb_true_r].
Qed.

(** *** The drain loop of ori.c *)

Lemma bytes_of_u16s_app (a b : list Z) :
  bytes_of_u16s (a ++ b) = bytes_of_u16s a ++ bytes_of_u16s b.
Proof. unfold bytes_of_u16s. apply flat_map_app. Qed.

Lemma drain_iter_ori_ok (c : Config) (p : Poll) (m : Mem) (l : Loop) (acc w : list Z) :
  halfReady p = true -> realloc_ok p = true -> esc p = false ->
  length (half_at (current_buffer_idx l) p) = BUFFER_SAMPLES c * TOTAL_HW_CHANNELS c ->
  acq_holds m l acc -> fs m live_filepath_tmp = Some w ->
  exists m' l', drain_iter_ori c p m l = ((m', l'), false) /\
    acq_holds m' l' (acc ++ bytes_of_u16s (half_at (current_buffer_idx l) p)) /\
    fs m' live_filepath_tmp = Some (w ++ bytes_of_u16s (half_at (current_buffer_idx l) p)) /\
    fs m' live_filepath_final = fs m live_filepath_final /\
    current_buffer_idx l' = 1 - current_buffer_idx l /\
    g_fStop l' = fStop_drv p /\ exit_now l' = exit_now l /\ f_out_live l' = f_out_live l.
Proof.
  intros Hr Hok He Hlen [Hsz Hq] Hw. unfold drain_iter_ori, half_at in *. rewrite Hr.
  cbv zeta.
  set (B := if current_buffer_idx l =? 0 then ai_buf p else ai_buf2 p) in *.
  assert (HL : length (bytes_of_u16s B) = chunk_size c)
    by (rewrite bytes_of_u16s_length, Hlen; unfold chunk_size; lia).
  rewrite firstn_all2 by lia.
  unfold heap_realloc. rewrite Hok. cbn [negb]. rewrite He.
  assert (Hmc : forall h q off d, blocks (heap_memcpy h q off d) q =
            Some (overwrite (block_contents h q) off d))
    by (intros; unfold heap_memcpy; cbn [blocks]; apply upd_same).
  assert (Hfs : forall m0 : Mem, fs m0 live_filepath_tmp = Some w ->
            fs (do_fs m0 (FWrite live_filepath_tmp (bytes_of_u16s B))) live_filepath_tmp =
              Some (w ++ bytes_of_u16s B) /\
            fs (do_fs m0 (FWrite live_filepath_tmp (bytes_of_u16s B))) live_filepath_final =
              fs m0 live_filepath_final).
  { intros m0 H0. cbn [do_fs fs fs_apply]. rewrite fs_upd_same, H0.
    rewrite fs_upd_other by apply final_tmp_neq. split; reflexivity. }
  destruct (current_acq_buffer l) as [q|] eqn:Hb.
  - eexists; eexists; split; [reflexivity|].
    split; [|exact (conj (proj1 (Hfs _ Hw)) (conj (proj2 (Hfs _ Hw))
                      (conj eq_refl (conj eq_refl (conj eq_refl eq_refl)))))].
    split; [cbn [current_acq_size]; rewrite length_app; lia|].
    cbn [current_acq_buffer do_fs set_heap heap]. rewrite Hmc.
    unfold block_contents. cbn [blocks]. rewrite upd_same, Hq, Hsz, <- HL, resize_grow,
      overwrite_end. reflexivity.
  - subst acc. eexists; eexists; split; [reflexivity|].
    split; [|exact (conj (proj1 (Hfs _ Hw)) (conj (proj2 (Hfs _ Hw))
                      (conj eq_refl (conj eq_refl (conj eq_refl eq_refl)))))].
    split; [cbn [current_acq_size app]; rewrite Hsz, HL; reflexivity|].
    cbn [current_acq_buffer do_fs set_heap heap]. rewrite Hmc.
    unfold block_contents. cbn [blocks hnext]. rewrite upd_same, Hsz. cbn [length Nat.add].
    rewrite <- HL. exact (f_equal Some (overwrite_end [] (bytes_of_u16s B))).
Qed.

Lemma drain_ori_delivers (c : Config) (idx : nat) (ps : list Poll) (Bs : list (list Z)) :
  delivers idx ps Bs ->
  Forall (fun B => length B = BUFFER_SAMPLES c * TOTAL_HW_CHANNELS c) Bs ->
  forall m l acc w, g_fStop l = false -> exit_now l = false ->
  current_buffer_idx l = idx -> acq_holds m l acc -> fs m live_filepath_tmp = Some w ->
  exists m' l', drain_ori c ps m l = Some (m', l') /\
    acq_holds m' l' (acc ++ concat (map bytes_of_u16s Bs)) /\
    fs m' live_filepath_tmp = Some (w ++ concat (map bytes_of_u16s Bs)) /\
    fs m' live_filepath_final = fs m live_filepath_final /\
    exit_now l' = false.
Proof.
  induction 1 as [idx p ps Bs Hr Hs He Hd IH|idx p ps Bs Hr Hs He Ho Hd IH
                 |idx p ps Hr Hs He|idx p ps Hr Hs He Ho];
    intros Hlen m l acc w Hf Hx Hi Hh Hw; cbn [drain_ori]; rewrite Hf.
  - unfold drain_iter_ori. rewrite Hr, He.
    apply (IH Hlen m _ acc w); [exact Hs|exact Hx|exact Hi|exact Hh|exact Hw].
  - pose proof (Forall_inv Hlen) as HB; pose proof (Forall_inv_tail Hlen) as HBs.
    destruct (drain_iter_ori_ok c p m l acc w Hr Ho He) as (m1 & l1 & E & Hh1 & Hw1 & Hfin1 & Hi1 & Hf1 & Hx1 & _);
      [rewrite Hi; exact HB|exact Hh|exact Hw|].
    rewrite E. rewrite Hi in Hh1, Hw1.
    destruct (IH HBs m1 l1 _ _ ltac:(rewrite Hf1; exact Hs) ltac:(rewrite Hx1; exact Hx) ltac:(rewrite Hi1, Hi; reflexivity) Hh1 Hw1) as (m' & l' & Hd' & Hh' & Hw' & Hfin' & Hx').
    exists m', l'. cbn [map concat]. rewrite !app_assoc, Hfin', Hfin1.
    auto.
  - unfold drain_iter_ori. rewrite Hr, He.
    eexists; eexists; split; [destruct ps; cbn [drain_ori g_fStop]; rewrite Hs; reflexivity|].
    cbn [map concat]. rewrite !app_nil_r. auto.
  - pose proof (Forall_inv Hlen) as HB; pose proof (Forall_inv_tail Hlen) as HBs.
    destruct (drain_iter_ori_ok c p m l acc w Hr Ho He) as (m1 & l1 & E & Hh1 & Hw1 & Hfin1 & Hi1 & Hf1 & Hx1 & _);
      [rewrite Hi; exact HB|exact Hh|exact Hw|].
    rewrite E. rewrite Hi in Hh1, Hw1. exists m1, l1.
    split; [destruct ps; cbn [drain_ori]; rewrite Hf1, Hs; reflexivity|].
    cbn [map concat]. rewrite !app_nil_r. rewrite Hx1. auto.
Qed.

(** X11: in src/CodeTriggerExtBaru/ori.c, when each delivered half-buffer has
    [BUFFER_SAMPLES * TOTAL_HW_CHANNELS] samples, the event buffer and the
    published live file both hold the raw bytes of those half-buffers, in
    order. *)
Theorem ori_event_and_live_file_are_raw_halves (c : Config) (env : EventEnv) (m : Mem)
    (Bs : list (list Z))
    (Hhw : hw_ok env = true) (Harm : esc_armed env = false)
    (Hlive : live_open_ok env = true) (Hren : rename_ok env = true)
    (Htrace : delivers 0 (polls env) Bs)
    (Hlen : Forall (fun B => length B = BUFFER_SAMPLES c * TOTAL_HW_CHANNELS c) Bs) :
  exists m2 l m', drain_ori c (polls env) (do_fs m (FOpen live_filepath_tmp))
                            (mkLoop None 0 0 false false true) = Some (m2, l) /\
    event_bytes m2 l = concat (map bytes_of_u16s Bs) /\
    event_cycle_ori c env m = Cycled m' false /\
    fs m' live_filepath_final = Some (concat (map bytes_of_u16s Bs)).
Proof.
  set (m1 := do_fs m (FOpen live_filepath_tmp)).
  assert (Hw1 : fs m1 live_filepath_tmp = Some []).
  { subst m1. cbn [do_fs fs fs_apply]. apply fs_upd_same. }
  destruct (drain_ori_delivers c 0 (polls env) Bs Htrace Hlen m1 (mkLoop None 0 0 false false true)
              [] [] eq_refl eq_refl eq_refl (conj eq_refl eq_refl) Hw1)
    as (m2 & l & Hd & [Hsz Hq] & Hw2 & _ & Hx).
  exists m2, l. eexists. split; [exact Hd|split].
  { unfold event_bytes. destruct (current_acq_buffer l) as [q|].
    - unfold block_contents. now rewrite Hq.
    - symmetry. exact Hq. }
  unfold event_cycle_ori. rewrite Hhw, Harm, Hlive. cbn [negb]. fold m1.
  rewrite Hd, Hx, Hren. split; [reflexivity|].
  set (m3 := close_and_publish true m2).
  assert (H3 : fs m3 live_filepath_final = Some (concat (map bytes_of_u16s Bs))).
  { subst m3. unfold close_and_publish. cbn [do_fs fs fs_apply].
    rewrite Hw2. cbn [app]. rewrite fs_upd_other by apply final_tmp_neq.
    apply fs_upd_same. }
  assert (Hq' : is_live live_filepath_final = true)
    by (unfold is_live; rewrite path_eqb_refl; apply orb_true_r).
  unfold finish_event.
  destruct (current_acq_buffer l); [|exact H3]. destruct (0 <? current_acq_size l); [|exact H3].
  destruct (MAX_EVENT_BATCH <=? _);
    [unfold save_batch_to_file_ori;
     rewrite save_batch_gen_other_files by (apply live_not_log; exact Hq')|];
    unfold write_slot; destruct (_ <? _); exact H3.
Qed.

(** *** The live snapshot protocol over a whole run of ori.c *)

Lemma event_cycle_ori_live_idle (c : Config) (env : EventEnv) (m : Mem) :
  exists st, live_steps LiveIdle m (outcome_mem (event_cycle_ori c env m)) st /\
    (forall m' e, event_cycle_ori c env m = Cycled m' e -> st = LiveIdle).
Proof.
  unfold event_cycle_ori.
  destruct (hw_ok env); cbn [negb];
    [|exists LiveIdle; split; [apply live_steps_refl; reflexivity|discriminate]].
  destruct (esc_armed env);
    [exists LiveIdle; split; [apply live_steps_refl; reflexivity|reflexivity]|].
  destruct (live_open_ok env); cbn [negb].
  2: exists LiveIdle; split; [apply live_steps_do_fs; reflexivity|reflexivity].
  assert (H1 : live_steps LiveIdle m (do_fs m (FOpen live_filepath_tmp)) LiveOpen)
    by (apply live_steps_do_fs; cbn [live_step]; rewrite path_eqb_refl; reflexivity).
  destruct (drain_ori c (polls env) (do_fs m (FOpen live_filepath_tmp))
              (mkLoop None 0 0 false false true)) as [[m2 l]|] eqn:Hd;
    [|exists LiveOpen; split; [exact H1|discriminate]].
  exists LiveIdle. split; [|reflexivity]. cbn [outcome_mem].
  apply (live_steps_trans _ _ _ _ _ _ H1).
  apply (live_steps_trans _ _ _ _ _ _ (drain_ori_live c _ _ _ _ _ Hd)).
  apply (live_steps_trans _ LiveIdle _ _ (close_and_publish (rename_ok env) m2)).
  - unfold close_and_publish.
    apply (live_steps_trans _ LiveClosed _ _ (do_fs m2 (FClose live_filepath_tmp))).
    + apply live_steps_do_fs. cbn [live_step]. rewrite path_eqb_refl. reflexivity.
    + apply live_steps_do_fs. destruct (rename_ok env); cbn [live_step];
        rewrite !path_eqb_refl; reflexivity.
  - apply finish_event_live. intros m0. apply save_batch_live.
Qed.

Lemma main_loop_ori_live (c : Config) (envs : list EventEnv) :
  forall m, exists st, live_steps LiveIdle m (outcome_mem (main_loop_ori c envs m)) st /\
    (forall m' e, main_loop_ori c envs m = Cycled m' e -> st = LiveIdle).
Proof.
  induction envs as [|env es IH]; intros m.
  - exists LiveIdle. split; [apply live_steps_refl; reflexivity|discriminate].
  - cbn [main_loop_ori].
    destruct (event_cycle_ori_live_idle c env m) as (st & Hs & Hc).
    destruct (event_cycle_ori c env m) as [m'|m'|m' [|]|m'] eqn:E;
      try (exists st; split; [exact Hs|intros m0 e0 H0; first [discriminate | exact (Hc _ _ eq_refl)]]).
    rewrite (Hc m' false eq_refl) in Hs. cbn [outcome_mem] in Hs.
    destruct (IH m') as (st' & Hs' & Hc').
    exists st'. split; [exact (live_steps_trans _ _ _ _ _ _ Hs Hs')|exact Hc'].
Qed.

Lemma main_program_ori_live (c : Config) (envs : list EventEnv) (t : Tm) (ok : bool) (m : Mem) :
  exists st, live_steps LiveIdle m (outcome_mem (main_program_ori c envs t ok m)) st.
Proof.
  unfold main_program_ori.
  destruct (main_loop_ori_live c envs m) as (st & Hs & Hc).
  destruct (main_loop_ori c envs m) as [m'|m'|m' e|m'] eqn:E; try (exists st; exact Hs).
  exists LiveIdle. rewrite (Hc m' e eq_refl) in Hs. cbn [outcome_mem] in *.
  destruct (0 <? g_buffered_count m'); [|exact Hs].
  exact (live_steps_trans _ _ _ _ _ _ Hs (save_batch_live _ _ t ok m')).
Qed.

(** X12: over a whole run of [main] of src/CodeTriggerExtBaru/ori.c, from an
    empty trace, at every point in time the visible live path holds its
    initial content or one complete snapshot renamed right after its [fclose]. *)
Theorem live_snapshot_atomic_ori (c : Config) (envs : list EventEnv) (t : Tm) (ok : bool)
    (m0 : Mem) (Hf : ftrace m0 = []) :
  let m' := outcome_mem (main_program_ori c envs t ok m0) in
  fs m' = fs_run (fs m0) (ftrace m') /\
  forall n, n <= length (ftrace m') ->
    published (fs m0) (ftrace m') n
      (fs_run (fs m0) (firstn n (ftrace m')) live_filepath_final).
Proof.
  destruct (main_program_ori_live c envs t ok m0) as (st & Hs).
  exact (live_steps_published _ _ st Hf Hs).
Qed.

Lemma extract_selected_channels_reads_selected_only_witness :
  extract_selected_channels (mkConfig 2 2 [1]) [1; 2; 3; 4]%Z =
  extract_selected_channels (mkConfig 2 2 [1]) [9; 2; 9; 4]%Z.
Proof.
  apply extract_selected_channels_reads_selected_only.
  intros i ch Hi Hch. destruct Hch as [<-|[]]. cbn [BUFFER_SAMPLES] in Hi.
  destruct i as [|[|i]]; [reflexivity|reflexivity|lia].
Defined.

Lemma extract_selected_channels_within_half_witness :
  extract_selected_channels (mkConfig 2 2 [1]) ([1; 2; 3; 4] ++ [5; 6])%Z =
  extract_selected_channels (mkConfig 2 2 [1]) [1; 2; 3; 4]%Z.
Proof.
  apply extract_selected_channels_within_half.
  - reflexivity.
  - constructor; [cbn; lia|constructor].
Defined.

Lemma log_filepath_distinct_witness :
  let t1 := mkTm 126 9 18 12 0 0 in
  let t2 := mkTm 126 9 18 12 0 1 in
  tm_in_range t1 /\ tm_in_range t2 /\
  log_filepath t1 5 <> log_filepath t2 5 /\
  log_filepath t1 5 <> log_filepath t1 6.
Proof.
  intros t1 t2.
  assert (H1 : tm_in_range t1) by (unfold tm_in_range; cbn; lia).
  assert (H2 : tm_in_range t2) by (unfold tm_in_range; cbn; lia).
  split; [exact H1|split; [exact H2|split]].
  - intros E. destruct (log_filepath_distinct t1 t2 5 5 H1 H2 ltac:(cbn; lia) ltac:(cbn; lia) E)
      as [Ht _].
    discriminate Ht.
  - intros E. destruct (log_filepath_distinct t1 t1 5 6 H1 H1 ltac:(cbn; lia) ltac:(cbn; lia) E)
      as [_ Hn].
    discriminate Hn.
Defined.

Lemma flush_log_roundtrip_ori_witness :
  let t := mkTm 126 9 18 12 0 0 in
  let m := set_heap (write_slot (write_slot (write_slot (set_count (init_mem (fun _ => None)) 3)
                       0 (mkAD (Some 0) 2)) 1 (mkAD (Some 1) 4)) 2 (mkAD (Some 2) 1))
                    (mkHeap (upd (upd (upd (fun _ => None) 0 (Some [7%Z; 9%Z]))
                                      1 (Some [1%Z; 2%Z; 3%Z; 4%Z])) 2 (Some [5%Z])) 3) in
  fs (save_batch_to_file_ori t true m) (log_filepath t 3)
    = Some (format_header_ori t 3 ++ [7%Z; 9%Z] ++ [1%Z; 2%Z; 3%Z; 4%Z] ++ [5%Z]) /\
  read_batch_log [2; 4; 1] (format_header_ori t 3 ++ [7%Z; 9%Z] ++ [1%Z; 2%Z; 3%Z; 4%Z] ++ [5%Z])
    = Some (3%Z, [[7%Z; 9%Z]; [1%Z; 2%Z; 3%Z; 4%Z]; [5%Z]]) /\
  g_buffered_count (save_batch_to_file_ori t true m) = 0.
Proof.
  intros t m.
  destruct (flush_log_roundtrip_ori t m [0; 1; 2] [[7%Z; 9%Z]; [1%Z; 2%Z; 3%Z; 4%Z]; [5%Z]])
    as (Hf & Hr & _ & _ & Hc & _).
  - vm_compute. lia.
  - vm_compute. reflexivity.
  - apply Nat.leb_le. vm_compute. reflexivity.
  - reflexivity.
  - reflexivity.
  - repeat constructor; cbn; intuition discriminate.
  - intros i Hi. destruct i as [|[|[|i]]]; [reflexivity|reflexivity|reflexivity|vm_compute in Hi; lia].
  - intros i Hi. destruct i as [|[|[|i]]]; [reflexivity|reflexivity|reflexivity|vm_compute in Hi; lia].
  - split; [exact Hf|split; [exact Hr|exact Hc]].
Defined.

Lemma batch_within_capacity_when_flushes_succeed_witness :
  let env := mkEnv true false true true [mkPoll true true [1; 2; 3; 4]%Z [] true false]
                   true (mkTm 126 9 18 12 0 0) true in
  g_buffered_count (outcome_mem (main_program cadget_cfg [env; env] (mkTm 126 9 18 12 0 0) true
                                  (init_mem (fun _ => None)))) < MAX_EVENT_BATCH.
Proof.
  intros env.
  apply (batch_within_capacity_when_flushes_succeed cadget_cfg [env; env]
           (mkTm 126 9 18 12 0 0) (init_mem (fun _ => None))).
  - repeat constructor.
  - apply Nat.ltb_lt. reflexivity.
  - apply repeat_length.
  - reflexivity.
Defined.

Lemma batch_within_capacity_when_flushes_succeed_ori_witness :
  let env := mkEnv true false true true [mkPoll true true [1; 2; 3; 4]%Z [] true false]
                   true (mkTm 126 9 18 12 0 0) true in
  g_buffered_count (outcome_mem (main_program_ori ori_cfg [env; env] (mkTm 126 9 18 12 0 0)
                                  true (init_mem (fun _ => None)))) < MAX_EVENT_BATCH.
Proof.
  intros env.
  apply (batch_within_capacity_when_flushes_succeed_ori ori_cfg [env; env]
           (mkTm 126 9 18 12 0 0) (init_mem (fun _ => None))).
  - repeat constructor.
  - apply Nat.ltb_lt. reflexivity.
  - apply repeat_length.
  - reflexivity.
Defined.

Lemma realloc_failure_discards_event_ori_witness :
  let pf := mkPoll true false [1; 2; 3; 4]%Z [] false true in
  let env := mkEnv true false true true [pf] true (mkTm 126 9 18 12 0 0) true in
  exists m', event_cycle_ori ori_cfg env (init_mem (fun _ => None)) = Cycled m' false /\
    g_buffered_count m' = 0.
Proof.
  intros pf env.
  destruct (realloc_failure_discards_event_ori ori_cfg env (init_mem (fun _ => None)) [] pf []
              eq_refl eq_refl eq_refl (Forall_nil _) eq_refl eq_refl eq_refl)
    as (m' & Hc & Hn & _).
  exists m'. split; [exact Hc|exact Hn].
Defined.

Lemma flush_touches_only_its_log_file_witness :
  let m := set_heap (write_slot (set_count (init_mem (fun _ => None)) 1) 0 (mkAD (Some 0) 2))
                    (mkHeap (upd (fun _ => None) 0 (Some [7%Z; 9%Z])) 1) in
  fs (save_batch_to_file (mkTm 126 9 18 12 0 0) true m) (s2b "log\other.bin") =
  fs m (s2b "log\other.bin").
Proof.
  intros m.
  apply (flush_touches_only_its_log_file (mkTm 126 9 18 12 0 0) true m (s2b "log\other.bin")).
  vm_compute. reflexivity.
Defined.

Lemma live_snapshot_is_event_data_witness :
  let p := mkPoll true true [1; 2; 3; 4]%Z [] true false in
  let env := mkEnv true false true true [p] true (mkTm 126 9 18 12 0 0) true in
  exists m', event_cycle (mkConfig 2 2 [1]) env (init_mem (fun _ => None)) = Cycled m' false /\
    fs m' live_filepath_final = Some (concat (map (extract_bytes (mkConfig 2 2 [1])) [[1; 2; 3; 4]%Z])).
Proof.
  intros p env.
  destruct (live_snapshot_is_event_data (mkConfig 2 2 [1]) env (init_mem (fun _ => None))
              [half_at 0 p] eq_refl eq_refl eq_refl eq_refl eq_refl
              (dl_stop_ready 0 p [] eq_refl eq_refl eq_refl eq_refl))
    as (m' & Hc & Hf & _).
  exists m'. split; [exact Hc|exact Hf].
Defined.

Lemma ori_event_and_live_file_are_raw_halves_witness :
  let p := mkPoll true true [1; 2; 3; 4]%Z [] true false in
  let env := mkEnv true false true true [p] true (mkTm 126 9 18 12 0 0) true in
  exists m', event_cycle_ori (mkConfig 2 2 [1]) env (init_mem (fun _ => None)) = Cycled m' false /\
    fs m' live_filepath_final = Some (bytes_of_u16s [1; 2; 3; 4]%Z).
Proof.
  intros p env.
  destruct (ori_event_and_live_file_are_raw_halves (mkConfig 2 2 [1]) env (init_mem (fun _ => None))
              [half_at 0 p] eq_refl eq_refl eq_refl eq_refl
              (dl_stop_ready 0 p [] eq_refl eq_refl eq_refl eq_refl)
              (Forall_cons (half_at 0 p) (eq_refl 4) (Forall_nil _)))
    as (m2 & l & m' & _ & _ & Hc & Hf).
  exists m'. split; [exact Hc|exact Hf].
Defined.

Lemma live_snapshot_atomic_ori_witness :
  let env := mkEnv true false true true [mkPoll true true [1; 2; 3; 4]%Z [] true false]
                   true (mkTm 126 9 18 12 0 0) true in
  ftrace (init_mem (fun _ => None)) = [] /\
  fs (outcome_mem (main_program_ori ori_cfg [env] (mkTm 126 9 18 12 0 0) true
                     (init_mem (fun _ => None)))) =
  fs_run (fun _ => None) (ftrace (outcome_mem (main_program_ori ori_cfg [env]
                     (mkTm 126 9 18 12 0 0) true (init_mem (fun _ => None))))).
Proof.
  intros env. split; [reflexivity|].
  destruct (live_snapshot_atomic_ori ori_cfg [env] (mkTm 126 9 18 12 0 0) true
              (init_mem (fun _ => None)) eq_refl) as [Hfs _].
  exact Hfs.
Defined.

(* ------------------------------------------------------------------ *)
(** ** Exact arithmetic of the spectral stage (src/CodeTriggerExtBaru/fft_zero.c) *)

Section FloatExact.
Local Open Scope Z_scope.

Lemma digits2_pos_size (p : positive) : digits2_pos p = Pos.size p.
Proof. induction p as [p IH|p IH|]; cbn; rewrite ?IH; reflexivity. Qed.

Lemma digits2_log2 (p : positive) : Zpos (digits2_pos p) = Z.log2 (Zpos p) + 1.
Proof.
  rewrite digits2_pos_size. destruct p as [p|p|]; cbn [Z.log2]; try reflexivity;
    cbn [Pos.size]; rewrite Pos2Z.inj_succ; reflexivity.
Qed.

Lemma digits2_shift (M N : positive) (k : Z) :
  0 <= k -> Zpos M = Zpos N * 2 ^ k -> Zpos (digits2_pos M) = Zpos (digits2_pos N) + k.
Proof.
  intros Hk HM. rewrite !digits2_log2, HM, Z.log2_mul_pow2 by lia. lia.
Qed.

Lemma iter_pos_nat {A} (f : A -> A) (p : positive) (x : A) :
  iter_pos f p x = Nat.iter (Pos.to_nat p) f x.
Proof.
  revert x. induction p as [p IH|p IH|]; intros x; cbn [iter_pos].
  - rewrite !IH, Pos2Nat.inj_xI, <- Nat.iter_add, Nat.iter_succ_r. f_equal. lia.
  - rewrite !IH, Pos2Nat.inj_xO, <- Nat.iter_add. f_equal. lia.
  - reflexivity.
Qed.

Lemma shr_1_iter (k : nat) (N : positive) :
  Nat.iter k shr_1 (Build_shr_record (Zpos N * 2 ^ Z.of_nat k) false false) =
  Build_shr_record (Zpos N) false false.
Proof.
  revert N. induction k as [|k IH]; intros N.
  - cbn [Nat.iter Z.of_nat]. rewrite Z.pow_0_r, Z.mul_1_r. reflexivity.
  - rewrite Nat.iter_succ. rewrite Nat2Z.inj_succ, Z.pow_succ_r by lia.
    replace (Zpos N * (2 * 2 ^ Z.of_nat k)) with (Zpos (xO N) * 2 ^ Z.of_nat k) by lia.
    rewrite IH. reflexivity.
Qed.

Lemma pos_iter_xO (M d : positive) : Zpos (Pos.iter xO M d) = Zpos M * 2 ^ Zpos d.
Proof.
  induction d as [|d IH] using Pos.peano_ind.
  - cbn. lia.
  - rewrite Pos.iter_succ, Pos2Z.inj_succ, Z.pow_succ_r by lia.
    change (Zpos (xO (Pos.iter xO M d))) with (2 * Zpos (Pos.iter xO M d)). rewrite IH. lia.
Qed.

(** Rounding a value that the format represents exactly gives it back. *)
Lemma round_aux_exact (prec emax : Z) (s : bool) (M N : positive) (E c : Z) :
  fexp prec emax (Zpos (digits2_pos M) + E) = c -> E <= c ->
  Zpos M = Zpos N * 2 ^ (c - E) -> c <= emax - prec ->
  binary_round_aux prec emax s (Zpos M) E loc_Exact = S754_finite s N c.
Proof.
  intros Hc HE HM Hb.
  assert (HdN : Zpos (digits2_pos M) = Zpos (digits2_pos N) + (c - E))
    by (apply digits2_shift; lia).
  unfold binary_round_aux, shr_fexp. cbn [Zdigits2 shr_record_of_loc]. rewrite Hc.
  assert (Hs : shr (Build_shr_record (Zpos M) false false) E (c - E) =
               (Build_shr_record (Zpos N) false false, c)).
  { unfold shr. destruct (c - E) as [|p|p] eqn:Ed.
    - rewrite Z.mul_1_r in HM. rewrite HM. f_equal. lia.
    - rewrite iter_pos_nat, HM, <- (positive_nat_Z p), shr_1_iter. f_equal. lia.
    - lia. }
  rewrite Hs. cbn [shr_m loc_of_shr_record round_nearest_even].
  assert (Hc' : fexp prec emax (Zdigits2 (Zpos N) + c) - c = 0).
  { cbn [Zdigits2]. replace (Zpos (digits2_pos N) + c) with (Zpos (digits2_pos M) + E) by lia.
    lia. }
  rewrite Hc'. cbn [shr shr_m]. apply Z.leb_le in Hb. rewrite Hb. reflexivity.
Qed.

Lemma round_exact (prec emax : Z) (s : bool) (M N : positive) (E c : Z) :
  fexp prec emax (Zpos (digits2_pos M) + E) = c -> c <= emax - prec ->
  Zpos M * 2 ^ (E - Z.min E c) = Zpos N * 2 ^ (c - Z.min E c) ->
  binary_round prec emax s M E = S754_finite s N c.
Proof.
  intros Hc Hb Hv. unfold binary_round. rewrite Hc. unfold shl_align.
  destruct (c - E) as [|d|d] eqn:Ed.
  - apply round_aux_exact; [exact Hc|lia| |exact Hb].
    replace (Z.min E c) with E in Hv by lia. rewrite Z.sub_diag, Ed in Hv. rewrite Ed.
    rewrite Z.pow_0_r in *. lia.
  - apply round_aux_exact; [exact Hc|lia| |exact Hb].
    replace (Z.min E c) with E in Hv by lia. rewrite Z.sub_diag in Hv. lia.
  - apply round_aux_exact.
    + rewrite (digits2_shift _ M (Zpos d)), <- Hc by (try lia; apply pos_iter_xO). f_equal. lia.
    + lia.
    + rewrite pos_iter_xO, Z.sub_diag. replace (Z.min E c) with c in Hv by lia.
      rewrite Z.sub_diag in Hv. replace (Zpos d) with (E - c) by lia. lia.
    + exact Hb.
Qed.

Lemma shl_align_fst (A : positive) (a z : Z) :
  z <= a -> Zpos (fst (shl_align A a z)) = Zpos A * 2 ^ (a - z).
Proof.
  intros H. unfold shl_align. destruct (z - a) as [|d|d] eqn:Ed; cbn [fst].
  - replace (a - z) with 0 by lia. lia.
  - lia.
  - rewrite pos_iter_xO. f_equal. f_equal. lia.
Qed.

Lemma pow2_pos (k : Z) : 0 <= k -> 0 < 2 ^ k.
Proof. intros H. apply Z.pow_pos_nonneg; lia. Qed.

Lemma SFadd_same_sign (prec emax : Z) (s : bool) (A B : positive) (a b : Z) :
  SFadd prec emax (S754_finite s A a) (S754_finite s B b) =
  binary_round prec emax s
    (Z.to_pos (Zpos A * 2 ^ (a - Z.min a b) + Zpos B * 2 ^ (b - Z.min a b))) (Z.min a b).
Proof.
  cbn [SFadd]. rewrite !shl_align_fst by lia.
  set (P := Zpos A * 2 ^ (a - Z.min a b)). set (Q := Zpos B * 2 ^ (b - Z.min a b)).
  assert (HP : 0 < P) by (apply Z.mul_pos_pos; [lia|apply pow2_pos; lia]).
  assert (HQ : 0 < Q) by (apply Z.mul_pos_pos; [lia|apply pow2_pos; lia]).
  destruct s; cbn [cond_Zopp].
  - replace (- P + - Q) with (Zneg (Z.to_pos (P + Q))) by (rewrite <- Pos2Z.opp_pos, Z2Pos.id; lia).
    reflexivity.
  - replace (P + Q) with (Zpos (Z.to_pos (P + Q))) at 1 by (rewrite Z2Pos.id; lia).
    reflexivity.
Qed.

Lemma SFsub_self (prec emax : Z) (s : bool) (m : positive) (e : Z) :
  SFsub prec emax (S754_finite s m e) (S754_finite s m e) = S754_zero false.
Proof. cbn [SFsub]. rewrite Z.sub_diag. reflexivity. Qed.

End FloatExact.

Lemma valid_float_facts (s : bool) (m : positive) (e : Z) :
  valid_binary prec32 emax32 (S754_finite s m e) = true ->
  (Z.log2 (Zpos m) + 1 <= 24 /\ -149 <= e <= 104 /\
   fexp prec32 emax32 (Z.log2 (Zpos m) + 1 + e) = e)%Z.
Proof.
  cbn [valid_binary]. unfold bounded, canonical_mantissa.
  intros H. apply andb_prop in H as [H1 H2].
  apply Z.eqb_eq in H1. apply Z.leb_le in H2. rewrite digits2_log2 in H1.
  unfold fexp, emin, prec32, emax32 in *. lia.
Qed.

Section ConstantMean.
Local Open Scope Z_scope.

Variables (s : bool) (m : positive) (e : Z).
Hypothesis Hx : valid_binary prec32 emax32 (S754_finite s m e) = true.

Lemma m_bound : Zpos m < 2 ^ 24.
Proof.
  destruct (valid_float_facts s m e Hx) as (Hm & _).
  apply Z.log2_lt_pow2; lia.
Qed.

Lemma log2_Km (K : Z) : 1 <= K <= 8192 -> 0 <= Z.log2 (K * Zpos m) <= 36.
Proof.
  intros HK. pose proof m_bound as Hm. pose proof (Pos2Z.is_pos m). split; [apply Z.log2_nonneg|].
  assert (K * Zpos m < 2 ^ 37).
  { change (2 ^ 37) with (8192 * 2 ^ 24). apply Z.le_lt_trans with (8192 * Zpos m); [nia|].
    change (2 ^ 24) with 16777216 in Hm. lia. }
  apply Z.lt_succ_r, Z.log2_lt_pow2; [nia|exact H0].
Qed.

Lemma dexp_le (K : Z) : 1 <= K <= 8192 -> dexp m e K <= e - 16.
Proof. intros HK. pose proof (log2_Km K HK). unfold dexp. lia. Qed.

Lemma dmant_val (K : Z) : 1 <= K <= 8192 ->
  Zpos (dmant m e K) = K * Zpos m * 2 ^ (e - dexp m e K).
Proof.
  intros HK. pose proof (dexp_le K HK). pose proof (Pos2Z.is_pos m). unfold dmant. rewrite Z2Pos.id; [reflexivity|].
  apply Z.mul_pos_pos; [nia|apply pow2_pos; lia].
Qed.

Lemma dbl_round (K E : Z) : 1 <= K <= 8192 -> E <= e ->
  binary_round prec64 emax64 s (Z.to_pos (K * Zpos m * 2 ^ (e - E))) E =
  S754_finite s (dmant m e K) (dexp m e K).
Proof.
  intros HK HE. destruct (valid_float_facts s m e Hx) as (_ & He & _).
  pose proof (log2_Km K HK) as HL. pose proof (dexp_le K HK) as Hd. pose proof (Pos2Z.is_pos m).
  assert (HP : 0 < K * Zpos m * 2 ^ (e - E)) by (apply Z.mul_pos_pos; [nia|apply pow2_pos; lia]).
  apply round_exact.
  - rewrite digits2_log2, Z2Pos.id by exact HP. rewrite Z.log2_mul_pow2 by (try nia; lia).
    unfold fexp, emin, prec64, emax64, dexp. lia.
  - unfold prec64, emax64. lia.
  - rewrite Z2Pos.id by exact HP. rewrite dmant_val by exact HK.
    rewrite <- !Z.mul_assoc, <- !Z.pow_add_r by lia. do 3 f_equal. lia.
Qed.

Lemma double_of_x : double_of_float (S754_finite s m e) = S754_finite s (dmant m e 1) (dexp m e 1).
Proof.
  cbn [double_of_float]. rewrite <- (dbl_round 1 e) by lia.
  rewrite Z.sub_diag, Z.pow_0_r, Z.mul_1_r, Z.mul_1_l. reflexivity.
Qed.

Lemma sum_iter (k : nat) : (1 <= Z.of_nat k <= 8192)%Z ->
  Nat.iter k (fun acc => dadd acc (double_of_float (S754_finite s m e))) fzero =
  S754_finite s (dmant m e (Z.of_nat k)) (dexp m e (Z.of_nat k)).
Proof.
  rewrite double_of_x. induction k as [|k IH]; intros Hk; [lia|].
  destruct k as [|k].
  - reflexivity.
  - rewrite Nat.iter_succ, IH by lia. unfold dadd. rewrite SFadd_same_sign.
    set (K := Z.of_nat (S k)) in *.
    pose proof (dexp_le K ltac:(lia)) as H1. pose proof (dexp_le 1 ltac:(lia)) as H2.
    set (z := Z.min (dexp m e K) (dexp m e 1)).
    replace (Zpos (dmant m e K) * 2 ^ (dexp m e K - z) + Zpos (dmant m e 1) * 2 ^ (dexp m e 1 - z))
      with (Z.of_nat (S (S k)) * Zpos m * 2 ^ (e - z)).
    + apply dbl_round; lia.
    + rewrite !dmant_val by lia. rewrite <- !Z.mul_assoc, <- !Z.pow_add_r by lia.
      replace (e - dexp m e K + (dexp m e K - z)) with (e - z) by lia.
      replace (e - dexp m e 1 + (dexp m e 1 - z)) with (e - z) by lia.
      subst K. rewrite !Nat2Z.inj_succ. ring.
Qed.

End ConstantMean.

Lemma double_8192 : double_of_int 8192 = S754_finite false 4503599627370496 (-39).
Proof. vm_compute. reflexivity. Qed.

Lemma div_eucl_pair (a b : Z) : Z.div_eucl a b = (a / b, a mod b)%Z.
Proof. unfold Z.div, Z.modulo. destruct (Z.div_eucl a b). reflexivity. Qed.

Lemma div_core_8192 (N : positive) (c : Z) :
  Zpos (digits2_pos N) = 53%Z -> (-1060 <= c)%Z ->
  SFdiv_core_binary prec64 emax64 (Zpos N) c (Zpos 4503599627370496) (-39) =
  (Zpos (xO N), (c - 14)%Z, loc_Exact).
Proof.
  intros HN Hc. unfold SFdiv_core_binary. cbv zeta. cbn [Zdigits2]. rewrite HN.
  change (Zpos (digits2_pos 4503599627370496)) with 53%Z.
  replace (Z.min (fexp prec64 emax64 (53 + c - (53 + -39))) (c - -39)) with (c - 14)%Z
    by (unfold fexp, emin, prec64, emax64; lia).
  replace (c - -39 - (c - 14))%Z with 53%Z by lia.
  rewrite Z.shiftl_mul_pow2 by lia. rewrite div_eucl_pair.
  change (Zpos 4503599627370496) with (2 ^ 52)%Z.
  replace (Zpos N * 2 ^ 53)%Z with (Zpos (xO N) * 2 ^ 52)%Z
    by (rewrite Pos2Z.inj_xO; change (2 ^ 53)%Z with (2 * 2 ^ 52)%Z; ring).
  rewrite Z.div_mul, Z.mod_mul by (apply Z.pow_nonzero; lia). reflexivity.
Qed.

Lemma ddiv_8192 (s : bool) (N : positive) (c : Z) :
  Zpos (digits2_pos N) = 53%Z -> (-1060 <= c <= 971)%Z ->
  ddiv (S754_finite s N c) (double_of_int 8192) = S754_finite s N (c - 13).
Proof.
  intros HN Hc. rewrite double_8192. unfold ddiv. cbn [SFdiv].
  rewrite div_core_8192 by (auto; lia). rewrite xorb_false_r.
  apply round_aux_exact.
  - cbn [digits2_pos]. rewrite Pos2Z.inj_succ, HN. unfold fexp, emin, prec64, emax64. lia.
  - lia.
  - rewrite Pos2Z.inj_xO. replace (c - 13 - (c - 14))%Z with 1%Z by lia. ring.
  - unfold prec64, emax64. lia.
Qed.

Lemma nth_repeat_lt {A} (i n : nat) (x d : A) : i < n -> nth i (repeat x n) d = x.
Proof.
  revert i. induction n as [|n IH]; intros i Hi; [lia|].
  destruct i as [|i]; [reflexivity|]. cbn [repeat nth]. apply IH. lia.
Qed.

Lemma fold_seq_repeat {A B} (g : A -> B -> A) (x d : B) (n : nat) :
  forall k j a, j + k <= n ->
  fold_left (fun acc i => g acc (nth i (repeat x n) d)) (seq j k) a =
  Nat.iter k (fun acc => g acc x) a.
Proof.
  induction k as [|k IH]; intros j a Hj; [reflexivity|].
  cbn [seq fold_left]. rewrite nth_repeat_lt by lia. rewrite IH by lia.
  symmetry. apply Nat.iter_succ_r.
Qed.

Lemma FFT_SIZE_Z : Z.of_nat FFT_SIZE = 8192%Z.
Proof. vm_compute. reflexivity. Qed.

Lemma channel_sum_repeat (x : spec_float) :
  channel_sum (repeat x FFT_SIZE) =
  Nat.iter FFT_SIZE (fun acc => dadd acc (double_of_float x)) fzero.
Proof.
  unfold channel_sum.
  exact (fold_seq_repeat (fun acc y => dadd acc (double_of_float y)) x fzero
           FFT_SIZE FFT_SIZE 0 fzero (Nat.le_refl FFT_SIZE)).
Qed.

(** The mean of [FFT_SIZE] copies of a finite [float] [x] is [x] itself. *)
Lemma channel_mean_repeat (s : bool) (m : positive) (e : Z) :
  valid_binary prec32 emax32 (S754_finite s m e) = true ->
  channel_mean (repeat (S754_finite s m e) FFT_SIZE) = S754_finite s m e.
Proof.
  intros Hx. unfold channel_mean. rewrite channel_sum_repeat.
  rewrite (sum_iter s m e Hx FFT_SIZE) by (rewrite FFT_SIZE_Z; lia).
  rewrite FFT_SIZE_Z.
  destruct (valid_float_facts s m e Hx) as (Hm & He & Hf).
  pose proof (Pos2Z.is_pos m) as Hmp. pose proof (Z.log2_nonneg (Zpos m)) as Hl0.
  assert (Hl : Z.log2 (8192 * Zpos m) = (13 + Z.log2 (Zpos m))%Z).
  { replace (8192 * Zpos m)%Z with (Zpos m * 2 ^ 13)%Z by ring.
    apply Z.log2_mul_pow2; lia. }
  assert (Hd : Zpos (digits2_pos (dmant m e 8192)) = 53%Z).
  { rewrite digits2_log2, (dmant_val s m e Hx) by lia.
    rewrite Z.log2_mul_pow2 by (try lia; unfold dexp; lia).
    unfold dexp. rewrite Hl. lia. }
  rewrite ddiv_8192 by (exact Hd || (unfold dexp; rewrite Hl; lia)).
  cbn [float_of_double]. apply round_exact.
  - rewrite Hd. unfold dexp. rewrite Hl. rewrite <- Hf. f_equal. lia.
  - unfold prec32, emax32. lia.
  - rewrite (dmant_val s m e Hx) by lia.
    assert (Hde : dexp m e 8192 = (Z.log2 (Zpos m) + e - 39)%Z) by (unfold dexp; rewrite Hl; lia).
    rewrite Hde.
    replace (Z.min (Z.log2 (Zpos m) + e - 39 - 13) e) with (Z.log2 (Zpos m) + e - 39 - 13)%Z by lia.
    rewrite Z.sub_diag, Z.pow_0_r, Z.mul_1_r.
    replace (e - (Z.log2 (Zpos m) + e - 39 - 13))%Z with (13 + (39 - Z.log2 (Zpos m)))%Z by lia.
    rewrite Z.pow_add_r by lia.
    replace (e - (Z.log2 (Zpos m) + e - 39))%Z with (39 - Z.log2 (Zpos m))%Z by lia. ring.
Qed.


Lemma sum_zero_iter (sx : bool) (k : nat) :
  Nat.iter k (fun acc => dadd acc (double_of_float (S754_zero sx))) fzero = fzero.
Proof.
  induction k as [|k IH]; [reflexivity|].
  rewrite Nat.iter_succ, IH. destruct sx; reflexivity.
Qed.

Lemma channel_mean_zero (sx : bool) :
  channel_mean (repeat (S754_zero sx) FFT_SIZE) = fzero.
Proof.
  unfold channel_mean. rewrite channel_sum_repeat, sum_zero_iter, FFT_SIZE_Z, double_8192.
  reflexivity.
Qed.

Lemma centered_const_zero (x : spec_float) :
  float_finite x = true -> is_zero (fsub x (channel_mean (repeat x FFT_SIZE))) = true.
Proof.
  intros Hx. destruct x as [sx| sx | | s m e]; try discriminate.
  - rewrite channel_mean_zero. destruct sx; reflexivity.
  - rewrite channel_mean_repeat by exact Hx. unfold fsub. rewrite SFsub_self. reflexivity.
Qed.

Lemma map_seq_const {A} (c : A) (k j : nat) : map (fun _ => c) (seq j k) = repeat c k.
Proof.
  revert j. induction k as [|k IH]; intros j; [reflexivity|]. cbn. f_equal. apply IH.
Qed.

Lemma zero_center_repeat (x : spec_float) :
  zero_center (repeat x FFT_SIZE) = repeat (fsub x (channel_mean (repeat x FFT_SIZE))) FFT_SIZE.
Proof.
  unfold zero_center. cbv zeta.
  rewrite (skipn_all2 (repeat x FFT_SIZE)) by (rewrite repeat_length; apply Nat.le_refl).
  rewrite app_nil_r.
  set (mean := channel_mean (repeat x FFT_SIZE)).
  transitivity (map (fun _ : nat => fsub x mean) (seq 0 FFT_SIZE)); [|apply map_seq_const].
  apply map_ext_in. intros i Hi. apply in_seq in Hi. rewrite nth_repeat_lt by lia. reflexivity.
Qed.

Lemma Forall_repeat_bool (P : spec_float -> bool) (c : spec_float) (k : nat) :
  P c = true -> Forall (fun y => P y = true) (repeat c k).
Proof. intros Hc. apply Forall_forall. intros y Hy. apply repeat_spec in Hy. subst. exact Hc. Qed.

Lemma nth_prop {A} (P : A -> Prop) (l : list A) (d : A) (j : nat) :
  (forall c, In c l -> P c) -> P d -> P (nth j l d).
Proof. intros Hl Hd. destruct (nth_in_or_default j l d) as [H|H]; [apply Hl, H|rewrite H; exact Hd]. Qed.

Lemma zero_sf_finite (a : spec_float) : is_zero a = true -> sf_finite a = true.
Proof. destruct a; try discriminate; reflexivity. Qed.

Lemma fmul_zero_l (a b : spec_float) :
  is_zero a = true -> sf_finite b = true -> is_zero (fmul a b) = true.
Proof. intros Ha Hb. destruct a, b; try discriminate; reflexivity. Qed.

Lemma fadd_zero (a b : spec_float) :
  is_zero a = true -> is_zero b = true -> is_zero (fadd a b) = true.
Proof. intros Ha Hb. destruct a as [sa| | |], b as [sb| | |]; try discriminate; destruct sa, sb; reflexivity. Qed.

Lemma fsub_zero (a b : spec_float) :
  is_zero a = true -> is_zero b = true -> is_zero (fsub a b) = true.
Proof. intros Ha Hb. destruct a as [sa| | |], b as [sb| | |]; try discriminate; destruct sa, sb; reflexivity. Qed.

Lemma fsqrt_zero (a : spec_float) : is_zero a = true -> is_zero (fsqrt a) = true.
Proof. intros Ha. destruct a; try discriminate; reflexivity. Qed.

Lemma cmul_zero (a b : cpx) :
  cis_zero a = true -> sf_finite (cr b) = true -> sf_finite (ci b) = true ->
  cis_zero (cmul a b) = true.
Proof.
  unfold cis_zero. intros Ha Hr Hi. apply andb_prop in Ha as [Ha1 Ha2]. cbn [cmul cr ci].
  rewrite fsub_zero, fadd_zero; auto using fmul_zero_l.
Qed.

Lemma cadd_zero (a b : cpx) : cis_zero a = true -> cis_zero b = true -> cis_zero (cadd a b) = true.
Proof.
  unfold cis_zero. intros Ha Hb. apply andb_prop in Ha as [Ha1 Ha2]. apply andb_prop in Hb as [Hb1 Hb2].
  cbn [cadd cr ci]. rewrite !fadd_zero; auto.
Qed.

Section FftZero.
Variable tw : nat -> cpx.
Hypothesis Htw : forall n, sf_finite (cr (tw n)) = true /\ sf_finite (ci (tw n)) = true.

Lemma kiss_fft_zero (inp : list cpx) :
  (forall j, cis_zero (nth j inp czero) = true) ->
  length (kiss_fft tw inp) = FFT_SIZE /\ Forall (fun c => cis_zero c = true) (kiss_fft tw inp).
Proof.
  intros Hin. unfold kiss_fft. split; [rewrite length_map, length_seq; reflexivity|].
  apply Forall_forall. intros o Ho. apply in_map_iff in Ho as (k & <- & _).
  assert (Hf : forall l acc, cis_zero acc = true ->
    cis_zero (fold_left (fun acc j => cadd acc (cmul (nth j inp czero) (tw ((j * k) mod FFT_SIZE)))) l acc)
    = true); [|apply Hf; reflexivity].
  intros l. induction l as [|j l IH]; intros acc Hacc; [exact Hacc|].
  cbn [fold_left]. apply IH. apply cadd_zero; [exact Hacc|].
  destruct (Htw ((j * k) mod FFT_SIZE)). apply cmul_zero; auto.
Qed.

Lemma fft_magnitudes_zero (ch : list spec_float) :
  Forall (fun y => is_zero y = true) ch ->
  length (fft_magnitudes tw ch) = FFT_SIZE /\
  Forall (fun y => is_zero y = true) (fft_magnitudes tw ch).
Proof.
  intros Hch. unfold fft_magnitudes.
  destruct (kiss_fft_zero (map (fun i => mkCpx (nth i ch fzero) (float_of_int 0)) (seq 0 FFT_SIZE)))
    as [Hl Hz].
  - intros j. apply (nth_prop (fun c => cis_zero c = true)); [|reflexivity].
    intros c Hc. apply in_map_iff in Hc as (i & <- & _). unfold cis_zero. cbn [cr ci].
    rewrite (nth_prop (fun y => is_zero y = true)); [reflexivity| |reflexivity].
    apply Forall_forall, Hch.
  - split; [rewrite length_map; exact Hl|].
    apply Forall_map. eapply Forall_impl; [|exact Hz]. intros c Hc.
    unfold cis_zero in Hc. apply andb_prop in Hc as [H1 H2].
    apply fsqrt_zero, fadd_zero; apply fmul_zero_l; auto using zero_sf_finite.
Qed.
End FftZero.

Lemma length_interleave (f g : nat -> spec_float) (l : list nat) :
  length (flat_map (fun i => [f i; g i]) l) = 2 * length l.
Proof. induction l as [|i l IH]; [reflexivity|]. cbn [flat_map app length]. rewrite IH. lia. Qed.

(** C9: on a constant input (each channel [FFT_SIZE] copies of one finite
    [float]), [process_fft_and_save_onefile] computes the mean by [double]
    accumulation and [(float)] cast, and that mean is exactly the sample
    when it is non-zero; after the in-place subtraction every sample of
    both channels is zero, the [FFT_SIZE] magnitude bins of each channel
    are zero, and the file, when opened, holds [2 * FFT_SIZE] zero floats. *)
Theorem fft_constant_input_all_zero (tw : nat -> cpx)
  (Htw : forall n, sf_finite (cr (tw n)) = true /\ sf_finite (ci (tw n)) = true)
  (x0 x1 : spec_float) (H0 : float_finite x0 = true) (H1 : float_finite x1 = true)
  (open_ok : bool) :
  (is_zero x0 = false -> channel_mean (repeat x0 FFT_SIZE) = x0) /\
  (is_zero x1 = false -> channel_mean (repeat x1 FFT_SIZE) = x1) /\
  let r := process_fft_and_save_onefile tw open_ok (repeat x0 FFT_SIZE) (repeat x1 FFT_SIZE) in
  length (fft_ch0 r) = FFT_SIZE /\ Forall (fun y => is_zero y = true) (fft_ch0 r) /\
  length (fft_ch1 r) = FFT_SIZE /\ Forall (fun y => is_zero y = true) (fft_ch1 r) /\
  length (fft_magnitudes tw (fft_ch0 r)) = FFT_SIZE /\
  Forall (fun y => is_zero y = true) (fft_magnitudes tw (fft_ch0 r)) /\
  length (fft_magnitudes tw (fft_ch1 r)) = FFT_SIZE /\
  Forall (fun y => is_zero y = true) (fft_magnitudes tw (fft_ch1 r)) /\
  match fft_file r with
  | Some fl => length fl = 2 * FFT_SIZE /\ Forall (fun y => is_zero y = true) fl
  | None => open_ok = false
  end.
Proof.
  assert (Hmean : forall x, float_finite x = true -> is_zero x = false ->
                  channel_mean (repeat x FFT_SIZE) = x).
  { intros x Hx Hz. destruct x; try discriminate. apply channel_mean_repeat, Hx. }
  split; [apply Hmean, H0|]. split; [apply Hmean, H1|].
  cbv zeta. unfold process_fft_and_save_onefile. cbv zeta. cbn [fft_ch0 fft_ch1 fft_file].
  rewrite !zero_center_repeat.
  pose proof (Forall_repeat_bool is_zero _ FFT_SIZE (centered_const_zero x0 H0)) as Z0.
  pose proof (Forall_repeat_bool is_zero _ FFT_SIZE (centered_const_zero x1 H1)) as Z1.
  destruct (fft_magnitudes_zero tw Htw _ Z0) as [L0 M0].
  destruct (fft_magnitudes_zero tw Htw _ Z1) as [L1 M1].
  rewrite !repeat_length.
  do 8 (split; [assumption || reflexivity|]).
  destruct open_ok; [|reflexivity]. split.
  - rewrite length_interleave, length_seq. reflexivity.
  - apply Forall_forall. intros y Hy. apply in_flat_map in Hy as (i & _ & Hy).
    destruct Hy as [<-|[<-|[]]];
      apply (nth_prop (fun y => is_zero y = true)); try reflexivity; apply Forall_forall; assumption.
Qed.

Lemma fft_constant_input_all_zero_witness :
  (forall n, sf_finite (cr ((fun _ : nat => mkCpx (float_of_int 1) (float_of_int 0)) n)) = true /\
             sf_finite (ci ((fun _ : nat => mkCpx (float_of_int 1) (float_of_int 0)) n)) = true) /\
  float_finite (float_of_int 5) = true /\ float_finite (float_of_int (-3)) = true /\
  channel_mean (repeat (float_of_int 5) FFT_SIZE) = float_of_int 5 /\
  channel_mean (repeat (float_of_int (-3)) FFT_SIZE) = float_of_int (-3) /\
  Forall (fun y => is_zero y = true)
    (fft_ch0 (process_fft_and_save_onefile (fun _ : nat => mkCpx (float_of_int 1) (float_of_int 0)) true
               (repeat (float_of_int 5) FFT_SIZE) (repeat (float_of_int (-3)) FFT_SIZE))).
Proof.
  assert (Htw : forall n, sf_finite (cr ((fun _ : nat => mkCpx (float_of_int 1) (float_of_int 0)) n)) = true /\
                          sf_finite (ci ((fun _ : nat => mkCpx (float_of_int 1) (float_of_int 0)) n)) = true)
    by (intros n; split; vm_compute; reflexivity).
  assert (H5 : float_finite (float_of_int 5) = true) by (vm_compute; reflexivity).
  assert (H3 : float_finite (float_of_int (-3)) = true) by (vm_compute; reflexivity).
  destruct (fft_constant_input_all_zero _ Htw _ _ H5 H3 true) as (M0 & M1 & _ & Z0 & _).
  split; [exact Htw|]. split; [exact H5|]. split; [exact H3|].
  split; [apply M0; vm_compute; reflexivity|]. split; [apply M1; vm_compute; reflexivity|].
  exact Z0.
Defined.
